(** * aquosctl: command encoding and response decoding

    A shallow embedding of [aquosctl.c], the RS-232 control program for
    Sharp Aquos televisions (command table revision 12/16/05), and the
    properties of its command encoder, frame transmitter and response
    reader.

    C strings are [string]s, bytes are [ascii] characters, [int]s are
    integers of [Z] cast to 32 bits where the C library casts them.  The
    embedding starts where [main] has copied its operands into [oparg],
    [arg] and [arg2] and [getopt] has set the globals [nosend] and
    [verbose]; the start of [main], with [usage] and the loop over the
    options, and the later revision of the program, with the commands of
    the table of 12/17/10, are embedded after it.  Strings are not bounded
    by the arrays that hold them in
    the program: the sizes of [cmd], [param] and [buffer] are recorded as
    constants, and only the size of [buffer] takes part in the control flow
    (it bounds the [read] calls). *)

From Stdlib Require Import ZArith List String Ascii Bool Lia.
Import ListNotations.

Local Open Scope string_scope.
Local Open Scope Z_scope.

(** ** The C library, as far as the program uses it *)

Module Libc.

Definition NUL : ascii := "000"%char.
Definition LF : ascii := "010"%char.
Definition CR : ascii := "013"%char.
Definition SP : ascii := " "%char.
Definition DQ : ascii := "034"%char.

Definition EXIT_SUCCESS : Z := 0.
Definition EXIT_FAILURE : Z := 1.

(** [isspace] in the C locale: space, and the controls 9 to 13. *)
Definition isspace (c : ascii) : bool :=
  let n := nat_of_ascii c in
  (Nat.eqb n 32 || (Nat.leb 9 n && Nat.leb n 13))%bool.

Definition isdigit (c : ascii) : bool :=
  let n := nat_of_ascii c in (Nat.leb 48 n && Nat.leb n 57)%bool.

Definition digit_val (c : ascii) : Z := Z.of_nat (nat_of_ascii c) - 48.

(** The cast of an integer to a 32-bit [int]. *)
Definition to_int (z : Z) : Z := (z + 2^31) mod 2^32 - 2^31.

Fixpoint skip_space (s : string) : string :=
  match s with
  | String c s' => if isspace c then skip_space s' else s
  | EmptyString => s
  end.

(** The digits at the head of [s], accumulated from [acc], and what follows
    them. *)
Fixpoint scan_digits (acc : Z) (s : string) : Z * string :=
  match s with
  | String c s' =>
      if isdigit c then scan_digits (acc * 10 + digit_val c) s' else (acc, s)
  | EmptyString => (acc, s)
  end.

(** A decimal integer as [strtol] in base 10 and the [%d] conversion read
    it, after the white space has been skipped: an optional sign and at
    least one digit.  [None] is a matching failure. *)
Definition scan_unsigned (neg : bool) (s : string) : option (Z * string) :=
  match s with
  | String c _ =>
      if isdigit c
      then let '(v, rest) := scan_digits 0 s in
           Some (to_int (if neg then - v else v), rest)
      else None
  | EmptyString => None
  end.

Definition scan_signed (s : string) : option (Z * string) :=
  match s with
  | String c t =>
      if Ascii.eqb c "-" then scan_unsigned true t
      else if Ascii.eqb c "+" then scan_unsigned false t
      else scan_unsigned false s
  | EmptyString => None
  end.

Definition scan_int (s : string) : option (Z * string) :=
  scan_signed (skip_space s).

(** [atoi]: the integer at the head of the string, 0 when there is none.
    (A numeral too long for a [long], which [strtol] would clamp, is more
    than the 16 bytes of an operand can hold.) *)
Definition atoi (s : string) : Z :=
  match scan_int s with
  | Some (v, _) => v
  | None => 0
  end.

(** [sscanf(s, "%d.%d", &a, &b)]: the number of conversions stored (or
    [EOF], -1, when the input ends before the first one) with the new
    values of the two variables, which keep their old value when their
    conversion is not reached.  The program tests whether the number is
    positive. *)
Definition sscanf_d_dot_d (s : string) (a b : Z) : Z * Z * Z :=
  match scan_int s with
  | None =>
      match skip_space s with
      | EmptyString => (-1, a, b)
      | _ => (0, a, b)
      end
  | Some (x, String "." rest) =>
      match scan_int rest with
      | Some (y, _) => (2, x, y)
      | None => (1, x, b)
      end
  | Some (x, _) => (1, x, b)
  end.

(** [strcmp(a, b) == 0]. *)
Definition streq (a b : string) : bool := String.eqb a b.

(** [strncmp(a, b, n) == 0]: the strings agree on their first [n]
    characters, or up to their common end when that comes earlier.  The
    end of a string in memory is its first NUL byte, which [a] may
    hold before the end of the [string] that models the memory. *)
Fixpoint strncmp_eq (a b : string) (n : nat) : bool :=
  match n with
  | O => true
  | S n' =>
      match a, b with
      | String x a', String y b' =>
          if Ascii.eqb x NUL then Ascii.eqb y NUL
          else (Ascii.eqb x y && strncmp_eq a' b' n')%bool
      | String x _, EmptyString => Ascii.eqb x NUL
      | EmptyString, String y _ => Ascii.eqb y NUL
      | EmptyString, EmptyString => true
      end
  end.

(** The C string that starts a memory area: its bytes before the first
    NUL. *)
Fixpoint cstr (s : string) : string :=
  match s with
  | String c s' => if Ascii.eqb c NUL then EmptyString else String c (cstr s')
  | EmptyString => EmptyString
  end.

Fixpoint repeat_char (c : ascii) (n : nat) : string :=
  match n with
  | O => EmptyString
  | S n' => String c (repeat_char c n')
  end.

(** [%-Ns]: the string, then spaces up to a width of [w]; a longer string
    is printed whole. *)
Definition fmt_left (w : nat) (s : string) : string :=
  s ++ repeat_char SP (w - String.length s).

Definition digit_char (d : Z) : ascii := ascii_of_nat (Z.to_nat (48 + d)).

(** The decimal digits of a natural number [n], in front of [acc]. *)
Fixpoint digits_of (fuel : nat) (n : Z) (acc : string) : string :=
  let acc' := String (digit_char (n mod 10)) acc in
  match fuel with
  | O => acc'
  | S fuel' =>
      if n / 10 =? 0 then acc' else digits_of fuel' (n / 10) acc'
  end.

Definition decimal (n : Z) : string :=
  digits_of (Z.to_nat (Z.log2 n)) n EmptyString.

(** [%0Nd]: the sign if negative, then zeros up to a width of [w], then the
    digits; a longer number is printed whole. *)
Definition fmt_0d (w : nat) (z : Z) : string :=
  let ds := decimal (Z.abs z) in
  if z <? 0
  then String "-" (repeat_char "0" (w - 1 - String.length ds) ++ ds)
  else repeat_char "0" (w - String.length ds) ++ ds.

(** [%d]: the plain numeral. *)
Definition fmt_d (z : Z) : string := fmt_0d 0 z.

End Libc.

Import Libc.

(** ** The process and its transport

    What the program does to the outside is recorded, in order, in a trace
    of events.  The serial line is a queue of the groups of bytes that the
    television delivers before the alarm of the pending exchange goes off:
    a [read] returns the bytes of the group at the head of the queue, as
    many as it asked for, and leaves the others queued. *)

Inductive event : Type :=
| Open (port : string) (result : Z)
| Configure (descriptor : Z)
| Write (descriptor : Z) (bytes : string)
| Read (descriptor : Z) (count : nat) (bytes : string)
| Alarm (seconds : Z)
| Close (descriptor : Z)
| Stdout (text : string)
| Stderr (text : string).

Record World : Type := mkWorld {
  fd : Z;                      (* int fd; *)
  nosend : bool;               (* int nosend = 0; set by -n *)
  verbose : bool;              (* int verbose = 0; set by -v *)
  open_result : Z;             (* what open() returns, -1 on failure *)
  open_error : string;         (* strerror(errno) after a failed open() *)
  incoming : list string;      (* the bytes on their way from the device *)
  trace : list event           (* what has happened, oldest first *)
}.

(** A computation ends normally with a value, or with the process gone
    through [exit]. *)
Inductive outcome (A : Type) : Type :=
| Normal (a : A)
| Exit (status : Z).
Arguments Normal {A} a.
Arguments Exit {A} status.

Definition M (A : Type) : Type := World -> outcome A * World.

Definition ret {A} (a : A) : M A := fun w => (Normal a, w).

Definition bind {A B} (m : M A) (k : A -> M B) : M B :=
  fun w =>
    match m w with
    | (Normal a, w') => k a w'
    | (Exit s, w') => (Exit s, w')
    end.

Definition exit {A} (status : Z) : M A := fun w => (Exit status, w).

Declare Scope proc_scope.
Delimit Scope proc_scope with proc.
Notation "x <- m ;; k" := (bind m (fun x => k))
  (at level 61, m at next level, right associativity) : proc_scope.
Notation "m ;; k" := (bind m (fun _ => k))
  (at level 61, right associativity) : proc_scope.
Local Open Scope proc_scope.

Definition get : M World := fun w => (Normal w, w).

(** The world after the events [es] have happened in [w]. *)
Definition log (es : list event) (w : World) : World :=
  mkWorld (fd w) (nosend w) (verbose w) (open_result w) (open_error w)
          (incoming w) (trace w ++ es).

Definition emit (e : event) : M unit := fun w => (Normal tt, log [e] w).

(** The world [w] with [d] in [fd]. *)
Definition with_fd (d : Z) (w : World) : World :=
  mkWorld d (nosend w) (verbose w) (open_result w) (open_error w)
          (incoming w) (trace w).

Definition set_fd (d : Z) : M unit := fun w => (Normal tt, with_fd d w).

(** The world [w] with [l] on the line. *)
Definition with_incoming (l : list string) (w : World) : World :=
  mkWorld (fd w) (nosend w) (verbose w) (open_result w) (open_error w)
          l (trace w).

Definition set_incoming (l : list string) : M unit :=
  fun w => (Normal tt, with_incoming l w).

Definition when (b : bool) (m : M unit) : M unit := if b then m else ret tt.

Definition nl : string := String LF EmptyString.
Definition cr : string := String CR EmptyString.
Definition dq : string := String DQ EmptyString.

Definition printf (text : string) : M unit := emit (Stdout text).
Definition fprintf_stderr (text : string) : M unit := emit (Stderr text).
Definition puts (text : string) : M unit := emit (Stdout (text ++ nl)).

Definition close_fd : M unit := w <- get ;; emit (Close (fd w)).
Definition write_fd (bytes : string) : M unit :=
  w <- get ;; emit (Write (fd w) bytes).
Definition alarm (seconds : Z) : M unit := emit (Alarm seconds).

(** [leave], the handler of SIGALRM. *)
Definition leave {A} : M A :=
  puts "No response." ;; close_fd ;; exit EXIT_FAILURE.

Fixpoint take (n : nat) (s : string) : string :=
  match n, s with
  | S n', String c s' => String c (take n' s')
  | _, _ => EmptyString
  end.

Fixpoint drop (n : nat) (s : string) : string :=
  match n, s with
  | S n', String _ s' => drop n' s'
  | _, _ => s
  end.

(** The first group of bytes on the line, and the line after it. *)
Fixpoint next_group (l : list string) : option (string * list string) :=
  match l with
  | [] => None
  | EmptyString :: l' => next_group l'
  | g :: l' => Some (g, l')
  end.

(** [read(fd, ptr, count)] on the port, which [openport] has made
    blocking: with room for no byte it returns 0 at once; it returns the
    bytes that have arrived, [count] at most; and while nothing arrives it
    blocks, until the alarm that [sendcommand] has set interrupts it and
    [leave] ends the process. *)
Definition read_fd (count : nat) : M string :=
  w <- get ;;
  match count with
  | O => emit (Read (fd w) count EmptyString) ;; ret EmptyString
  | S _ =>
      match next_group (incoming w) with
      | None => leave
      | Some (g, rest) =>
          let got := take count g in
          let left := drop count g in
          set_incoming (match left with
                        | EmptyString => rest
                        | _ => left :: rest
                        end) ;;
          emit (Read (fd w) count got) ;;
          ret got
      end
  end.

(** ** The command table *)

Inductive command : Type :=
| CMD_NONE | CMD_POENABLE | CMD_POWER | CMD_INPUT | CMD_AVMODE | CMD_VOLUME
| CMD_HPOS | CMD_VPOS | CMD_CLOCK | CMD_PHASE | CMD_VIEWMODE | CMD_MUTE
| CMD_SURROUND | CMD_AUDIOSEL | CMD_SLEEP | CMD_ACHAN | CMD_DCHAN
| CMD_DCABL1 | CMD_DCABL2 | CMD_CHUP | CMD_CHDN | CMD_CC.

Record lookuptab : Type := mkEntry {
  cmd : string;
  opcode : command;
  args : string;
  desc : string
}.

(** Aquos Command Table, 12/16/05 *)
Definition cmdtab : list lookuptab := [
  mkEntry "poenable" CMD_POENABLE
    "{ on | off }"
    "Enable/Disable power on command.";
  mkEntry "power" CMD_POWER
    "{ on | off }"
    "Turn TV on/off.";
  mkEntry "input" CMD_INPUT
    "[ tv | 1 - 7 ]"
    "Select TV, INPUT1-7; blank to toggle.";
  mkEntry "avmode" CMD_AVMODE
    "[standard|movie|game|user|dyn-fixed|dyn|pc|xvycc]"
    "AV mode selection; blank to toggle.";
  mkEntry "vol" CMD_VOLUME
    "{ 0 - 60 }"
    "Set volume (0-60).";
  mkEntry "hpos" CMD_HPOS
    "<varies depending on View Mode or signal type>"
    "Horizontal Position. Ranges are on the position setting screen.";
  mkEntry "vpos" CMD_VPOS
    "<varies depending on View Mode or signal type>"
    "Vertical Position. Ranges are on the position setting screen.";
  mkEntry "clock" CMD_CLOCK
    "{ 0 - 180 }"
    "Only in PC mode.";
  mkEntry "phase" CMD_PHASE
    "{ 1 - 40 }"
    "Only in PC mode.";
  mkEntry "viewmode" CMD_VIEWMODE
    "{sidebar|sstretch|zoom|stretch|normal|zoom-pc|stretch-pc|dotbydot|full}"
    "View modes (vary depending on input signal type -- see manual).";
  mkEntry "mute" CMD_MUTE
    "[ on | off ]"
    "Mute on/off; blank to toggle.";
  mkEntry "surround" CMD_SURROUND
    "[ on | off ]"
    "Surround on/off; blank to toggle.";
  mkEntry "audiosel" CMD_AUDIOSEL
    "<none>"
    "Audio selection toggle.";
  mkEntry "sleep" CMD_SLEEP
    "{ off or 0 | 30 | 60 | 90 | 120 }"
    "Sleep timer off or 30/60/90/120 minutes.";
  mkEntry "achan" CMD_ACHAN
    "{ 1 - 135 }"
    "Analog channel selection. Over-the-air: 2-69, Cable: 1-135.";
  mkEntry "dchan" CMD_DCHAN
    "{ xx.yy } or { xx } (xx=channel 1-99, yy=subchannel 1-99)"
    "Digital over-the-air channel selection.";
  mkEntry "dcabl1" CMD_DCABL1
    "{ xxx.yyy } or { xxx } (xxx=major ch. 1-999, yyy=minor ch. 0-999)"
    "Digital cable (type one).";
  mkEntry "dcabl2" CMD_DCABL2
    "{ 0 - 16383 }"
    "Digital cable (type two), channels 0-16383.";
  mkEntry "chup" CMD_CHUP
    "<none>"
    "Channel up. Will switch to TV input if not already selected.";
  mkEntry "chdn" CMD_CHDN
    "<none>"
    "Channel down. Will switch to TV input if not already selected.";
  mkEntry "cc" CMD_CC
    "<none>"
    "Closed Caption toggle."
].

(** The loop of [checkcmd], over what is left of the table. *)
Fixpoint checkcmd_from (tab : list lookuptab) (str : string) : command :=
  match tab with
  | [] => CMD_NONE
  | e :: tab' => if streq (cmd e) str then opcode e else checkcmd_from tab' str
  end.

Definition checkcmd (str : string) : command := checkcmd_from cmdtab str.

(** ** Opening the port *)

Definition openport (port : string) : M unit :=
  w <- get ;;
  emit (Open port (open_result w)) ;;
  set_fd (open_result w) ;;
  if open_result w =? -1
  then fprintf_stderr ("openport(" ++ port ++ "): " ++ open_error w ++ nl) ;;
       exit EXIT_FAILURE
  else emit (Configure (open_result w)).

(** ** Sending a frame and reading the reply *)

(** [sizeof(buffer)] *)
Definition buffer_size : nat := 255.

Fixpoint last_char (s : string) : option ascii :=
  match s with
  | EmptyString => None
  | String c EmptyString => Some c
  | String _ s' => last_char s'
  end.

(** [buffptr[-1] == '\n' || buffptr[-1] == '\r'] *)
Definition ends_line (s : string) : bool :=
  match last_char s with
  | Some c => (Ascii.eqb c LF || Ascii.eqb c CR)%bool
  | None => false
  end.

(** [buffptr[-1] = '\0']: the bytes received, without the last one. *)
Fixpoint chop (s : string) : string :=
  match s with
  | EmptyString => EmptyString
  | String _ EmptyString => EmptyString
  | String c s' => String c (chop s')
  end.

(** The reading loop; [acc] holds the bytes between [buffer] and
    [buffptr].  Every turn stores at least one byte, so that the loop ends
    within [buffer_size - 1] turns, which is the [fuel] it is started
    with. *)
Fixpoint read_reply (fuel : nat) (acc : string) : M string :=
  got <- read_fd (buffer_size - String.length acc - 1) ;;
  match got with
  | EmptyString => ret acc
  | _ =>
      let acc' := acc ++ got in
      if ends_line acc' then ret acc'
      else match fuel with
           | O => ret acc'
           | S fuel' => read_reply fuel' acc'
           end
  end.

(** The three ways [sendcommand] reads the reply in [buffer]. *)
Inductive ResponseOutcome : Type :=
| Success
| ProtocolError
| UnexpectedPayload (raw : string).

Definition classify (buffer : string) : ResponseOutcome :=
  if strncmp_eq buffer "OK" 2 then Success
  else if strncmp_eq buffer "ERR" 3 then ProtocolError
  else UnexpectedPayload (cstr buffer).

Definition sendcommand (command parameter : string) : M Z :=
  w <- get ;;
  when (verbose w || nosend w)
       (printf ("command='" ++ command ++ "', parameter='" ++ parameter
                ++ "'" ++ nl)) ;;
  if nosend w then ret EXIT_SUCCESS
  else
    write_fd command ;;
    write_fd parameter ;;
    write_fd cr ;;
    alarm 1 ;;
    received <- read_reply (buffer_size - 1) EmptyString ;;
    let buffer := chop received in
    match classify buffer with
    | Success =>
        when (verbose w) (puts "Success.") ;;
        ret EXIT_SUCCESS
    | ProtocolError =>
        fprintf_stderr ("Error: command/param '" ++ command ++ parameter
                        ++ "'" ++ nl) ;;
        ret EXIT_FAILURE
    | UnexpectedPayload raw =>
        fprintf_stderr ("Error: unexpected response '" ++ raw
                        ++ "' to command/param '" ++ command ++ parameter
                        ++ "'" ++ nl) ;;
        ret EXIT_FAILURE
    end.

(** ** The dispatcher: the [switch] of [main]

    A case of the [switch] either leaves [main] with [return(status)],
    which is [Some status] here, or ends with [break], which is [None]. *)

Definition break : M (option Z) := ret None.
Definition return_ (status : Z) : M (option Z) := ret (Some status).

(** The sizes of [cmd] and [param]. *)
Definition cmd_size : nat := 5.
Definition param_size : nat := 5.

Section Dispatch.

Variables progname oparg arg arg2 : string.

Definition bad_command : M (option Z) :=
  fprintf_stderr (progname ++ ": bad command '" ++ oparg ++ "'" ++ nl) ;;
  return_ EXIT_FAILURE.

Definition invalid_parameter : M (option Z) :=
  fprintf_stderr (progname ++ ": Invalid parameter " ++ dq ++ arg ++ dq
                  ++ " for command " ++ oparg ++ "." ++ nl) ;;
  return_ EXIT_FAILURE.

Definition invalid_parameters : M (option Z) :=
  fprintf_stderr (progname ++ ": Invalid parameter(s) for command " ++ oparg
                  ++ "." ++ nl) ;;
  return_ EXIT_FAILURE.

(** [atoi(arg) >= lo && atoi(arg) <= hi] *)
Definition atoi_within (lo hi : Z) : bool :=
  ((lo <=? atoi arg) && (atoi arg <=? hi))%bool.

Definition dispatch : M (option Z) :=
  let chan := 0 in
  let subchan := 0 in
  match checkcmd oparg with
  | CMD_NONE => bad_command

  | CMD_POENABLE =>
      if streq arg "off" then
        sendcommand "RSPW" (fmt_left 4 "0") ;; break
      else if streq arg "on" then
        sendcommand "RSPW" (fmt_left 4 "1") ;; break
      else invalid_parameter

  | CMD_POWER =>
      if streq arg "off" then
        sendcommand "POWR" (fmt_left 4 "0") ;; break
      else if streq arg "on" then
        sendcommand "POWR" (fmt_left 4 "1") ;; break
      else invalid_parameter

  | CMD_INPUT =>
      if streq arg EmptyString then
        sendcommand "ITGD" (fmt_left 4 "0") ;; break
      else if streq arg "tv" then
        sendcommand "ITVD" (fmt_left 4 "0") ;; break
      else if (atoi_within 1 7 && streq arg2 EmptyString)%bool then
        sendcommand "IAVD" (fmt_left 4 arg) ;; break
      else if (atoi_within 1 7 && streq arg2 "auto")%bool then
        sendcommand ("INP" ++ arg) (fmt_left 4 "0") ;; break
      else if (atoi_within 1 7 && streq arg2 "video")%bool then
        sendcommand ("INP" ++ arg) (fmt_left 4 "1") ;; break
      else if (atoi_within 1 7 && streq arg2 "component")%bool then
        sendcommand ("INP" ++ arg) (fmt_left 4 "2") ;; break
      else invalid_parameters

  | CMD_AVMODE =>
      if streq arg EmptyString then
        sendcommand "AVMD" (fmt_left 4 "0") ;; break
      else if streq arg "standard" then
        sendcommand "AVMD" (fmt_left 4 "1") ;; break
      else if streq arg "movie" then
        sendcommand "AVMD" (fmt_left 4 "2") ;; break
      else if streq arg "game" then
        sendcommand "AVMD" (fmt_left 4 "3") ;; break
      else if streq arg "user" then
        sendcommand "AVMD" (fmt_left 4 "4") ;; break
      else if streq arg "dyn-fixed" then
        sendcommand "AVMD" (fmt_left 4 "5") ;; break
      else if streq arg "dyn" then
        sendcommand "AVMD" (fmt_left 4 "6") ;; break
      else if streq arg "pc" then
        sendcommand "AVMD" (fmt_left 4 "7") ;; break
      else if streq arg "xvycc" then
        sendcommand "AVMD" (fmt_left 4 "8") ;; break
      else invalid_parameter

  | CMD_VOLUME =>
      if (negb (streq arg EmptyString) && atoi_within 0 60)%bool then
        sendcommand "VOLM" (fmt_left 4 arg) ;; break
      else invalid_parameter

  | CMD_HPOS =>
      if (negb (streq arg EmptyString) && atoi_within 0 999)%bool then
        sendcommand "HPOS" (fmt_left 4 arg) ;; break
      else invalid_parameter

  | CMD_VPOS =>
      if (negb (streq arg EmptyString) && atoi_within 0 999)%bool then
        sendcommand "VPOS" (fmt_left 4 arg) ;; break
      else invalid_parameter

  | CMD_CLOCK =>
      if (negb (streq arg EmptyString) && atoi_within 0 180)%bool then
        sendcommand "CLCK" (fmt_left 4 arg) ;; break
      else invalid_parameter

  | CMD_PHASE =>
      if (negb (streq arg EmptyString) && atoi_within 0 40)%bool then
        sendcommand "PHSE" (fmt_left 4 arg) ;; break
      else invalid_parameter

  | CMD_VIEWMODE =>
      if streq arg EmptyString then
        sendcommand "WIDE" (fmt_left 4 "0") ;; break
      else if streq arg "sidebar" then
        sendcommand "WIDE" (fmt_left 4 "1") ;; break
      else if streq arg "sstretch" then
        sendcommand "WIDE" (fmt_left 4 "2") ;; break
      else if streq arg "zoom" then
        sendcommand "WIDE" (fmt_left 4 "3") ;; break
      else if streq arg "stretch" then
        sendcommand "WIDE" (fmt_left 4 "4") ;; break
      else if streq arg "normal" then
        sendcommand "WIDE" (fmt_left 4 "5") ;; break
      else if streq arg "zoom-pc" then
        sendcommand "WIDE" (fmt_left 4 "6") ;; break
      else if streq arg "stretch-pc" then
        sendcommand "WIDE" (fmt_left 4 "7") ;; break
      else if streq arg "dotbydot" then
        sendcommand "WIDE" (fmt_left 4 "8") ;; break
      else if streq arg "full" then
        sendcommand "WIDE" (fmt_left 4 "9") ;; break
      else invalid_parameter

  | CMD_MUTE =>
      if streq arg EmptyString then
        sendcommand "MUTE" (fmt_left 4 "0") ;; break
      else if streq arg "on" then
        sendcommand "MUTE" (fmt_left 4 "1") ;; break
      else if streq arg "off" then
        sendcommand "MUTE" (fmt_left 4 "2") ;; break
      else invalid_parameter

  | CMD_SURROUND =>
      if streq arg EmptyString then
        sendcommand "ACSU" (fmt_left 4 "0") ;; break
      else if streq arg "on" then
        sendcommand "ACSU" (fmt_left 4 "1") ;; break
      else if streq arg "off" then
        sendcommand "ACSU" (fmt_left 4 "2") ;; break
      else invalid_parameter

  | CMD_AUDIOSEL =>
      sendcommand "ACHA" (fmt_left 4 "0") ;; break

  | CMD_SLEEP =>
      if streq arg "off" then
        sendcommand "OFTM" (fmt_left 4 "0") ;; break
      else if streq arg "0" then
        sendcommand "OFTM" (fmt_left 4 "0") ;; break
      else if streq arg "30" then
        sendcommand "OFTM" (fmt_left 4 "1") ;; break
      else if streq arg "60" then
        sendcommand "OFTM" (fmt_left 4 "2") ;; break
      else if streq arg "90" then
        sendcommand "OFTM" (fmt_left 4 "3") ;; break
      else if streq arg "120" then
        sendcommand "OFTM" (fmt_left 4 "4") ;; break
      else invalid_parameter

  | CMD_ACHAN =>
      if atoi_within 1 135 then
        sendcommand "DCCH" (fmt_left 4 arg) ;; break
      else invalid_parameter

  | CMD_DCHAN =>
      (* This will catch channel formats "xxyy" and "xx.yy". *)
      let '(n, chan, subchan) := sscanf_d_dot_d arg chan subchan in
      if 0 <? n then
        sendcommand "DA2P" (fmt_0d 2 chan ++ fmt_0d 2 subchan) ;; break
      else invalid_parameter

  | CMD_DCABL1 =>
      (* This will catch channel formats "xxx" and "xxx.yyy". *)
      let '(n, chan, subchan) := sscanf_d_dot_d arg chan subchan in
      if ((0 <? n) && ((chan <=? 999) && (subchan <=? 999)))%bool then
        sendcommand "DC2U" (fmt_0d 3 chan ++ " ") ;;
        sendcommand "DC2L" (fmt_0d 3 subchan ++ " ") ;;
        break
      else invalid_parameter

  | CMD_DCABL2 =>
      if atoi_within 0 9999 then
        sendcommand "DC10" (fmt_0d 4 (atoi arg)) ;; break
      else if ((9999 <? atoi arg) && (atoi arg <=? 16383))%bool then
        sendcommand "DC11" (fmt_0d 4 (atoi arg - 10000)) ;; break
      else invalid_parameter

  | CMD_CHUP =>
      sendcommand "CHUP" (fmt_left 4 "0") ;; break

  | CMD_CHDN =>
      sendcommand "CHDW" (fmt_left 4 "0") ;; break

  | CMD_CC =>
      sendcommand "CLCP" (fmt_left 4 "0") ;; break
  end.

(** [main], from the point where the operands and the options are known. *)
Definition main (port : string) : M Z :=
  w <- get ;;
  when (verbose w) (printf ("port=" ++ port ++ nl)) ;;
  when (negb (nosend w)) (openport port) ;;
  r <- dispatch ;;
  match r with
  | Some status => ret status
  | None => close_fd ;; ret EXIT_SUCCESS
  end.

End Dispatch.

(** The state in which a process starts: [fd] is 0 and nothing has
    happened. *)
Definition initial (dry_run talkative : bool) (open_res : Z)
    (open_err : string) (line : list string) : World :=
  mkWorld 0 dry_run talkative open_res open_err line [].

(** The exit status of the process. *)
Definition exit_status (r : outcome Z * World) : Z :=
  match fst r with
  | Normal status => status
  | Exit status => status
  end.

Definition final_trace {A} (r : outcome A * World) : list event :=
  trace (snd r).

(** ** What the trace shows *)

Definition is_write (e : event) : bool :=
  match e with Write _ _ => true | _ => false end.

Definition is_read (e : event) : bool :=
  match e with Read _ _ _ => true | _ => false end.

Definition is_alarm (e : event) : bool :=
  match e with Alarm _ => true | _ => false end.

(** No byte was written to a descriptor, none was asked from one, and no
    alarm was set to wait for a reply. *)
Definition no_io (tr : list event) : bool :=
  forallb (fun e => negb (is_write e || is_read e || is_alarm e)) tr.

(** The [write] calls of a trace, in order. *)
Fixpoint wire (tr : list event) : list string :=
  match tr with
  | [] => []
  | Write _ bytes :: tr' => bytes :: wire tr'
  | _ :: tr' => wire tr'
  end.

(** The three [write] calls that put a frame on the line, and the frame. *)
Definition frame_writes (f : string * string) : list string :=
  [fst f; snd f; cr].

Definition frame_bytes (f : string * string) : string :=
  fst f ++ snd f ++ cr.

(** The line that a dry or verbose run prints for a frame. *)
Definition frame_line (f : string * string) : string :=
  "command='" ++ fst f ++ "', parameter='" ++ snd f ++ "'" ++ nl.

(** ** The dispatcher as a table

    What a case of the [switch] comes to: one of the three complaints, or
    the frames it hands to [sendcommand], in order. *)

Inductive plan : Type :=
| BadCommand
| InvalidParameter
| InvalidParameters
| Frames (frames : list (string * string)).

Fixpoint token_param (tab : list (string * string)) (arg : string)
  : option string :=
  match tab with
  | [] => None
  | (token, value) :: tab' =>
      if streq arg token then Some value else token_param tab' arg
  end.

Definition tokens (op : string) (tab : list (string * string))
    (arg : string) : plan :=
  match token_param tab arg with
  | Some value => Frames [(op, fmt_left 4 value)]
  | None => InvalidParameter
  end.

Definition ranged (op : string) (lo hi : Z) (arg : string) : plan :=
  if (negb (streq arg EmptyString) && atoi_within arg lo hi)%bool
  then Frames [(op, fmt_left 4 arg)]
  else InvalidParameter.

Definition encode (oparg arg arg2 : string) : plan :=
  match checkcmd oparg with
  | CMD_NONE => BadCommand
  | CMD_POENABLE => tokens "RSPW" [("off", "0"); ("on", "1")] arg
  | CMD_POWER => tokens "POWR" [("off", "0"); ("on", "1")] arg
  | CMD_INPUT =>
      if streq arg EmptyString then Frames [("ITGD", fmt_left 4 "0")]
      else if streq arg "tv" then Frames [("ITVD", fmt_left 4 "0")]
      else if atoi_within arg 1 7 then
        if streq arg2 EmptyString then Frames [("IAVD", fmt_left 4 arg)]
        else
          match token_param
                  [("auto", "0"); ("video", "1"); ("component", "2")] arg2 with
          | Some value => Frames [("INP" ++ arg, fmt_left 4 value)]
          | None => InvalidParameters
          end
      else InvalidParameters
  | CMD_AVMODE =>
      tokens "AVMD"
        [(EmptyString, "0"); ("standard", "1"); ("movie", "2"); ("game", "3");
         ("user", "4"); ("dyn-fixed", "5"); ("dyn", "6"); ("pc", "7");
         ("xvycc", "8")] arg
  | CMD_VOLUME => ranged "VOLM" 0 60 arg
  | CMD_HPOS => ranged "HPOS" 0 999 arg
  | CMD_VPOS => ranged "VPOS" 0 999 arg
  | CMD_CLOCK => ranged "CLCK" 0 180 arg
  | CMD_PHASE => ranged "PHSE" 0 40 arg
  | CMD_VIEWMODE =>
      tokens "WIDE"
        [(EmptyString, "0"); ("sidebar", "1"); ("sstretch", "2");
         ("zoom", "3"); ("stretch", "4"); ("normal", "5"); ("zoom-pc", "6");
         ("stretch-pc", "7"); ("dotbydot", "8"); ("full", "9")] arg
  | CMD_MUTE =>
      tokens "MUTE" [(EmptyString, "0"); ("on", "1"); ("off", "2")] arg
  | CMD_SURROUND =>
      tokens "ACSU" [(EmptyString, "0"); ("on", "1"); ("off", "2")] arg
  | CMD_AUDIOSEL => Frames [("ACHA", fmt_left 4 "0")]
  | CMD_SLEEP =>
      tokens "OFTM"
        [("off", "0"); ("0", "0"); ("30", "1"); ("60", "2"); ("90", "3");
         ("120", "4")] arg
  | CMD_ACHAN =>
      if atoi_within arg 1 135 then Frames [("DCCH", fmt_left 4 arg)]
      else InvalidParameter
  | CMD_DCHAN =>
      let '(n, chan, subchan) := sscanf_d_dot_d arg 0 0 in
      if 0 <? n then Frames [("DA2P", fmt_0d 2 chan ++ fmt_0d 2 subchan)]
      else InvalidParameter
  | CMD_DCABL1 =>
      let '(n, chan, subchan) := sscanf_d_dot_d arg 0 0 in
      if ((0 <? n) && ((chan <=? 999) && (subchan <=? 999)))%bool
      then Frames [("DC2U", fmt_0d 3 chan ++ " ");
                   ("DC2L", fmt_0d 3 subchan ++ " ")]
      else InvalidParameter
  | CMD_DCABL2 =>
      if atoi_within arg 0 9999
      then Frames [("DC10", fmt_0d 4 (atoi arg))]
      else if ((9999 <? atoi arg) && (atoi arg <=? 16383))%bool
      then Frames [("DC11", fmt_0d 4 (atoi arg - 10000))]
      else InvalidParameter
  | CMD_CHUP => Frames [("CHUP", fmt_left 4 "0")]
  | CMD_CHDN => Frames [("CHDW", fmt_left 4 "0")]
  | CMD_CC => Frames [("CLCP", fmt_left 4 "0")]
  end.

(** The argument passes the validation of the command. *)
Definition validates (oparg arg arg2 : string) : bool :=
  match encode oparg arg arg2 with
  | Frames _ => true
  | _ => false
  end.

Fixpoint send_frames (fs : list (string * string)) : M (option Z) :=
  match fs with
  | [] => break
  | (op, param) :: fs' => sendcommand op param ;; send_frames fs'
  end.

Definition perform (progname oparg arg : string) (p : plan) : M (option Z) :=
  match p with
  | BadCommand => bad_command progname oparg
  | InvalidParameter => invalid_parameter progname oparg arg
  | InvalidParameters => invalid_parameters progname oparg
  | Frames fs => send_frames fs
  end.

(** ** What a run comes to: the events of an exchange and of a run *)

(** What [sendcommand] prints before it sends, what it writes, and what it
    says of the reply. *)
Definition announce (talk : bool) (f : string * string) : list event :=
  if talk then [Stdout (frame_line f)] else [].

Definition transmit (d : Z) (f : string * string) : list event :=
  [Write d (fst f); Write d (snd f); Write d cr; Alarm 1].

Definition status_of (o : ResponseOutcome) : Z :=
  match o with
  | Success => EXIT_SUCCESS
  | _ => EXIT_FAILURE
  end.

Definition report (talk : bool) (f : string * string) (o : ResponseOutcome)
  : list event :=
  match o with
  | Success => if talk then [Stdout ("Success." ++ nl)] else []
  | ProtocolError =>
      [Stderr ("Error: command/param '" ++ fst f ++ snd f ++ "'" ++ nl)]
  | UnexpectedPayload raw =>
      [Stderr ("Error: unexpected response '" ++ raw
               ++ "' to command/param '" ++ fst f ++ snd f ++ "'" ++ nl)]
  end.

(** A reply that one [read] delivers and that ends the loop. *)
Definition whole_reply (r : string) : Prop :=
  r <> EmptyString /\ (String.length r <= buffer_size - 1)%nat
  /\ ends_line r = true.

Definition exchange (talk : bool) (d : Z) (f : string * string) (r : string)
  : list event :=
  announce talk f ++ transmit d f ++ [Read d (buffer_size - 1) r]
  ++ report talk f (classify (chop r)).

Fixpoint exchanges (talk : bool) (d : Z) (fs : list (string * string))
    (rs : list string) : list event :=
  match fs, rs with
  | f :: fs', r :: rs' => exchange talk d f r ++ exchanges talk d fs' rs'
  | _, _ => []
  end.

Definition hello (talk : bool) (port : string) : list event :=
  if talk then [Stdout ("port=" ++ port ++ nl)] else [].

(** The message of a complaint. *)
Definition complaint (progname oparg arg : string) (p : plan) : string :=
  match p with
  | BadCommand => progname ++ ": bad command '" ++ oparg ++ "'" ++ nl
  | InvalidParameter =>
      progname ++ ": Invalid parameter " ++ dq ++ arg ++ dq
      ++ " for command " ++ oparg ++ "." ++ nl
  | InvalidParameters =>
      progname ++ ": Invalid parameter(s) for command " ++ oparg ++ "." ++ nl
  | Frames _ => EmptyString
  end.

(** The end of [main], after the [switch]. *)
Definition finish (r : outcome (option Z) * World) : outcome Z * World :=
  match r with
  | (Normal (Some status), w) => (Normal status, w)
  | (Normal None, w) => (Normal EXIT_SUCCESS, log [Close (fd w)] w)
  | (Exit status, w) => (Exit status, w)
  end.


(** The commands that take a number in a range: the name, whether the
    code asks for a non-empty argument, and the bounds the code tests
    [atoi(arg)] against.  (phase, whose documented range starts at 1 and
    whose test starts at 0, is not in this list.) *)
Definition bounded_commands : list (string * bool * Z * Z) :=
  [("vol", true, 0, 60); ("clock", true, 0, 180); ("hpos", true, 0, 999);
   ("vpos", true, 0, 999); ("achan", false, 1, 135);
   ("dcabl2", false, 0, 16383)].

(** What the test of such a command is, and what it makes of the bounds. *)
Definition range_law (arg2 : string) (entry : string * bool * Z * Z) : Prop :=
  let '(name, text, lo, hi) := entry in
  forall arg,
    validates name arg arg2
    = ((if text then negb (streq arg EmptyString) else true)
       && atoi_within arg lo hi)%bool.

Definition range_bounds (arg2 : string) (entry : string * bool * Z * Z)
  : Prop :=
  let '(name, text, lo, hi) := entry in
  validates name (fmt_d lo) arg2 = true
  /\ validates name (fmt_d hi) arg2 = true
  /\ validates name (fmt_d (lo - 1)) arg2 = false
  /\ validates name (fmt_d (hi + 1)) arg2 = false.

(** ** The start of [main]: [usage], the options and the operands *)

Definition TAB : ascii := "009"%char.
Definition htab : string := String TAB EmptyString.

(** Linux com0 is /dev/ttyS0. *)
Definition DEFAULT_PORT : string := "/dev/ttyS0".

Definition usage_entry (e : lookuptab) : string :=
  nl ++ fmt_left 10 (cmd e) ++ " " ++ args e ++ nl
  ++ "           " ++ desc e ++ nl.

(** The loop of [usage], over what is left of the table. *)
Fixpoint usage_entries (tab : list lookuptab) : M unit :=
  match tab with
  | [] => ret tt
  | e :: tab' => fprintf_stderr (usage_entry e) ;; usage_entries tab'
  end.

Definition usage {A} (progname : string) : M A :=
  fprintf_stderr ("usage: " ++ progname
                  ++ " [ -h | -n | -p {port} | -v ] {command} [arg]" ++ nl) ;;
  fprintf_stderr (htab ++ "-h" ++ htab ++ "Help" ++ nl
                  ++ htab ++ "-n" ++ htab
                  ++ "Show commands being sent, but don't send them (No-send)."
                  ++ nl
                  ++ htab ++ "-p" ++ htab ++ "Serial Port to use (default is "
                  ++ DEFAULT_PORT ++ ")." ++ nl
                  ++ htab ++ "-v" ++ htab ++ "Verbose mode." ++ nl ++ nl
                  ++ "command    args" ++ nl ++ "--------------------") ;;
  usage_entries cmdtab ;;
  exit EXIT_FAILURE.

(** The world [w] with the globals [nosend] and [verbose] set. *)
Definition with_nosend (b : bool) (w : World) : World :=
  mkWorld (fd w) b (verbose w) (open_result w) (open_error w)
          (incoming w) (trace w).

Definition with_verbose (b : bool) (w : World) : World :=
  mkWorld (fd w) (nosend w) b (open_result w) (open_error w)
          (incoming w) (trace w).

Definition set_nosend (b : bool) : M unit :=
  fun w => (Normal tt, with_nosend b w).

Definition set_verbose (b : bool) : M unit :=
  fun w => (Normal tt, with_verbose b w).

(** The loop over the options, with [port] as it stands.  An element of
    [opts] is what one call of [getopt(argc, argv, "vhnp:")] returns, the
    option character with [optarg]; the messages that [getopt] prints by
    itself are not in the trace. *)
Fixpoint options (progname : string) (opts : list (ascii * string))
    (port : string) : M string :=
  match opts with
  | [] => ret port
  | (ch, optarg) :: opts' =>
      if Ascii.eqb ch "n" then
        set_nosend true ;; options progname opts' port
      else if Ascii.eqb ch "v" then
        set_verbose true ;; options progname opts' port
      else if Ascii.eqb ch "p" then
        (if streq optarg EmptyString
         then fprintf_stderr ("no port specified" ++ nl) ;; usage progname
         else ret tt) ;;
        options progname opts' optarg
      else usage progname
  end.

(** [main] from its first line: [argc] as the process gets it, the options
    as [getopt] returns them and the operands that follow them, of which
    the first three are copied to [oparg], [arg] and [arg2]. *)
Definition main_argv (argc : nat) (progname : string)
    (opts : list (ascii * string)) (operands : list string) : M Z :=
  (if Nat.eqb argc 1 then usage progname else ret tt) ;;
  port <- options progname opts DEFAULT_PORT ;;
  main progname (nth 0 operands EmptyString) (nth 1 operands EmptyString)
       (nth 2 operands EmptyString) port.

(** ** More of what the trace shows *)

Definition is_stdout (e : event) : bool :=
  match e with Stdout _ => true | _ => false end.

Definition is_stderr (e : event) : bool :=
  match e with Stderr _ => true | _ => false end.

Definition is_open (e : event) : bool :=
  match e with Open _ _ => true | _ => false end.

Definition is_close (e : event) : bool :=
  match e with Close _ => true | _ => false end.

(** An event of an exchange on the descriptor [d]: a [write] to it, a
    [read] from it, an alarm or a message. *)
Definition exchange_event (d : Z) (e : event) : bool :=
  match e with
  | Write d' _ => d' =? d
  | Read d' _ _ => d' =? d
  | Alarm _ | Stdout _ | Stderr _ => true
  | Open _ _ | Configure _ | Close _ => false
  end.

(** What is printed on stdout taken out of a trace. *)
Definition quiet (tr : list event) : list event :=
  filter (fun e => negb (is_stdout e)) tr.

(** The bytes of a line, one group after the other. *)
Definition flatten (l : list string) : string :=
  fold_right append EmptyString l.

(** The [read] calls that take the groups [gs] whole, one each, when
    [used] bytes are in the buffer already. *)
Fixpoint reads (d : Z) (used : nat) (gs : list string) : list event :=
  match gs with
  | [] => []
  | g :: gs' =>
      Read d (buffer_size - used - 1) g
      :: reads d (used + String.length g) gs'
  end.

(** ** Some families of commands *)

(** The commands without argument, with their opcode. *)
Definition fixed_commands : list (string * string) :=
  [("audiosel", "ACHA"); ("chup", "CHUP"); ("chdn", "CHDW"); ("cc", "CLCP")].

(** The commands that toggle on a blank argument, with the opcode of the
    toggle. *)
Definition toggle_commands : list (string * string) :=
  [("input", "ITGD"); ("avmode", "AVMD"); ("viewmode", "WIDE");
   ("mute", "MUTE"); ("surround", "ACSU")].

(** The commands that take a word, with their opcode and the digit of each
    word. *)
Definition token_commands : list (string * string * list (string * string)) :=
  [("poenable", "RSPW", [("off", "0"); ("on", "1")]);
   ("power", "POWR", [("off", "0"); ("on", "1")]);
   ("avmode", "AVMD",
    [(EmptyString, "0"); ("standard", "1"); ("movie", "2"); ("game", "3");
     ("user", "4"); ("dyn-fixed", "5"); ("dyn", "6"); ("pc", "7");
     ("xvycc", "8")]);
   ("viewmode", "WIDE",
    [(EmptyString, "0"); ("sidebar", "1"); ("sstretch", "2"); ("zoom", "3");
     ("stretch", "4"); ("normal", "5"); ("zoom-pc", "6"); ("stretch-pc", "7");
     ("dotbydot", "8"); ("full", "9")]);
   ("mute", "MUTE", [(EmptyString, "0"); ("on", "1"); ("off", "2")]);
   ("surround", "ACSU", [(EmptyString, "0"); ("on", "1"); ("off", "2")]);
   ("sleep", "OFTM",
    [("off", "0"); ("0", "0"); ("30", "1"); ("60", "2"); ("90", "3");
     ("120", "4")])].

(** The commands that send their argument as it is written, with their
    opcode. *)
Definition text_commands : list (string * string) :=
  [("vol", "VOLM"); ("hpos", "HPOS"); ("vpos", "VPOS"); ("clock", "CLCK");
   ("phase", "PHSE"); ("achan", "DCCH")].


(** The channel that a frame of dcabl2 stands for. *)
Definition dcabl2_value (op param : string) : Z :=
  if streq op "DC10" then atoi param else atoi param + 10000.

(** ** Numerals *)

Fixpoint all_digits (s : string) : bool :=
  match s with
  | EmptyString => true
  | String c s' => (isdigit c && all_digits s')%bool
  end.

(** The number that a string of digits writes. *)
Definition digits_value (s : string) : Z := fst (scan_digits 0 s).

(** A string that does not go on with a digit. *)
Definition no_digit_head (s : string) : bool :=
  match s with
  | EmptyString => true
  | String c _ => negb (isdigit c)
  end.

(** The options of a command line that end it with the usage text, and
    what the others choose. *)
Definition help_option (o : ascii * string) : bool :=
  let '(ch, optarg) := o in
  if Ascii.eqb ch "n" then false
  else if Ascii.eqb ch "v" then false
  else if Ascii.eqb ch "p" then streq optarg EmptyString
  else true.

Definition has_option (c : ascii) (opts : list (ascii * string)) : bool :=
  existsb (fun o => Ascii.eqb (fst o) c) opts.

Definition selected_port (opts : list (ascii * string)) : string :=
  fold_left (fun port o => if Ascii.eqb (fst o) "p" then snd o else port)
            opts DEFAULT_PORT.

(** The sizes of [port] and of [oparg], [arg] and [arg2] in [main]. *)
Definition port_size : nat := 32.
Definition arg_size : nat := 16.

(** The command line fits the arrays that [main] copies it to with
    [strcpy]: each argument of -p with its end in [port], each of the
    first three operands with its end in its array. *)
Definition ports_fit (opts : list (ascii * string)) : bool :=
  forallb (fun o => if Ascii.eqb (fst o) "p"
                    then (String.length (snd o) <? port_size)%nat
                    else true) opts.

Definition operands_fit (operands : list string) : bool :=
  forallb (fun s => (String.length s <? arg_size)%nat) (firstn 3 operands).

(** * The later revision

    [src/unnamed/part_002] is a later revision of aquosctl.c, with the
    commands of the manual of 12/17/10 under [#ifdef NEWER_PROTOCOL].  Its
    [openport], [sendcommand], [checkcmd] and [leave] are those of the
    first revision, and so is [main] up to the [switch]; the table and
    the cases of the [switch] have changed. *)

Module Rev2.

Inductive command : Type :=
| CMD_NONE | CMD_POENABLE | CMD_POWER | CMD_INPUT | CMD_AVMODE | CMD_VOLUME
| CMD_HPOS | CMD_VPOS | CMD_CLOCK | CMD_PHASE | CMD_VIEWMODE | CMD_MUTE
| CMD_SURROUND | CMD_AUDIOSEL | CMD_SLEEP | CMD_ACHAN | CMD_DCHAN
| CMD_DCABL1 | CMD_DCABL2 | CMD_CHUP | CMD_CHDN | CMD_CC | CMD_3D
| CMD_BUTTON.

Record lookuptab : Type := mkEntry {
  cmd : string;
  opcode : command;
  args : string;
  desc : string
}.

(** A branch of a chain of [else if]: the words that [arg] is compared
    with, and the text that the branch formats into [param]. *)
Definition branch : Type := (list string * string)%type.

(** The chain, from its first branch: [param] after the branch that is
    taken, if one is. *)
Fixpoint select (arg : string) (chain : list branch) : option string :=
  match chain with
  | [] => None
  | (words, text) :: chain' =>
      if existsb (streq arg) words then Some (fmt_left 4 text)
      else select arg chain'
  end.

(** The branches of [case CMD_3D]. *)
Definition chain_3d : list branch :=
  [(["off"], "0"); (["2d3d"], "1"); (["sbs"], "2"); (["tab"], "3");
   (["3d2d-sbs"], "4"); (["3d2d-tab"], "5"); (["3d-auto"], "6");
   (["2d-auto"], "7")].

(** The branches of [case CMD_BUTTON]. *)
Definition chain_button : list branch :=
  [(["0"], "0"); (["1"], "1"); (["2"], "2"); (["3"], "3"); (["4"], "4");
   (["5"], "5"); (["6"], "6"); (["7"], "7"); (["8"], "8"); (["9"], "9");
   (["."], "10"); (["ent"; "enter"], "11"); (["power"], "12");
   (["display"], "13"); (["power-source"], "14"); (["rew"], "15");
   (["play"], "16"); (["ff"], "17"); (["pause"], "18"); (["prev"], "19");
   (["stop"], "20"); (["next"], "21"); (["rec"], "22"); (["option"], "23");
   (["sleep"], "24"); (["cc"], "27"); (["avmode"], "28");
   (["viewmode"], "29"); (["flashback"], "30"); (["mute"], "31");
   (["vol-"; "voldn"], "32"); (["vol+"; "volup"], "33"); (["chup"], "34");
   (["chdn"], "35"); (["input"], "36"); (["menu"], "38");
   (["startcenter"], "39"); (["enter"], "40"); (["up"], "41");
   (["down"], "42"); (["left"], "43"); (["right"], "44");
   (["return"], "45"); (["exit"], "46");
   (["fav"; "favorite"; "favoritech"], "47"); (["3d-surround"], "48");
   (["audio"], "49"); (["a"; "red"], "50"); (["b"; "green"], "51");
   (["c"; "blue"], "52"); (["d"; "yellow"], "53"); (["freeze"], "54");
   (["favapp1"], "55"); (["favapp2"], "56"); (["favapp3"], "57");
   (["3d"], "58"); (["netflix"], "59")].

Section Build.

(** Whether the build defines NEWER_PROTOCOL. *)
Variable NEWER_PROTOCOL : bool.

Definition CMD_TABLE_VERSION : string :=
  if NEWER_PROTOCOL then "12/17/10" else "12/16/05".

Definition cmdtab : list lookuptab := ([
  mkEntry "poenable" CMD_POENABLE
    (if NEWER_PROTOCOL then "{ on | on-ip | off }" else "{ on | off }")
    "Enable/Disable power on command.";
  mkEntry "power" CMD_POWER
    "{ on | off }"
    "Turn TV on/off.";
  mkEntry "input" CMD_INPUT
    (if NEWER_PROTOCOL then "[ tv | 1 - 8 ]" else "[ tv | 1 - 7 ]")
    (if NEWER_PROTOCOL then "Select TV, INPUT1-8; blank to toggle."
     else "Select TV, INPUT1-7; blank to toggle.");
  mkEntry "avmode" CMD_AVMODE
    (if NEWER_PROTOCOL
     then "[standard|movie|game|user|dyn-fixed|dyn|pc|xvycc|standard-3d|movie-3d|game-3d|auto]"
     else "[standard|movie|game|user|dyn-fixed|dyn|pc|xvycc]")
    "AV mode selection; blank to toggle.";
  mkEntry "vol" CMD_VOLUME
    "{ 0 - 60 }"
    "Set volume (0-60).";
  mkEntry "hpos" CMD_HPOS
    "<varies depending on View Mode or signal type>"
    "Horizontal Position. Ranges are on the position setting screen.";
  mkEntry "vpos" CMD_VPOS
    "<varies depending on View Mode or signal type>"
    "Vertical Position. Ranges are on the position setting screen.";
  mkEntry "clock" CMD_CLOCK
    "{ 0 - 180 }"
    "Only in PC mode.";
  mkEntry "phase" CMD_PHASE
    "{ 1 - 40 }"
    "Only in PC mode.";
  mkEntry "viewmode" CMD_VIEWMODE
    (if NEWER_PROTOCOL
     then "{sidebar|sstretch|zoom|stretch|normal|zoom-pc|stretch-pc|dotbydot|full}"
     else "{sidebar|sstretch|zoom|stretch|normal|zoom-pc|stretch-pc|dotbydot|full|auto|original}")
    "View modes (vary depending on input signal type -- see manual).";
  mkEntry "mute" CMD_MUTE
    "[ on | off ]"
    "Mute on/off; blank to toggle.";
  mkEntry "surround" CMD_SURROUND
    (if NEWER_PROTOCOL then "[ on | off ]"
     else "[ normal | off | 3d-hall | 3d-movie | 3d-standard | 3d-stadium ]")
    "Surround mode; blank to toggle.";
  mkEntry "audiosel" CMD_AUDIOSEL
    "<none>"
    "Audio selection toggle.";
  mkEntry "sleep" CMD_SLEEP
    "{ off or 0 | 30 | 60 | 90 | 120 }"
    "Sleep timer off or 30/60/90/120 minutes.";
  mkEntry "achan" CMD_ACHAN
    "{ 1 - 135 }"
    "Analog channel selection. Over-the-air: 2-69, Cable: 1-135.";
  mkEntry "dchan" CMD_DCHAN
    "{ xx.yy } or { xx } (xx=channel 1-99, yy=subchannel 1-99)"
    "Digital over-the-air channel selection.";
  mkEntry "dcabl1" CMD_DCABL1
    "{ xxx.yyy } or { xxx } (xxx=major ch. 1-999, yyy=minor ch. 0-999)"
    "Digital cable (type one).";
  mkEntry "dcabl2" CMD_DCABL2
    "{ 0 - 16383 }"
    "Digital cable (type two), channels 0-16383.";
  mkEntry "chup" CMD_CHUP
    "<none>"
    "Channel up. Will switch to TV input if not already selected.";
  mkEntry "chdn" CMD_CHDN
    "<none>"
    "Channel down. Will switch to TV input if not already selected.";
  mkEntry "cc" CMD_CC
    "<none>"
    "Closed Caption toggle."
] ++ if NEWER_PROTOCOL then [
  mkEntry "3d" CMD_3D
    "{ off | 2d3d | sbs | tab | 3d2d-sbs | 3d2d-tab | 3d-auto | 2d-auto }"
    "3D mode selection.";
  mkEntry "button" CMD_BUTTON
    "{ button on remote }"
    "Simulate remote control button press."
] else [])%list.

Fixpoint checkcmd_from (tab : list lookuptab) (str : string) : command :=
  match tab with
  | [] => CMD_NONE
  | e :: tab' => if streq (cmd e) str then opcode e else checkcmd_from tab' str
  end.

Definition checkcmd (str : string) : command := checkcmd_from cmdtab str.

Variables progname oparg arg arg2 : string.

(** A case that formats [param] in a chain of [else if] and sends it
    with the opcode [op] after the chain. *)
Definition by_word (op : string) (chain : list branch) : M (option Z) :=
  match select arg chain with
  | Some param => sendcommand op param ;; break
  | None => invalid_parameter progname oparg arg
  end.

Definition dispatch : M (option Z) :=
  let chan := 0 in
  let subchan := 0 in
  match checkcmd oparg with
  | CMD_NONE => bad_command progname oparg

  | CMD_POENABLE =>
      by_word "RSPW"
        ([(["off"], "0"); (["on"], "1")]
         ++ if NEWER_PROTOCOL then [(["on-ip"], "2")] else [])

  | CMD_POWER =>
      by_word "POWR" [(["off"], "0"); (["on"], "1")]

  | CMD_INPUT =>
      if streq arg EmptyString then
        sendcommand "ITGD" (fmt_left 4 "0") ;; break
      else if streq arg "tv" then
        sendcommand "ITVD" (fmt_left 4 "0") ;; break
      else if (atoi_within arg 1 (if NEWER_PROTOCOL then 8 else 7)
               && streq arg2 EmptyString)%bool then
        sendcommand "IAVD" (fmt_left 4 arg) ;; break
      else invalid_parameters progname oparg

  | CMD_AVMODE =>
      by_word "AVMD"
        ([([EmptyString], "0"); (["standard"], "1"); (["movie"], "2");
          (["game"], "3"); (["user"], "4"); (["dyn-fixed"], "5");
          (["dyn"], "6"); (["pc"], "7"); (["xvycc"], "8")]
         ++ if NEWER_PROTOCOL
            then [(["standard-3d"], "14"); (["movie-3d"], "15");
                  (["game-3d"], "16"); (["auto"], "100")]
            else [])

  | CMD_VOLUME =>
      if (negb (streq arg EmptyString) && atoi_within arg 0 60)%bool then
        sendcommand "VOLM" (fmt_left 4 arg) ;; break
      else invalid_parameter progname oparg arg

  | CMD_HPOS =>
      if (negb (streq arg EmptyString) && atoi_within arg 0 999)%bool then
        sendcommand "HPOS" (fmt_left 4 arg) ;; break
      else invalid_parameter progname oparg arg

  | CMD_VPOS =>
      if (negb (streq arg EmptyString) && atoi_within arg 0 999)%bool then
        sendcommand "VPOS" (fmt_left 4 arg) ;; break
      else invalid_parameter progname oparg arg

  | CMD_CLOCK =>
      if (negb (streq arg EmptyString) && atoi_within arg 0 180)%bool then
        sendcommand "CLCK" (fmt_left 4 arg) ;; break
      else invalid_parameter progname oparg arg

  | CMD_PHASE =>
      if (negb (streq arg EmptyString) && atoi_within arg 0 40)%bool then
        sendcommand "PHSE" (fmt_left 4 arg) ;; break
      else invalid_parameter progname oparg arg

  | CMD_VIEWMODE =>
      by_word "WIDE"
        ([([EmptyString], "0"); (["sidebar"], "1"); (["sstretch"], "2");
          (["zoom"], "3"); (["stretch"], "4"); (["normal"], "5");
          (["zoom-pc"], "6"); (["stretch-pc"], "7"); (["dotbydot"], "8");
          (["full"], "9")]
         ++ if NEWER_PROTOCOL
            then [(["auto"], "10"); (["original"], "11")]
            else [])

  | CMD_MUTE =>
      by_word "MUTE" [([EmptyString], "0"); (["on"], "1"); (["off"], "2")]

  | CMD_SURROUND =>
      by_word "ACSU"
        ([([EmptyString], "0")]
         ++ (if NEWER_PROTOCOL then [(["normal"], "1")] else [(["on"], "1")])
         ++ [(["off"], "2")]
         ++ if NEWER_PROTOCOL
            then [(["3d-hall"], "4"); (["3d-movie"], "5");
                  (["3d-standard"], "6"); (["3d-stadium"], "7")]
            else [])

  | CMD_AUDIOSEL =>
      sendcommand "ACHA" (fmt_left 4 "0") ;; break

  | CMD_SLEEP =>
      by_word "OFTM"
        [(["off"], "0"); (["0"], "0"); (["30"], "1"); (["60"], "2");
         (["90"], "3"); (["120"], "4")]

  | CMD_ACHAN =>
      if atoi_within arg 1 135 then
        sendcommand "DCCH" (fmt_left 4 arg) ;; break
      else invalid_parameter progname oparg arg

  | CMD_DCHAN =>
      (* This will catch channel formats "xxyy" and "xx.yy". *)
      let '(n, chan, subchan) := sscanf_d_dot_d arg chan subchan in
      if 0 <? n then
        sendcommand "DA2P" (fmt_0d 2 chan ++ fmt_0d 2 subchan) ;; break
      else invalid_parameter progname oparg arg

  | CMD_DCABL1 =>
      (* This will catch channel formats "xxx" and "xxx.yyy". *)
      let '(n, chan, subchan) := sscanf_d_dot_d arg chan subchan in
      if ((0 <? n) && ((chan <=? 999) && (subchan <=? 999)))%bool then
        sendcommand "DC2U" (fmt_0d 3 chan ++ " ") ;;
        sendcommand "DC2L" (fmt_0d 3 subchan ++ " ") ;;
        break
      else invalid_parameter progname oparg arg

  | CMD_DCABL2 =>
      if atoi_within arg 0 9999 then
        sendcommand "DC10" (fmt_0d 4 (atoi arg)) ;; break
      else if ((9999 <? atoi arg) && (atoi arg <=? 16383))%bool then
        sendcommand "DC11" (fmt_0d 4 (atoi arg - 10000)) ;; break
      else invalid_parameter progname oparg arg

  | CMD_CHUP =>
      sendcommand "CHUP" (fmt_left 4 "0") ;; break

  | CMD_CHDN =>
      sendcommand "CHDW" (fmt_left 4 "0") ;; break

  | CMD_CC =>
      sendcommand "CLCP" (fmt_left 4 "0") ;; break

  (* The two cases that follow are under #ifdef NEWER_PROTOCOL: without
     it the switch has no case for these values and goes on after it. *)
  | CMD_3D =>
      if NEWER_PROTOCOL then by_word "TDCH" chain_3d else break

  | CMD_BUTTON =>
      if NEWER_PROTOCOL then by_word "RCKY" chain_button else break
  end.

(** [main], from the point where the operands and the options are known. *)
Definition main (port : string) : M Z :=
  w <- get ;;
  when (verbose w) (printf ("port=" ++ port ++ nl)) ;;
  when (negb (nosend w)) (openport port) ;;
  r <- dispatch ;;
  match r with
  | Some status => ret status
  | None => close_fd ;; ret EXIT_SUCCESS
  end.

End Build.

End Rev2.

(** An opcode of the first revision in the later one, which defines it as
    the same number. *)
Definition later_opcode (c : command) : Rev2.command :=
  match c with
  | CMD_NONE => Rev2.CMD_NONE
  | CMD_POENABLE => Rev2.CMD_POENABLE
  | CMD_POWER => Rev2.CMD_POWER
  | CMD_INPUT => Rev2.CMD_INPUT
  | CMD_AVMODE => Rev2.CMD_AVMODE
  | CMD_VOLUME => Rev2.CMD_VOLUME
  | CMD_HPOS => Rev2.CMD_HPOS
  | CMD_VPOS => Rev2.CMD_VPOS
  | CMD_CLOCK => Rev2.CMD_CLOCK
  | CMD_PHASE => Rev2.CMD_PHASE
  | CMD_VIEWMODE => Rev2.CMD_VIEWMODE
  | CMD_MUTE => Rev2.CMD_MUTE
  | CMD_SURROUND => Rev2.CMD_SURROUND
  | CMD_AUDIOSEL => Rev2.CMD_AUDIOSEL
  | CMD_SLEEP => Rev2.CMD_SLEEP
  | CMD_ACHAN => Rev2.CMD_ACHAN
  | CMD_DCHAN => Rev2.CMD_DCHAN
  | CMD_DCABL1 => Rev2.CMD_DCABL1
  | CMD_DCABL2 => Rev2.CMD_DCABL2
  | CMD_CHUP => Rev2.CMD_CHUP
  | CMD_CHDN => Rev2.CMD_CHDN
  | CMD_CC => Rev2.CMD_CC
  end.

(** The forms [input N auto], [input N video] and [input N component],
    which the first revision has and the later one has not. *)
Definition video_select (oparg arg arg2 : string) : bool :=
  match checkcmd oparg with
  | CMD_INPUT =>
      (atoi_within arg 1 7
       && (streq arg2 "auto" || streq arg2 "video" || streq arg2 "component"))%bool
  | _ => false
  end.

(** [surround on], which the later revision has under the name
    [surround normal] when NEWER_PROTOCOL is defined. *)
Definition surround_on (oparg arg : string) : bool :=
  match checkcmd oparg with
  | CMD_SURROUND => streq arg "on"
  | _ => false
  end.

(** The numbers of the buttons that no word of [case CMD_BUTTON] can send:
    25, 26 and 37 have no branch, and the branch of 40 tests for a word
    that an earlier branch has taken. *)
Definition no_button : list Z := [25; 26; 37; 40].

(** The other numbers up to 59, the last of the buttons. *)
Definition button_numbers : list Z :=
  filter (fun k => negb (existsb (Z.eqb k) no_button))
         (map Z.of_nat (seq 0 60)).

(** The commands of the later revision that format [param] in a chain of
    [else if]. *)
Definition chain_commands : list string :=
  ["poenable"; "power"; "avmode"; "viewmode"; "mute"; "surround"; "sleep";
   "3d"; "button"].

(** The words of an [args] text of the table: what stands between its
    brackets, its bars and its blanks. *)
Definition is_separator (c : ascii) : bool :=
  existsb (Ascii.eqb c) ["{"; "}"; "["; "]"; "|"; " "]%char.

Fixpoint text_words (cur s : string) : list string :=
  match s with
  | EmptyString => if streq cur EmptyString then [] else [cur]
  | String c s' =>
      if is_separator c
      then ((if streq cur EmptyString then [] else [cur])
            ++ text_words EmptyString s')%list
      else text_words (cur ++ String c EmptyString) s'
  end.

(** The words that the table of a build has in the [args] of a command,
    which [usage] prints. *)
Definition documented (newer : bool) (name : string) : list string :=
  flat_map (fun e => if streq (Rev2.cmd e) name
                     then text_words EmptyString (Rev2.args e)
                     else [])
           (Rev2.cmdtab newer).

(** The words of a chain. *)
Definition chain_words (chain : list Rev2.branch) : list string :=
  flat_map fst chain.

(** ** The dispatcher does what the table says *)

Lemma dispatch_encode (progname oparg arg arg2 : string) :
  dispatch progname oparg arg arg2
  = perform progname oparg arg (encode oparg arg arg2).
Proof.
  unfold dispatch, encode, tokens, ranged.
  destruct (checkcmd oparg); cbn [token_param perform];
    repeat match goal with
           | |- context [sscanf_d_dot_d ?a ?b ?c] =>
               destruct (sscanf_d_dot_d a b c) as [[? ?] ?]
           | |- context [streq ?a ?b] => destruct (streq a b)
           | |- context [atoi_within ?a ?b ?c] => destruct (atoi_within a b c)
           | |- context [(?a <? ?b)%Z] => destruct (a <? b)%Z
           | |- context [(?a <=? ?b)%Z] => destruct (a <=? b)%Z
           | _ => progress cbn [andb negb perform send_frames token_param]
           end;
    reflexivity.
Qed.

(** ** Strings *)

Lemma length_append (a b : string) :
  String.length (a ++ b) = (String.length a + String.length b)%nat.
Proof. induction a as [|c a IH]; simpl; [reflexivity | now rewrite IH]. Qed.

Lemma length_repeat_char (c : ascii) (n : nat) :
  String.length (repeat_char c n) = n.
Proof. induction n as [|n IH]; simpl; [reflexivity | now rewrite IH]. Qed.

Lemma take_all (n : nat) (s : string) :
  (String.length s <= n)%nat -> take n s = s.
Proof.
  revert n; induction s as [|c s IH]; intros [|n] H; simpl in *;
    try reflexivity; try lia.
  rewrite IH by lia. reflexivity.
Qed.

Lemma drop_all (n : nat) (s : string) :
  (String.length s <= n)%nat -> drop n s = EmptyString.
Proof.
  revert n; induction s as [|c s IH]; intros [|n] H; simpl in *;
    try reflexivity; try lia.
  apply IH; lia.
Qed.

Lemma length_take (n : nat) (s : string) :
  String.length (take n s) = Nat.min n (String.length s).
Proof.
  revert n; induction s as [|c s IH]; intros [|n]; simpl; try reflexivity.
  now rewrite IH.
Qed.



(** ** States and traces *)

Lemma log_log (es1 es2 : list event) (w : World) :
  log es2 (log es1 w) = log (es1 ++ es2) w.
Proof. unfold log; simpl. now rewrite app_assoc. Qed.

Lemma wire_app (tr1 tr2 : list event) :
  wire (tr1 ++ tr2) = (wire tr1 ++ wire tr2)%list.
Proof.
  induction tr1 as [|e tr1 IH]; simpl; [reflexivity |].
  destruct e; simpl; now rewrite ?IH.
Qed.

Lemma no_io_app (tr1 tr2 : list event) :
  no_io (tr1 ++ tr2) = (no_io tr1 && no_io tr2)%bool.
Proof. unfold no_io. apply forallb_app. Qed.

Lemma no_io_wire (tr : list event) : no_io tr = true -> wire tr = [].
Proof.
  induction tr as [|e tr IH]; simpl; [reflexivity |].
  destruct e; simpl; intros H; try discriminate; auto.
Qed.

Lemma log_nil (w : World) : log [] (with_incoming (incoming w) w) = w.
Proof. destruct w; unfold log, with_incoming; simpl. now rewrite app_nil_r. Qed.

Lemma with_incoming_log (l : list string) (es : list event) (w : World) :
  with_incoming l (log es w) = log es (with_incoming l w).
Proof. reflexivity. Qed.

Lemma with_incoming_twice (l1 l2 : list string) (w : World) :
  with_incoming l2 (with_incoming l1 w) = with_incoming l2 w.
Proof. reflexivity. Qed.

Lemma fd_log es w : fd (log es w) = fd w.
Proof. reflexivity. Qed.
Lemma nosend_log es w : nosend (log es w) = nosend w.
Proof. reflexivity. Qed.
Lemma verbose_log es w : verbose (log es w) = verbose w.
Proof. reflexivity. Qed.
Lemma open_result_log es w : open_result (log es w) = open_result w.
Proof. reflexivity. Qed.
Lemma incoming_log es w : incoming (log es w) = incoming w.
Proof. reflexivity. Qed.
Lemma trace_log es w : trace (log es w) = (trace w ++ es)%list.
Proof. reflexivity. Qed.
Lemma fd_with_incoming l w : fd (with_incoming l w) = fd w.
Proof. reflexivity. Qed.
Lemma nosend_with_incoming l w : nosend (with_incoming l w) = nosend w.
Proof. reflexivity. Qed.
Lemma verbose_with_incoming l w : verbose (with_incoming l w) = verbose w.
Proof. reflexivity. Qed.
Lemma open_result_with_incoming l w :
  open_result (with_incoming l w) = open_result w.
Proof. reflexivity. Qed.
Lemma incoming_with_incoming l w : incoming (with_incoming l w) = l.
Proof. reflexivity. Qed.
Lemma trace_with_incoming l w : trace (with_incoming l w) = trace w.
Proof. reflexivity. Qed.

Lemma with_fd_log d es w : with_fd d (log es w) = log es (with_fd d w).
Proof. reflexivity. Qed.
Lemma fd_with_fd d w : fd (with_fd d w) = d.
Proof. reflexivity. Qed.
Lemma nosend_with_fd d w : nosend (with_fd d w) = nosend w.
Proof. reflexivity. Qed.
Lemma verbose_with_fd d w : verbose (with_fd d w) = verbose w.
Proof. reflexivity. Qed.
Lemma open_result_with_fd d w : open_result (with_fd d w) = open_result w.
Proof. reflexivity. Qed.
Lemma incoming_with_fd d w : incoming (with_fd d w) = incoming w.
Proof. reflexivity. Qed.
Lemma trace_with_fd d w : trace (with_fd d w) = trace w.
Proof. reflexivity. Qed.

Create Rewrite HintDb world.
#[local] Hint Rewrite with_fd_log fd_with_fd nosend_with_fd verbose_with_fd
  open_result_with_fd incoming_with_fd trace_with_fd : world.
Arguments with_fd : simpl never.
#[local] Hint Rewrite log_log with_incoming_log with_incoming_twice
  fd_log nosend_log verbose_log open_result_log incoming_log trace_log
  fd_with_incoming nosend_with_incoming verbose_with_incoming
  open_result_with_incoming incoming_with_incoming trace_with_incoming
  : world.

Arguments log : simpl never.
Arguments with_incoming : simpl never.

(** Unfolds the primitive operations of the process. *)
Ltac step :=
  unfold leave, puts, printf, fprintf_stderr, close_fd, write_fd, alarm,
    set_incoming, set_fd, emit, exit, when, bind, get, ret;
  autorewrite with world; simpl app.

(** ** Reading *)

Lemma next_group_nonempty (l : list string) (g : string) (rest : list string) :
  next_group l = Some (g, rest) -> g <> EmptyString.
Proof.
  induction l as [|x l IH]; simpl; [discriminate |].
  destruct x; [exact IH |].
  intros H; inversion H; subst. discriminate.
Qed.

(** A [read] ends the process, or returns and has written nothing. *)
Lemma read_fd_effect (count : nat) (w : World) :
  exists o es l,
    read_fd count w = (o, log es (with_incoming l w))
    /\ wire es = []
    /\ match o with
       | Normal got =>
           (String.length got <= count)%nat
           /\ (got = EmptyString -> count = O)
           /\ exists g, es = [Read (fd w) count g]
       | Exit s =>
           s = EXIT_FAILURE /\ next_group (incoming w) = None
           /\ l = incoming w
           /\ es = [Stdout ("No response." ++ nl); Close (fd w)]
       end.
Proof.
  unfold read_fd.
  destruct count as [|n].
  - exists (Normal EmptyString), [Read (fd w) 0 EmptyString], (incoming w).
    step. rewrite <- (log_nil w) at 1. autorewrite with world.
    repeat split; eauto.
  - step. destruct (next_group (incoming w)) as [[g rest]|] eqn:Hg.
    + pose proof (next_group_nonempty _ _ _ Hg) as Hne.
      exists (Normal (take (S n) g)), [Read (fd w) (S n) (take (S n) g)],
        (match drop (S n) g with
         | EmptyString => rest
         | _ => drop (S n) g :: rest
         end).
      step.
      split; [reflexivity |]. split; [reflexivity |].
      split; [rewrite length_take; lia |].
      split; [| eauto].
      destruct g; [congruence | simpl; discriminate].
    + exists (Exit EXIT_FAILURE),
        [Stdout ("No response." ++ nl); Close (fd w)], (incoming w).
      step. rewrite <- (log_nil w) at 1. autorewrite with world.
      repeat split.
Qed.

Lemma read_fd_group (n : nat) (w : World) (g : string) (rest : list string) :
  next_group (incoming w) = Some (g, rest) ->
  (String.length g <= S n)%nat ->
  read_fd (S n) w
  = (Normal g, log [Read (fd w) (S n) g] (with_incoming rest w)).
Proof.
  intros Hg Hlen. unfold read_fd. step. rewrite Hg.
  rewrite take_all, drop_all by assumption. step. reflexivity.
Qed.

Lemma read_fd_silent (n : nat) (w : World) :
  next_group (incoming w) = None ->
  read_fd (S n) w
  = (Exit EXIT_FAILURE, log [Stdout ("No response." ++ nl); Close (fd w)] w).
Proof.
  intros Hg. unfold read_fd. step. rewrite Hg. step. reflexivity.
Qed.

(** The loop ends the process on a silent line, or returns what it has
    read; it writes nothing. *)
Lemma read_reply_effect (fuel : nat) (acc : string) (w : World) :
  exists o es l,
    read_reply fuel acc w = (o, log es (with_incoming l w))
    /\ wire es = []
    /\ match o with
       | Normal _ => True
       | Exit s => s = EXIT_FAILURE /\ next_group l = None
       end.
Proof.
  revert acc w; induction fuel as [|fuel IH]; intros acc w;
    cbn [read_reply]; unfold bind at 1;
    destruct (read_fd_effect (buffer_size - String.length acc - 1) w)
      as (o & es & l & -> & Hw & Ho);
    destruct o as [got|s].
  - destruct got as [|c got].
    + exists (Normal acc), es, l. step; auto.
    + exists (Normal (acc ++ String c got)), es, l.
      destruct (ends_line _); step; auto.
  - exists (Exit s), es, l. destruct Ho as (-> & Hn & -> & _). auto.
  - destruct got as [|c got].
    + exists (Normal acc), es, l. step; auto.
    + destruct (ends_line (acc ++ String c got)).
      * exists (Normal (acc ++ String c got)), es, l. step; auto.
      * destruct (IH (acc ++ String c got) (log es (with_incoming l w)))
          as (o' & es' & l' & -> & Hw' & Ho').
        exists o', (es ++ es')%list, l'. autorewrite with world.
        rewrite wire_app, Hw, Hw'. auto.
  - exists (Exit s), es, l. destruct Ho as (-> & Hn & -> & _). auto.
Qed.

(** The fuel is never what ends the loop: with one more turn allowed it
    does the same. *)
Lemma read_reply_fuel (fuel : nat) (acc : string) (w : World) :
  (buffer_size - 1 <= fuel + String.length acc)%nat ->
  read_reply (S fuel) acc w = read_reply fuel acc w.
Proof.
  revert acc w; induction fuel as [|fuel IH]; intros acc w Hfuel.
  - cbn [read_reply]. unfold bind.
    replace (buffer_size - String.length acc - 1)%nat with O
      by (unfold buffer_size in *; lia).
    unfold read_fd. step. reflexivity.
  - change (read_reply (S (S fuel)) acc w)
      with ((got <- read_fd (buffer_size - String.length acc - 1) ;;
             match got with
             | EmptyString => ret acc
             | _ => if ends_line (acc ++ got) then ret (acc ++ got)
                    else read_reply (S fuel) (acc ++ got)
             end) w).
    change (read_reply (S fuel) acc w)
      with ((got <- read_fd (buffer_size - String.length acc - 1) ;;
             match got with
             | EmptyString => ret acc
             | _ => if ends_line (acc ++ got) then ret (acc ++ got)
                    else read_reply fuel (acc ++ got)
             end) w).
    unfold bind.
    destruct (read_fd _ w) as [[got|s] w1]; [| reflexivity].
    destruct got as [|c got]; [reflexivity |].
    destruct (ends_line _); [reflexivity |].
    apply IH. rewrite length_append. simpl. unfold buffer_size in *. lia.
Qed.

(** The loop that [sendcommand] starts has all the turns it can take. *)
Lemma read_reply_enough (extra : nat) (w : World) :
  read_reply (buffer_size - 1 + extra) EmptyString w
  = read_reply (buffer_size - 1) EmptyString w.
Proof.
  induction extra as [|extra IH]; [now rewrite Nat.add_0_r |].
  rewrite Nat.add_succ_r, read_reply_fuel; [exact IH | lia].
Qed.

(** A reply that arrives whole and ends its line is what the loop returns,
    after one [read]. *)
Lemma read_reply_line (fuel : nat) (w : World) (r : string)
    (rest : list string) :
  incoming w = r :: rest ->
  r <> EmptyString ->
  (String.length r <= buffer_size - 1)%nat ->
  ends_line r = true ->
  read_reply fuel EmptyString w
  = (Normal r, log [Read (fd w) (buffer_size - 1) r] (with_incoming rest w)).
Proof.
  intros Hin Hne Hlen Hend.
  assert (Hg : next_group (incoming w) = Some (r, rest)).
  { rewrite Hin. destruct r; [congruence | reflexivity]. }
  destruct fuel; cbn [read_reply]; unfold bind at 1;
    change (buffer_size - String.length EmptyString - 1)%nat with (S 253);
    rewrite (read_fd_group 253 w r rest Hg Hlen);
    (destruct r; [congruence |]);
    change (EmptyString ++ String a r) with (String a r);
    rewrite Hend; reflexivity.
Qed.

(** On a silent line the loop ends the process through [leave]. *)
Lemma read_reply_silent (fuel : nat) (w : World) :
  next_group (incoming w) = None ->
  read_reply fuel EmptyString w
  = (Exit EXIT_FAILURE, log [Stdout ("No response." ++ nl); Close (fd w)] w).
Proof.
  intros Hg.
  destruct fuel; cbn [read_reply]; unfold bind at 1;
    change (buffer_size - String.length EmptyString - 1)%nat with (S 253);
    rewrite (read_fd_silent 253 w Hg); reflexivity.
Qed.

(** ** One exchange *)

Lemma sendcommand_dry (c p : string) (w : World) :
  nosend w = true ->
  sendcommand c p w
  = (Normal EXIT_SUCCESS, log [Stdout (frame_line (c, p))] w).
Proof.
  intros Hdry. unfold sendcommand. step. rewrite Hdry, orb_true_r.
  step. reflexivity.
Qed.

(** What [sendcommand] does up to its reading loop. *)
Lemma sendcommand_send (c p : string) (w : World) :
  nosend w = false ->
  sendcommand c p w
  = match read_reply (buffer_size - 1) EmptyString
            (log (announce (verbose w) (c, p) ++ transmit (fd w) (c, p)) w)
    with
    | (Normal received, w') =>
        (Normal (status_of (classify (chop received))),
         log (report (verbose w) (c, p) (classify (chop received))) w')
    | (Exit s, w') => (Exit s, w')
    end.
Proof.
  intros Hsend. unfold sendcommand. step. rewrite Hsend, orb_false_r.
  unfold announce, transmit.
  destruct (verbose w); step; cbn [fst snd];
    destruct (read_reply _ _ _) as [[received|s] w']; try reflexivity;
    unfold report; destruct (classify (chop received)); step; cbn [fst snd];
    try reflexivity.
  now rewrite <- (log_nil w') at 1; autorewrite with world.
Qed.

Lemma sendcommand_reply (c p : string) (w : World) (r : string)
    (rest : list string) :
  nosend w = false ->
  incoming w = r :: rest ->
  whole_reply r ->
  sendcommand c p w
  = (Normal (status_of (classify (chop r))),
     log (announce (verbose w) (c, p) ++ transmit (fd w) (c, p)
          ++ [Read (fd w) (buffer_size - 1) r]
          ++ report (verbose w) (c, p) (classify (chop r)))
         (with_incoming rest w)).
Proof.
  intros Hsend Hin (Hne & Hlen & Hend).
  rewrite sendcommand_send by assumption.
  rewrite (read_reply_line _ _ r rest) by assumption.
  autorewrite with world. rewrite <- !app_assoc. reflexivity.
Qed.

Lemma sendcommand_silent (c p : string) (w : World) :
  nosend w = false ->
  next_group (incoming w) = None ->
  sendcommand c p w
  = (Exit EXIT_FAILURE,
     log (announce (verbose w) (c, p) ++ transmit (fd w) (c, p)
          ++ [Stdout ("No response." ++ nl); Close (fd w)]) w).
Proof.
  intros Hsend Hg.
  rewrite sendcommand_send by assumption.
  rewrite read_reply_silent by assumption.
  autorewrite with world. rewrite <- !app_assoc. reflexivity.
Qed.

(** Whatever the line delivers, [sendcommand] writes its frame first and
    nothing after it; it returns, or the process ends with failure on a
    silent line. *)
Lemma sendcommand_effect (c p : string) (w : World) :
  nosend w = false ->
  exists o es l,
    sendcommand c p w
    = (o, log (announce (verbose w) (c, p) ++ transmit (fd w) (c, p) ++ es)
              (with_incoming l w))
    /\ wire es = []
    /\ match o with
       | Normal _ => True
       | Exit s => s = EXIT_FAILURE /\ next_group l = None
       end.
Proof.
  intros Hsend. rewrite sendcommand_send by assumption.
  destruct (read_reply_effect (buffer_size - 1) EmptyString
              (log (announce (verbose w) (c, p) ++ transmit (fd w) (c, p)) w))
    as (o & es & l & -> & Hw & Ho).
  destruct o as [received|s].
  - exists (Normal (status_of (classify (chop received)))),
      (es ++ report (verbose w) (c, p) (classify (chop received)))%list, l.
    autorewrite with world. rewrite <- !app_assoc.
    split; [reflexivity |]. split; [| exact I].
    rewrite wire_app, Hw.
    destruct (classify _); [destruct (verbose w) | |]; reflexivity.
  - exists (Exit s), es, l.
    autorewrite with world. rewrite <- !app_assoc. auto.
Qed.

(** ** The frames of a command, one exchange after the other *)

Lemma send_frames_dry (fs : list (string * string)) (w : World) :
  nosend w = true ->
  send_frames fs w
  = (Normal None, log (map (fun f => Stdout (frame_line f)) fs) w).
Proof.
  revert w; induction fs as [|[c p] fs IH]; intros w Hdry; cbn [send_frames map].
  - unfold break. step. now rewrite <- (log_nil w) at 1; autorewrite with world.
  - unfold bind. rewrite sendcommand_dry by assumption.
    rewrite IH by assumption. autorewrite with world. reflexivity.
Qed.

(** With a whole reply to every frame, whatever the replies say, all the
    frames are sent and the [switch] is left through [break]. *)
Lemma send_frames_replies (fs : list (string * string)) (rs rest : list string)
    (w : World) :
  nosend w = false ->
  incoming w = (rs ++ rest)%list ->
  List.length rs = List.length fs ->
  Forall whole_reply rs ->
  send_frames fs w
  = (Normal None,
     log (exchanges (verbose w) (fd w) fs rs) (with_incoming rest w)).
Proof.
  revert rs w; induction fs as [|[c p] fs IH]; intros rs w Hsend Hin Hlen Hrs.
  - destruct rs; [| discriminate]. simpl in Hin. cbn [send_frames exchanges].
    unfold break. step. rewrite <- Hin.
    now rewrite <- (log_nil w) at 1; autorewrite with world.
  - destruct rs as [|r rs]; [discriminate |].
    inversion Hrs as [|? ? Hr Hrs']; subst.
    cbn [send_frames exchanges]. unfold bind.
    rewrite (sendcommand_reply c p w r (rs ++ rest)) by assumption.
    rewrite (IH rs) by (autorewrite with world; auto).
    autorewrite with world. unfold exchange. rewrite <- !app_assoc.
    reflexivity.
Qed.

(** Whatever the line delivers: the frames go out in order, each one
    whole; they all go out if the [switch] is left through [break], and
    the process ends with failure otherwise, on a line gone silent. *)
Lemma send_frames_effect (fs : list (string * string)) (w : World) :
  nosend w = false ->
  exists o es l,
    send_frames fs w = (o, log es (with_incoming l w))
    /\ match o with
       | Normal r => r = None /\ wire es = flat_map frame_writes fs
       | Exit s =>
           s = EXIT_FAILURE /\ next_group l = None
           /\ exists n, (n < List.length fs)%nat
                        /\ wire es = flat_map frame_writes (firstn (S n) fs)
       end.
Proof.
  revert w; induction fs as [|[c p] fs IH]; intros w Hsend; cbn [send_frames].
  - exists (Normal None), [], (incoming w). unfold break. step.
    rewrite log_nil. auto.
  - unfold bind.
    destruct (sendcommand_effect c p w Hsend) as (o & es & l & -> & Hw & Ho).
    assert (Hwire : wire (announce (verbose w) (c, p)
                          ++ transmit (fd w) (c, p) ++ es)
                    = frame_writes (c, p)).
    { rewrite !wire_app, Hw.
      unfold announce; destruct (verbose w); reflexivity. }
    destruct o as [st|s].
    + destruct (IH (log (announce (verbose w) (c, p)
                         ++ transmit (fd w) (c, p) ++ es)
                        (with_incoming l w)))
        as (o' & es' & l' & -> & Ho'); [autorewrite with world; auto |].
      eexists o', _, l'. autorewrite with world.
      split; [reflexivity |].
      destruct o' as [r|s'].
      * destruct Ho' as (-> & Hw'). split; [reflexivity |].
        rewrite wire_app, Hwire, Hw'. reflexivity.
      * destruct Ho' as (-> & Hn & n & Hlt & Hw').
        repeat split; auto. exists (S n). split; [simpl; lia |].
        rewrite wire_app, Hwire, Hw'. reflexivity.
    + destruct Ho as (-> & Hn).
      eexists (Exit EXIT_FAILURE), _, l. split; [reflexivity |].
      repeat split; auto. exists O. split; [simpl; lia |].
      rewrite Hwire. cbn [firstn flat_map]. now rewrite app_nil_r.
Qed.

(** ** The whole run *)

Lemma perform_complaint (progname oparg arg : string) (p : plan) (w : World) :
  (forall fs, p <> Frames fs) ->
  perform progname oparg arg p w
  = (Normal (Some EXIT_FAILURE),
     log [Stderr (complaint progname oparg arg p)] w).
Proof.
  intros Hp. destruct p; try reflexivity. now elim (Hp frames).
Qed.

Section Run.

Variables progname oparg arg arg2 port : string.

Lemma main_dry (w : World) :
  nosend w = true ->
  main progname oparg arg arg2 port w
  = finish (perform progname oparg arg (encode oparg arg arg2)
              (log (hello (verbose w) port) w)).
Proof.
  intros Hdry. unfold main. rewrite dispatch_encode. step.
  rewrite Hdry. unfold hello, finish.
  destruct (verbose w); step; cbn [negb]; cbv beta iota.
  - destruct (perform _ _ _ _ _) as [[[st|]|s] w']; reflexivity.
  - rewrite <- (log_nil w) at 1. autorewrite with world.
    destruct (perform _ _ _ _ _) as [[[st|]|s] w']; reflexivity.
Qed.

Lemma main_port_fails (w : World) :
  nosend w = false ->
  open_result w = -1 ->
  main progname oparg arg arg2 port w
  = (Exit EXIT_FAILURE,
     log (hello (verbose w) port
          ++ [Open port (-1);
              Stderr ("openport(" ++ port ++ "): " ++ open_error w ++ nl)])
         (with_fd (-1) w)).
Proof.
  intros Hsend Hopen. unfold main, openport. step.
  rewrite Hsend. unfold hello.
  destruct (verbose w); cbn [negb]; cbv beta iota; autorewrite with world;
    rewrite Hopen; cbn [Z.eqb Pos.eqb Z.opp]; cbv beta iota;
    autorewrite with world.
  - reflexivity.
  - rewrite <- (log_nil w) at 1. autorewrite with world. reflexivity.
Qed.

Lemma main_port_ok (w : World) :
  nosend w = false ->
  open_result w <> -1 ->
  main progname oparg arg arg2 port w
  = finish (perform progname oparg arg (encode oparg arg arg2)
              (log (hello (verbose w) port
                    ++ [Open port (open_result w);
                        Configure (open_result w)])
                   (with_fd (open_result w) w))).
Proof.
  intros Hsend Hopen. unfold main, openport. rewrite dispatch_encode. step.
  rewrite Hsend. apply Z.eqb_neq in Hopen.
  unfold hello, finish.
  destruct (verbose w); cbn [negb]; cbv beta iota; autorewrite with world;
    rewrite Hopen; cbv beta iota; autorewrite with world.
  - destruct (perform _ _ _ _ _) as [[[st|]|s] w']; reflexivity.
  - rewrite <- (log_nil w) at 1. autorewrite with world.
    destruct (perform _ _ _ _ _) as [[[st|]|s] w']; reflexivity.
Qed.

End Run.

(** ** Numbers and their digits *)

Lemma to_int_small (z : Z) : - 2^31 <= z < 2^31 -> to_int z = z.
Proof. intros H. unfold to_int. rewrite Z.mod_small; lia. Qed.

Lemma digit_char_spec (d : Z) :
  0 <= d <= 9 ->
  isdigit (digit_char d) = true /\ digit_val (digit_char d) = d
  /\ isspace (digit_char d) = false
  /\ Ascii.eqb (digit_char d) "-" = false
  /\ Ascii.eqb (digit_char d) "+" = false.
Proof.
  intros H.
  assert (Hd : d = 0 \/ d = 1 \/ d = 2 \/ d = 3 \/ d = 4 \/ d = 5 \/ d = 6
               \/ d = 7 \/ d = 8 \/ d = 9) by lia.
  repeat (destruct Hd as [-> | Hd]); try subst d; repeat split; reflexivity.
Qed.

(** The digits of [n] read back as [n]. *)
Lemma scan_digits_of (fuel : nat) :
  forall n acc, 0 <= n < 10 ^ Z.of_nat (S fuel) ->
    exists k, 0 < k
      /\ forall a, scan_digits a (digits_of fuel n acc)
                   = scan_digits (a * 10 ^ k + n) acc.
Proof.
  induction fuel as [|fuel IH]; intros n acc Hn.
  - exists 1. split; [lia |]. intros a. cbn [digits_of scan_digits].
    change (10 ^ Z.of_nat 1) with 10 in Hn.
    rewrite Z.mod_small by lia.
    destruct (digit_char_spec n) as (-> & -> & _); [lia |].
    f_equal; lia.
  - cbn [digits_of]. destruct (Z.eqb_spec (n / 10) 0) as [Hq|Hq].
    + exists 1. split; [lia |]. intros a. cbn [scan_digits].
      assert (n < 10) by (pose proof (Z.div_small_iff n 10); lia).
      rewrite Z.mod_small by lia.
      destruct (digit_char_spec n) as (-> & -> & _); [lia |].
      f_equal; lia.
    + assert (Hdiv : 0 <= n / 10 < 10 ^ Z.of_nat (S fuel)).
      { split; [apply Z.div_pos; lia |].
        apply Z.div_lt_upper_bound; [lia |].
        rewrite <- Z.pow_succ_r by lia. rewrite <- Nat2Z.inj_succ. lia. }
      destruct (IH (n / 10) (String (digit_char (n mod 10)) acc) Hdiv)
        as (k & Hk & Hscan).
      exists (k + 1). split; [lia |]. intros a. rewrite Hscan.
      cbn [scan_digits].
      destruct (digit_char_spec (n mod 10)) as (-> & -> & _);
        [pose proof (Z.mod_pos_bound n 10); lia |].
      f_equal. rewrite Z.pow_add_r by lia.
      pose proof (Z.div_mod n 10). lia.
Qed.

(** Digits come out of [digits_of], and a digit is in front. *)
Lemma digits_of_head (fuel : nat) :
  forall n acc, 0 <= n ->
    exists c rest, digits_of fuel n acc = String c rest
                   /\ isdigit c = true /\ isspace c = false
                   /\ Ascii.eqb c "-" = false /\ Ascii.eqb c "+" = false.
Proof.
  induction fuel as [|fuel IH]; intros n acc Hn; cbn [digits_of].
  - exists (digit_char (n mod 10)), acc.
    destruct (digit_char_spec (n mod 10)) as (? & ? & ? & ? & ?);
      [pose proof (Z.mod_pos_bound n 10); lia | auto].
  - destruct (n / 10 =? 0).
    + exists (digit_char (n mod 10)), acc.
      destruct (digit_char_spec (n mod 10)) as (? & ? & ? & ? & ?);
        [pose proof (Z.mod_pos_bound n 10); lia | auto].
    + apply IH. apply Z.div_pos; lia.
Qed.

Lemma length_digits_of (fuel : nat) :
  forall n acc k, 0 <= n < 10 ^ Z.of_nat (S k) ->
    (String.length (digits_of fuel n acc) <= S k + String.length acc)%nat.
Proof.
  induction fuel as [|fuel IH]; intros n acc k Hn; cbn [digits_of].
  - simpl. lia.
  - destruct (Z.eqb_spec (n / 10) 0) as [Hq|Hq]; [simpl; lia |].
    destruct k as [|k].
    + change (10 ^ Z.of_nat 1) with 10 in Hn.
      rewrite Z.div_small in Hq by lia. congruence.
    + etransitivity; [apply (IH _ _ k) |]; [| simpl; lia].
      split; [apply Z.div_pos; lia |].
      apply Z.div_lt_upper_bound; [lia |].
      rewrite <- Z.pow_succ_r by lia. rewrite <- Nat2Z.inj_succ. lia.
Qed.

Lemma decimal_fuel (n : Z) :
  0 <= n -> n < 10 ^ Z.of_nat (S (Z.to_nat (Z.log2 n))).
Proof.
  intros Hn. rewrite Nat2Z.inj_succ, Z2Nat.id by apply Z.log2_nonneg.
  destruct (Z.eq_dec n 0) as [->|Hz]; [reflexivity |].
  pose proof (Z.log2_spec n ltac:(lia)) as [_ Hlt].
  eapply Z.lt_le_trans; [exact Hlt |].
  apply Z.pow_le_mono_l. lia.
Qed.

(** [atoi] reads a decimal numeral back. *)
Lemma atoi_decimal (n : Z) : 0 <= n < 2^31 -> atoi (decimal n) = n.
Proof.
  intros Hn. unfold atoi, scan_int, decimal.
  destruct (digits_of_head (Z.to_nat (Z.log2 n)) n EmptyString)
    as (c & rest & Heq & Hd & Hs & Hm & Hp); [lia |].
  destruct (scan_digits_of (Z.to_nat (Z.log2 n)) n EmptyString)
    as (k & Hk & Hscan); [split; [lia | apply decimal_fuel; lia] |].
  specialize (Hscan 0). rewrite Heq in *.
  cbn [skip_space]. rewrite Hs. unfold scan_signed. rewrite Hm, Hp.
  unfold scan_unsigned. rewrite Hd, Hscan. cbn [scan_digits].
  rewrite Z.mul_0_l, Z.add_0_l. apply to_int_small. lia.
Qed.

Lemma length_decimal (n : Z) (k : nat) :
  0 <= n < 10 ^ Z.of_nat (S k) -> (String.length (decimal n) <= S k)%nat.
Proof.
  intros Hn. unfold decimal.
  pose proof (length_digits_of (Z.to_nat (Z.log2 n)) n EmptyString k Hn).
  simpl in *. lia.
Qed.

(** [%04d] prints a number of at most four digits on four characters. *)
Lemma length_fmt_04d (n : Z) :
  0 <= n <= 9999 -> String.length (fmt_0d 4 n) = 4%nat.
Proof.
  intros Hn. unfold fmt_0d.
  destruct (Z.ltb_spec n 0); [lia |].
  rewrite length_append, length_repeat_char, Z.abs_eq by lia.
  pose proof (length_decimal n 3 ltac:(change (10 ^ Z.of_nat 4) with 10000; lia)).
  lia.
Qed.

(** ** Validation *)

Lemma validates_false (oparg arg arg2 : string) :
  validates oparg arg arg2 = false ->
  forall fs, encode oparg arg arg2 <> Frames fs.
Proof. unfold validates. intros H fs Hfs. rewrite Hfs in H. discriminate. Qed.

Lemma validates_true (oparg arg arg2 : string) :
  validates oparg arg arg2 = true ->
  exists fs, encode oparg arg arg2 = Frames fs.
Proof.
  unfold validates. destruct (encode oparg arg arg2); try discriminate. eauto.
Qed.

Lemma checkcmd_none (oparg arg arg2 : string) :
  checkcmd oparg = CMD_NONE -> validates oparg arg arg2 = false.
Proof. unfold validates, encode. now intros ->. Qed.

(** A name that no entry of the table has is no command. *)
Lemma checkcmd_unknown (oparg : string) :
  ~ In oparg (map cmd cmdtab) -> checkcmd oparg = CMD_NONE.
Proof.
  unfold checkcmd. generalize cmdtab as tab.
  induction tab as [|e tab IH]; intros Hin; cbn [checkcmd_from];
    [reflexivity |].
  unfold streq. destruct (String.eqb_spec (cmd e) oparg) as [Heq|Hne].
  - elim Hin. left. exact Heq.
  - apply IH. intros H. apply Hin. right. exact H.
Qed.

Lemma no_io_lines (fs : list (string * string)) :
  no_io (map (fun f => Stdout (frame_line f)) fs) = true.
Proof. induction fs; simpl; auto. Qed.

Lemma no_io_hello (talk : bool) (port : string) :
  no_io (hello talk port) = true.
Proof. destruct talk; reflexivity. Qed.

Lemma last_app_one {A} (l : list A) (x d : A) : last (l ++ [x]) d = x.
Proof.
  induction l as [|y l IH]; simpl; [reflexivity |].
  rewrite IH. destruct l; reflexivity.
Qed.

(** ** Dry runs *)

(** C8. In a dry run (option -n, [nosend] set) [sendcommand] prints the
    frame it is given, opcode and parameter, writes nothing and returns
    success; and a whole run of [main] writes nothing to any descriptor
    and reads nothing: it does not open the port, it prints one line for
    each frame of the command and ends with success, or prints the
    complaint of a failed validation and ends with failure. *)
Theorem dry_run_never_writes :
  forall progname oparg arg arg2 port talk ores oerr line,
    let r := main progname oparg arg arg2 port
               (initial true talk ores oerr line) in
    (forall c p d tr,
        sendcommand c p (mkWorld d true talk ores oerr line tr)
        = (Normal EXIT_SUCCESS,
           mkWorld d true talk ores oerr line
                   (tr ++ [Stdout (frame_line (c, p))])))
    /\ no_io (final_trace r) = true
    /\ wire (final_trace r) = []
    /\ incoming (snd r) = line
    /\ final_trace r
       = (hello talk port
          ++ match encode oparg arg arg2 with
             | Frames fs =>
                 map (fun f => Stdout (frame_line f)) fs ++ [Close 0]
             | p => [Stderr (complaint progname oparg arg p)]
             end)%list
    /\ exit_status r
       = if validates oparg arg arg2 then EXIT_SUCCESS else EXIT_FAILURE.
Proof.
  intros progname oparg arg arg2 port talk ores oerr line r.
  split; [intros c p d tr; now rewrite sendcommand_dry |].
  assert (Htrace :
    final_trace r
    = (hello talk port
       ++ match encode oparg arg arg2 with
          | Frames fs => map (fun f => Stdout (frame_line f)) fs ++ [Close 0]
          | p => [Stderr (complaint progname oparg arg p)]
          end)%list
    /\ incoming (snd r) = line
    /\ exit_status r
       = if validates oparg arg arg2 then EXIT_SUCCESS else EXIT_FAILURE).
  { subst r. rewrite main_dry by reflexivity. unfold validates.
    destruct (encode oparg arg arg2) as [| | |fs] eqn:He;
      try (rewrite perform_complaint by discriminate;
           repeat split; reflexivity).
    cbn [perform]. rewrite send_frames_dry by reflexivity.
    unfold finish, final_trace, exit_status. cbn [fst snd].
    autorewrite with world. cbn [initial trace incoming app].
    rewrite <- app_assoc. repeat split; reflexivity. }
  destruct Htrace as (Htr & Hin & Hst).
  assert (Hio : no_io (final_trace r) = true).
  { rewrite Htr, no_io_app, no_io_hello.
    destruct (encode oparg arg arg2); try reflexivity.
    now rewrite no_io_app, no_io_lines. }
  repeat split; auto using no_io_wire.
Qed.

(** ** Failed validation *)

(** A run whose validation fails: the complaint is the last thing that
    happens, unless [openport] has ended the process before. *)
Lemma main_rejects (progname oparg arg arg2 port : string) (dry talk : bool)
    (ores : Z) (oerr : string) (line : list string) :
  validates oparg arg arg2 = false ->
  let r := main progname oparg arg arg2 port
             (initial dry talk ores oerr line) in
  exit_status r = EXIT_FAILURE
  /\ incoming (snd r) = line
  /\ exists tr msg,
      final_trace r = (tr ++ [Stderr msg])%list
      /\ no_io tr = true
      /\ msg = if (negb dry && (ores =? -1))%bool
               then "openport(" ++ port ++ "): " ++ oerr ++ nl
               else complaint progname oparg arg (encode oparg arg arg2).
Proof.
  intros Hv r. pose proof (validates_false _ _ _ Hv) as Hp.
  subst r. destruct dry.
  - rewrite main_dry by reflexivity.
    rewrite perform_complaint by assumption.
    repeat split. exists (hello talk port). eexists.
    split; [reflexivity |]. split; [apply no_io_hello | reflexivity].
  - destruct (Z.eqb_spec ores (-1)) as [->|Hopen].
    + rewrite main_port_fails by reflexivity.
      repeat split.
      exists (hello talk port ++ [Open port (-1)])%list. eexists.
      unfold final_trace. cbn [snd]. autorewrite with world.
      cbn [initial trace verbose open_error app].
      rewrite <- !app_assoc. split; [reflexivity |].
      split; [| reflexivity].
      rewrite no_io_app, no_io_hello. reflexivity.
    + rewrite main_port_ok by (try reflexivity; exact Hopen).
      rewrite perform_complaint by assumption.
      repeat split.
      exists (hello talk port ++ [Open port ores; Configure ores])%list.
      eexists.
      unfold finish, final_trace. cbn [snd]. autorewrite with world.
      cbn [initial trace verbose open_result app].
      rewrite <- !app_assoc. split; [reflexivity |].
      split; [| reflexivity].
      rewrite no_io_app, no_io_hello. reflexivity.
Qed.

Lemma main_rejects_wire (progname oparg arg arg2 port : string)
    (dry talk : bool) (ores : Z) (oerr : string) (line : list string) :
  validates oparg arg arg2 = false ->
  let r := main progname oparg arg arg2 port
             (initial dry talk ores oerr line) in
  wire (final_trace r) = [] /\ exit_status r = EXIT_FAILURE.
Proof.
  intros Hv r.
  destruct (main_rejects progname oparg arg arg2 port dry talk ores oerr line
              Hv) as (Hst & _ & tr & msg & Htr & Hio & _).
  fold r in Hst, Htr. split; [| exact Hst].
  rewrite Htr, wire_app, (no_io_wire _ Hio). reflexivity.
Qed.

(** C9. When the command name is not in the table, or the argument fails
    the validation of the command, the process ends with failure status
    after an error message, and no [write], no [read] and no [alarm] has
    been called: the last thing it did was to print the complaint on
    stderr (or the message of [openport], when the port could not be
    opened). *)
Theorem rejected_before_io :
  forall progname oparg arg arg2 port dry talk ores oerr line,
    ~ In oparg (map cmd cmdtab) \/ validates oparg arg arg2 = false ->
    let r := main progname oparg arg arg2 port
               (initial dry talk ores oerr line) in
    exit_status r = EXIT_FAILURE
    /\ no_io (final_trace r) = true
    /\ wire (final_trace r) = []
    /\ incoming (snd r) = line
    /\ last (final_trace r) (Close 0)
       = Stderr (if (negb dry && (ores =? -1))%bool
                 then "openport(" ++ port ++ "): " ++ oerr ++ nl
                 else complaint progname oparg arg (encode oparg arg arg2)).
Proof.
  intros progname oparg arg arg2 port dry talk ores oerr line Hrej r.
  assert (Hv : validates oparg arg arg2 = false).
  { destruct Hrej; auto using checkcmd_none, checkcmd_unknown. }
  destruct (main_rejects progname oparg arg arg2 port dry talk ores oerr line
              Hv) as (Hst & Hin & tr & msg & Htr & Hio & Hmsg).
  fold r in Hst, Hin, Htr.
  assert (Hio' : no_io (final_trace r) = true).
  { rewrite Htr, no_io_app, Hio. reflexivity. }
  repeat split; auto using no_io_wire.
  rewrite Htr, last_app_one, Hmsg. reflexivity.
Qed.

Lemma rejected_before_io_witness :
  validates "vol" "61" EmptyString = false
  /\ exit_status (main "aquosctl" "vol" "61" EmptyString "/dev/ttyS0"
                    (initial false false 3 EmptyString ["OK" ++ cr]))
     = EXIT_FAILURE.
Proof.
  split; [reflexivity |].
  apply (rejected_before_io "aquosctl" "vol" "61" EmptyString "/dev/ttyS0"
           false false 3 EmptyString ["OK" ++ cr]).
  right. reflexivity.
Defined.

(** ** The exit status *)

Lemma main_sends (progname oparg arg arg2 port : string)
    (fs : list (string * string)) (w : World) :
  encode oparg arg arg2 = Frames fs ->
  nosend w = false ->
  open_result w <> -1 ->
  main progname oparg arg arg2 port w
  = finish (send_frames fs
              (log (hello (verbose w) port
                    ++ [Open port (open_result w); Configure (open_result w)])
                   (with_fd (open_result w) w))).
Proof.
  intros He Hsend Hopen. rewrite main_port_ok by assumption.
  rewrite He. reflexivity.
Qed.

(** The run in which every frame gets a whole reply. *)
Lemma main_replies (progname oparg arg arg2 port : string) (talk : bool)
    (ores : Z) (oerr : string) (fs : list (string * string))
    (rs rest : list string) :
  encode oparg arg arg2 = Frames fs ->
  ores <> -1 ->
  List.length rs = List.length fs ->
  Forall whole_reply rs ->
  main progname oparg arg arg2 port
       (initial false talk ores oerr (rs ++ rest))
  = (Normal EXIT_SUCCESS,
     mkWorld ores false talk ores oerr rest
       (hello talk port ++ [Open port ores; Configure ores]
        ++ exchanges talk ores fs rs ++ [Close ores])).
Proof.
  intros He Hopen Hlen Hrs.
  rewrite (main_sends _ _ _ _ _ fs) by (try reflexivity; assumption).
  cbn [initial verbose open_result].
  rewrite (send_frames_replies fs rs rest) by (auto; reflexivity).
  cbn [finish]. autorewrite with world.
  unfold log, with_incoming, with_fd. cbn. rewrite <- !app_assoc.
  reflexivity.
Qed.

(** C1, as the program has it.  [main] does not use what [sendcommand]
    returns.  A run that passes validation and opens the port ends with
    success status whenever [main] returns, and it returns when every
    frame gets a whole reply, whatever the replies are classified as; it
    ends with failure status when an exchange gets no reply and the alarm
    ends the process. *)
Theorem exit_status_ignores_replies :
  forall progname oparg arg arg2 port talk ores oerr line,
    validates oparg arg arg2 = true ->
    ores <> -1 ->
    let r := main progname oparg arg arg2 port
               (initial false talk ores oerr line) in
    match fst r with
    | Normal status => status = EXIT_SUCCESS
    | Exit status =>
        status = EXIT_FAILURE /\ next_group (incoming (snd r)) = None
    end
    /\ forall fs rs rest,
        encode oparg arg arg2 = Frames fs ->
        line = (rs ++ rest)%list ->
        List.length rs = List.length fs ->
        Forall whole_reply rs ->
        r = (Normal EXIT_SUCCESS,
             mkWorld ores false talk ores oerr rest
               (hello talk port ++ [Open port ores; Configure ores]
                ++ exchanges talk ores fs rs ++ [Close ores])).
Proof.
  intros progname oparg arg arg2 port talk ores oerr line Hv Hopen r.
  destruct (validates_true _ _ _ Hv) as (fs & He).
  subst r. split.
  - rewrite (main_sends _ _ _ _ _ fs) by (try reflexivity; assumption).
    cbn [initial verbose open_result].
    match goal with |- context [send_frames fs ?w] =>
      destruct (send_frames_effect fs w) as (o & es & l & -> & Ho)
    end; [reflexivity |].
    destruct o as [st|s]; cbn [finish fst snd].
    + destruct Ho as (-> & _). reflexivity.
    + destruct Ho as (-> & Hn & _). split; [reflexivity | exact Hn].
  - intros fs' rs rest He' -> Hlen Hrs.
    now apply main_replies.
Qed.

Lemma exit_status_ignores_replies_witness :
  validates "power" "on" EmptyString = true
  /\ 3 <> -1
  /\ fst (main "aquosctl" "power" "on" EmptyString "/dev/ttyS0"
            (initial false false 3 EmptyString ["ERR" ++ cr]))
     = Normal EXIT_SUCCESS.
Proof.
  split; [reflexivity |]. split; [discriminate |].
  destruct (exit_status_ignores_replies "aquosctl" "power" "on" EmptyString
              "/dev/ttyS0" false 3 EmptyString ["ERR" ++ cr]
              eq_refl ltac:(discriminate)) as [_ H].
  rewrite (H [("POWR", "1   ")] ["ERR" ++ cr] []); try reflexivity.
  repeat constructor; discriminate.
Defined.

(** C1 fails on the code: the television answers ERR to [power on], the
    reply is classified as a protocol error and reported, and the process
    ends with success status. *)
Lemma exit_status_counterexample :
  let r := main "aquosctl" "power" "on" EmptyString "/dev/ttyS0"
             (initial false false 3 EmptyString ["ERR" ++ cr]) in
  classify (chop ("ERR" ++ cr)) = ProtocolError
  /\ final_trace r
     = [Open "/dev/ttyS0" 3; Configure 3;
        Write 3 "POWR"; Write 3 "1   "; Write 3 cr; Alarm 1;
        Read 3 254 ("ERR" ++ cr);
        Stderr ("Error: command/param 'POWR1   '" ++ nl);
        Close 3]
  /\ exit_status r = EXIT_SUCCESS
  /\ exit_status r <> EXIT_FAILURE.
Proof. repeat split; try reflexivity. discriminate. Qed.

(** ** The two frames of dcabl1 *)

Lemma encode_dcabl1 (arg arg2 : string) (fs : list (string * string)) :
  encode "dcabl1" arg arg2 = Frames fs ->
  exists n chan subchan,
    sscanf_d_dot_d arg 0 0 = (n, chan, subchan)
    /\ 0 < n /\ chan <= 999 /\ subchan <= 999
    /\ fs = [("DC2U", fmt_0d 3 chan ++ " "); ("DC2L", fmt_0d 3 subchan ++ " ")].
Proof.
  unfold encode. change (checkcmd "dcabl1") with CMD_DCABL1. cbv beta iota.
  destruct (sscanf_d_dot_d arg 0 0) as [[n chan] subchan].
  destruct (Z.ltb_spec 0 n); cbn [andb]; [| discriminate].
  destruct (Z.leb_spec chan 999); cbn [andb]; [| discriminate].
  destruct (Z.leb_spec subchan 999); [| discriminate].
  intros Hfs; inversion Hfs. exists n, chan, subchan. auto.
Qed.

(** C2, as the program has it.  The run of a valid dcabl1 command sends
    the DC2U frame, and after any whole reply to it, whatever the reply is
    classified as, it sends the DC2L frame; the DC2L frame is not sent
    when no reply to the first frame arrives and the alarm ends the
    process. *)
Theorem dcabl1_second_frame :
  forall progname arg arg2 port talk ores oerr line,
    validates "dcabl1" arg arg2 = true ->
    ores <> -1 ->
    let r := main progname "dcabl1" arg arg2 port
               (initial false talk ores oerr line) in
    exists p1 p2,
      encode "dcabl1" arg arg2 = Frames [("DC2U", p1); ("DC2L", p2)]
      /\ (forall r1 rest,
             line = r1 :: rest ->
             whole_reply r1 ->
             exists tr,
               final_trace r
               = (hello talk port ++ [Open port ores; Configure ores]
                  ++ exchange talk ores ("DC2U", p1) r1
                  ++ announce talk ("DC2L", p2)
                  ++ transmit ores ("DC2L", p2) ++ tr)%list)
      /\ (next_group line = None ->
          fst r = Exit EXIT_FAILURE
          /\ wire (final_trace r) = ["DC2U"; p1; cr]).
Proof.
  intros progname arg arg2 port talk ores oerr line Hv Hopen r.
  destruct (validates_true _ _ _ Hv) as (fs & He).
  destruct (encode_dcabl1 _ _ _ He) as (n & chan & subchan & _ & _ & _ & _ & ->).
  eexists _, _. split; [exact He |].
  subst r. rewrite (main_sends _ _ _ _ _ _ _ He) by (try reflexivity; assumption).
  cbn [initial verbose open_result send_frames].
  split.
  - intros r1 rest -> Hr1. unfold bind at 1.
    erewrite sendcommand_reply; [| reflexivity | reflexivity | assumption].
    autorewrite with world. unfold bind at 1.
    match goal with |- context [sendcommand ?c ?p ?w] =>
      destruct (sendcommand_effect c p w) as (o & es & l & -> & _ & _)
    end; [reflexivity |].
    autorewrite with world. cbn [fd verbose].
    destruct o as [st|s].
    + exists (es ++ [Close ores])%list.
      unfold break, ret, finish, final_trace. cbn [snd].
      autorewrite with world. cbn [trace app]. unfold exchange.
      rewrite <- !app_assoc. reflexivity.
    + exists es. unfold finish, final_trace. cbn [snd].
      autorewrite with world. cbn [trace app]. unfold exchange.
      rewrite <- !app_assoc. reflexivity.
  - intros Hsilent. unfold bind.
    rewrite sendcommand_silent by (try reflexivity; exact Hsilent).
    unfold finish, final_trace. cbn [fst snd]. split; [reflexivity |].
    autorewrite with world. cbn [trace app fd verbose].
    rewrite !wire_app. unfold hello, announce. destruct talk; reflexivity.
Qed.

Lemma dcabl1_second_frame_witness :
  validates "dcabl1" "5.12" EmptyString = true
  /\ 3 <> -1
  /\ exists p1 p2,
      encode "dcabl1" "5.12" EmptyString = Frames [("DC2U", p1); ("DC2L", p2)].
Proof.
  split; [reflexivity |]. split; [discriminate |].
  destruct (dcabl1_second_frame "aquosctl" "5.12" EmptyString "/dev/ttyS0"
              false 3 EmptyString ["ERR" ++ cr; "OK" ++ cr]
              eq_refl ltac:(discriminate)) as (p1 & p2 & He & _).
  exists p1, p2. exact He.
Defined.

(** C2 fails on the code: the television answers ERR to the DC2U frame of
    [dcabl1 5.12], and the DC2L frame is written all the same. *)
Lemma dcabl1_counterexample :
  let r := main "aquosctl" "dcabl1" "5.12" EmptyString "/dev/ttyS0"
             (initial false false 3 EmptyString ["ERR" ++ cr; "OK" ++ cr]) in
  classify (chop ("ERR" ++ cr)) = ProtocolError
  /\ final_trace r
     = [Open "/dev/ttyS0" 3; Configure 3;
        Write 3 "DC2U"; Write 3 "005 "; Write 3 cr; Alarm 1;
        Read 3 254 ("ERR" ++ cr);
        Stderr ("Error: command/param 'DC2U005 '" ++ nl);
        Write 3 "DC2L"; Write 3 "012 "; Write 3 cr; Alarm 1;
        Read 3 254 ("OK" ++ cr);
        Close 3]
  /\ In (Write 3 "DC2L") (final_trace r).
Proof.
  repeat split; try reflexivity.
  cbv. do 8 right. left. reflexivity.
Qed.

(** ** The classification of a reply *)








(** ** What goes on the line *)

Lemma wire_hello (talk : bool) (port : string) : wire (hello talk port) = [].
Proof. destruct talk; reflexivity. Qed.

(** A run that passes validation and opens the port writes the frames of
    the command, in order and each one whole: the first one always, and
    all of them when [main] returns. *)
Lemma main_wire (progname oparg arg arg2 port : string) (talk : bool)
    (ores : Z) (oerr : string) (line : list string)
    (fs : list (string * string)) :
  encode oparg arg arg2 = Frames fs ->
  ores <> -1 ->
  let r := main progname oparg arg arg2 port
             (initial false talk ores oerr line) in
  exists n,
    wire (final_trace r) = flat_map frame_writes (firstn n fs)
    /\ (n <= List.length fs)%nat
    /\ (fs <> [] -> (1 <= n)%nat)
    /\ (forall status, fst r = Normal status -> n = List.length fs).
Proof.
  intros He Hopen r. subst r.
  rewrite (main_sends _ _ _ _ _ fs) by (try reflexivity; assumption).
  cbn [initial verbose open_result].
  match goal with |- context [send_frames fs ?w] =>
    destruct (send_frames_effect fs w) as (o & es & l & -> & Ho)
  end; [reflexivity |].
  unfold final_trace. destruct o as [st|s]; cbn [finish fst snd].
  - destruct Ho as (-> & Hw). exists (List.length fs).
    autorewrite with world. cbn [fst snd]. autorewrite with world.
    cbn [initial trace app].
    rewrite !wire_app, wire_hello, Hw, firstn_all. cbn [wire app].
    rewrite app_nil_r. repeat split; auto.
    intros Hne. destruct fs; [congruence | simpl; lia].
  - destruct Ho as (-> & _ & n & Hlt & Hw). exists (S n).
    autorewrite with world. cbn [fst snd]. autorewrite with world.
    cbn [initial trace app].
    rewrite !wire_app, wire_hello, Hw. cbn [wire app].
    repeat split; try lia. discriminate.
Qed.

Lemma main_wire_single (progname oparg arg arg2 port : string) (talk : bool)
    (ores : Z) (oerr : string) (line : list string) (f : string * string) :
  encode oparg arg arg2 = Frames [f] ->
  ores <> -1 ->
  wire (final_trace (main progname oparg arg arg2 port
                       (initial false talk ores oerr line)))
  = frame_writes f.
Proof.
  intros He Hopen.
  destruct (main_wire progname oparg arg arg2 port talk ores oerr line [f]
              He Hopen) as (n & Hw & Hle & Hge & _).
  specialize (Hge ltac:(discriminate)). simpl in Hle.
  assert (n = 1%nat) by lia. subst n. rewrite Hw. reflexivity.
Qed.

(** ** The split range of dcabl2 *)

Lemma encode_dcabl2 (arg arg2 : string) :
  encode "dcabl2" arg arg2
  = if ((0 <=? atoi arg) && (atoi arg <=? 9999))%bool
    then Frames [("DC10", fmt_0d 4 (atoi arg))]
    else if ((9999 <? atoi arg) && (atoi arg <=? 16383))%bool
    then Frames [("DC11", fmt_0d 4 (atoi arg - 10000))]
    else InvalidParameter.
Proof. reflexivity. Qed.

(** C4. In a run that opens the port, dcabl2 with the numeral of a value
    from 0 to 9999 writes the frame of opcode DC10 with the value on four
    digits, zero-padded; with the numeral of a value from 10000 to 16383 it
    writes the frame of opcode DC11 with the value less 10000 on four
    digits: 9999 goes out as DC10 9999, 10000 as DC11 0000 and 16383 as
    DC11 6383; 16384 fails validation and nothing is written. *)
Theorem dcabl2_split_range :
  forall progname arg2 port talk ores oerr line n,
    ores <> -1 ->
    let run := fun arg =>
      main progname "dcabl2" arg arg2 port
           (initial false talk ores oerr line) in
    (0 <= n <= 9999 ->
       wire (final_trace (run (decimal n))) = ["DC10"; fmt_0d 4 n; cr]
       /\ String.length (fmt_0d 4 n) = 4%nat)
    /\ (10000 <= n <= 16383 ->
       wire (final_trace (run (decimal n)))
       = ["DC11"; fmt_0d 4 (n - 10000); cr]
       /\ String.length (fmt_0d 4 (n - 10000)) = 4%nat)
    /\ wire (final_trace (run "9999")) = ["DC10"; "9999"; cr]
    /\ wire (final_trace (run "10000")) = ["DC11"; "0000"; cr]
    /\ wire (final_trace (run "16383")) = ["DC11"; "6383"; cr]
    /\ validates "dcabl2" "16384" arg2 = false
    /\ wire (final_trace (run "16384")) = []
    /\ exit_status (run "16384") = EXIT_FAILURE.
Proof.
  intros progname arg2 port talk ores oerr line n Hopen run.
  assert (Hlow : forall arg, 0 <= atoi arg <= 9999 ->
            wire (final_trace (run arg))
            = ["DC10"; fmt_0d 4 (atoi arg); cr]).
  { intros arg Ha. subst run. cbv beta.
    apply (main_wire_single _ _ _ _ _ _ _ _ _ ("DC10", fmt_0d 4 (atoi arg)));
      [| assumption].
    rewrite encode_dcabl2.
    destruct (Z.leb_spec 0 (atoi arg)); [| lia].
    destruct (Z.leb_spec (atoi arg) 9999); [reflexivity | lia]. }
  assert (Hhigh : forall arg, 10000 <= atoi arg <= 16383 ->
            wire (final_trace (run arg))
            = ["DC11"; fmt_0d 4 (atoi arg - 10000); cr]).
  { intros arg Ha. subst run. cbv beta.
    apply (main_wire_single _ _ _ _ _ _ _ _ _
             ("DC11", fmt_0d 4 (atoi arg - 10000))); [| assumption].
    rewrite encode_dcabl2.
    destruct (Z.leb_spec (atoi arg) 9999); [lia |].
    rewrite andb_false_r.
    destruct (Z.ltb_spec 9999 (atoi arg)); [| lia].
    destruct (Z.leb_spec (atoi arg) 16383); [reflexivity | lia]. }
  split; [| split]; [| | repeat split].
  - intros Hn. rewrite Hlow; rewrite atoi_decimal by lia;
      [split; [reflexivity | apply length_fmt_04d; lia] | lia].
  - intros Hn. rewrite Hhigh; rewrite atoi_decimal by lia;
      [split; [reflexivity | apply length_fmt_04d; lia] | lia].
  - apply (Hlow "9999"). vm_compute. split; discriminate.
  - apply (Hhigh "10000"). vm_compute. split; discriminate.
  - apply (Hhigh "16383"). vm_compute. split; discriminate.
  - apply (main_rejects_wire progname "dcabl2" "16384" arg2 port false talk
             ores oerr line eq_refl).
  - apply (main_rejects_wire progname "dcabl2" "16384" arg2 port false talk
             ores oerr line eq_refl).
Qed.

Lemma dcabl2_split_range_witness :
  3 <> -1
  /\ wire (final_trace (main "aquosctl" "dcabl2" "10000" EmptyString
                          "/dev/ttyS0"
                          (initial false false 3 EmptyString [])))
     = ["DC11"; "0000"; cr].
Proof.
  split; [discriminate |].
  destruct (dcabl2_split_range "aquosctl" EmptyString "/dev/ttyS0" false 3
              EmptyString [] 10000 ltac:(discriminate))
    as (_ & _ & _ & H & _).
  exact H.
Defined.

(** ** Bounded integers *)

Lemma atoi_no_number (arg : string) : scan_int arg = None -> atoi arg = 0.
Proof. unfold atoi. now intros ->. Qed.

Lemma range_laws (arg2 : string) : Forall (range_law arg2) bounded_commands.
Proof.
  repeat constructor; intros arg; unfold validates, encode, ranged;
    match goal with
    | |- context [checkcmd ?s] =>
        let c := eval vm_compute in (checkcmd s) in
        change (checkcmd s) with c
    end; cbv beta iota.
  1-4: destruct (negb (streq arg EmptyString));
       destruct (atoi_within arg _ _); reflexivity.
  - destruct (atoi_within arg 1 135); reflexivity.
  - unfold atoi_within.
    destruct (Z.leb_spec 0 (atoi arg)), (Z.leb_spec (atoi arg) 9999),
      (Z.ltb_spec 9999 (atoi arg)), (Z.leb_spec (atoi arg) 16383);
      cbn [andb]; try reflexivity; lia.
Qed.

(** C5, as the program has it.  For vol, clock, hpos, vpos, achan and
    dcabl2 the numerals of lo and hi pass validation and those of lo-1 and
    hi+1 fail; for phase those of 1 and 40 pass and that of 41 fails.  The
    test is on [atoi(arg)], together with a test that the argument is not
    empty for vol, clock, hpos and vpos: an argument that does not begin
    with a number is read as 0, so that it fails validation for achan, it
    passes for dcabl2, and for vol, clock, hpos and vpos it passes unless
    it is empty. *)
Theorem bounded_integer_validation :
  forall arg2,
    Forall (range_bounds arg2) bounded_commands
    /\ Forall (range_law arg2) bounded_commands
    /\ validates "phase" (fmt_d 1) arg2 = true
    /\ validates "phase" (fmt_d 40) arg2 = true
    /\ validates "phase" (fmt_d 41) arg2 = false
    /\ forall arg,
        scan_int arg = None ->
        validates "achan" arg arg2 = false
        /\ validates "dcabl2" arg arg2 = true
        /\ Forall (fun name =>
                     validates name arg arg2 = negb (streq arg EmptyString))
                  ["vol"; "clock"; "hpos"; "vpos"].
Proof.
  intros arg2. pose proof (range_laws arg2) as Hlaw.
  split; [| split; [exact Hlaw | split; [| split; [| split]]]];
    try reflexivity.
  - repeat constructor; reflexivity.
  - intros arg Hnone. pose proof (atoi_no_number arg Hnone) as Hz.
    unfold bounded_commands in Hlaw.
    repeat match goal with
           | H : Forall _ (_ :: _) |- _ =>
               apply Forall_cons_iff in H; destruct H as [? H]
           end.
    unfold range_law, atoi_within in *.
    repeat match goal with
           | H : forall a : string, validates _ a _ = _ |- _ =>
               specialize (H arg); rewrite Hz in H;
               cbn [Z.leb Z.compare andb] in H; rewrite ?andb_true_r in H
           end.
    repeat constructor; assumption.
Qed.

(** C5 fails on the code: the argument abc of vol does not begin with a
    number, it passes validation and goes out as the parameter of a VOLM
    frame; and phase takes 0, which is below its documented range. *)
Lemma bounded_integer_counterexample :
  let r := main "aquosctl" "vol" "abc" EmptyString "/dev/ttyS0"
             (initial false false 3 EmptyString ["OK" ++ cr]) in
  scan_int "abc" = None
  /\ validates "vol" "abc" EmptyString = true
  /\ wire (final_trace r) = ["VOLM"; "abc "; cr]
  /\ exit_status r = EXIT_SUCCESS
  /\ validates "phase" "0" EmptyString = true.
Proof. repeat split; reflexivity. Qed.

(** ** The width of the fields *)

Lemma length_fmt_left (w : nat) (s : string) :
  String.length (fmt_left w s) = Nat.max w (String.length s).
Proof.
  unfold fmt_left. rewrite length_append, length_repeat_char. lia.
Qed.

Lemma length_fmt_0d_ge (w : nat) (z : Z) :
  (w <= String.length (fmt_0d w z))%nat.
Proof.
  unfold fmt_0d. destruct (z <? 0); cbn [String.length];
    rewrite length_append, length_repeat_char; lia.
Qed.

Lemma atoi_within_nonempty (arg : string) (lo hi : Z) :
  0 < lo -> atoi_within arg lo hi = true -> (1 <= String.length arg)%nat.
Proof.
  intros Hlo. destruct arg; [| simpl; lia].
  unfold atoi_within. change (atoi EmptyString) with 0.
  destruct (Z.leb_spec lo 0); [lia | discriminate].
Qed.

(** A frame is never short: the opcode and the parameter have four bytes
    at least, and the frame has nine bytes exactly when the two fit the
    arrays [cmd] and [param] that [main] formats them into. *)
Lemma frames_at_least_nine (oparg arg arg2 : string)
    (fs : list (string * string)) (f : string * string) :
  encode oparg arg arg2 = Frames fs ->
  In f fs ->
  (4 <= String.length (fst f))%nat
  /\ (4 <= String.length (snd f))%nat
  /\ ((String.length (fst f) < cmd_size)%nat ->
      (String.length (snd f) < param_size)%nat ->
      String.length (frame_bytes f) = 9%nat).
Proof.
  intros He Hin.
  assert (H : (4 <= String.length (fst f))%nat
              /\ (4 <= String.length (snd f))%nat).
  { revert He. unfold encode, tokens, ranged.
    destruct (checkcmd oparg); cbn [token_param];
      repeat match goal with
             | |- context [sscanf_d_dot_d ?a ?b ?c] =>
                 destruct (sscanf_d_dot_d a b c) as [[? ?] ?]
             | |- context [streq ?a ?b] => destruct (streq a b)
             | |- context [atoi_within ?a ?b ?c] =>
                 destruct (atoi_within a b c) eqn:?
             | |- context [(?a <? ?b)%Z] => destruct (a <? b)%Z
             | |- context [(?a <=? ?b)%Z] => destruct (a <=? b)%Z
             | _ => progress cbn [andb negb]
             end;
      intros He; inversion He; subst fs; clear He;
      repeat (destruct Hin as [<- | Hin]; [| try contradiction]);
      cbn [fst snd];
      rewrite ?length_append, ?length_fmt_left;
      repeat match goal with
             | |- context [String.length (fmt_0d ?w ?z)] =>
                 pose proof (length_fmt_0d_ge w z);
                 generalize dependent (String.length (fmt_0d w z)); intros
             | H : atoi_within ?a 1 ?hi = true |- _ =>
                 apply atoi_within_nonempty in H; [| lia]
             end;
      cbn [String.length]; lia. }
  destruct H as [H1 H2]. repeat split; auto.
  unfold frame_bytes, cmd_size, param_size, cr.
  rewrite !length_append. cbn [String.length]. lia.
Qed.

(** C6 fails on the code: the argument 00060 of vol passes validation,
    as 60; "%-4s" pads a short argument and copies a long one whole, so
    that the parameter has the five characters of the argument, one more
    than [param] has room for, and the frame on the line has ten bytes. *)
Theorem overlong_parameter :
  let r := main "aquosctl" "vol" "00060" EmptyString "/dev/ttyS0"
             (initial false false 3 EmptyString ["OK" ++ cr]) in
  atoi "00060" = 60
  /\ validates "vol" "00060" EmptyString = true
  /\ encode "vol" "00060" EmptyString = Frames [("VOLM", "00060")]
  /\ wire (final_trace r) = ["VOLM"; "00060"; cr]
  /\ String.length (frame_bytes ("VOLM", "00060")) = 10%nat
  /\ (param_size <= String.length "00060")%nat
  /\ exit_status r = EXIT_SUCCESS.
Proof. repeat split; reflexivity. Qed.

(** ** Dotted pairs *)

Lemma encode_dchan (arg arg2 : string) :
  encode "dchan" arg arg2
  = let '(n, chan, subchan) := sscanf_d_dot_d arg 0 0 in
    if 0 <? n then Frames [("DA2P", fmt_0d 2 chan ++ fmt_0d 2 subchan)]
    else InvalidParameter.
Proof. reflexivity. Qed.

Lemma wire_exchange (talk : bool) (d : Z) (f : string * string) (r : string) :
  wire (exchange talk d f r) = frame_writes f.
Proof.
  unfold exchange. rewrite !wire_app.
  unfold announce, report.
  destruct talk, (classify (chop r)); reflexivity.
Qed.



(** ** No bounds on dchan *)

Lemma isdigit_plain (c : ascii) :
  isdigit c = true ->
  isspace c = false /\ Ascii.eqb c "-" = false /\ Ascii.eqb c "+" = false.
Proof.
  destruct c as [[] [] [] [] [] [] [] []]; vm_compute; intros H;
    try discriminate H; repeat split.
Qed.

(** An argument that begins with a digit begins with a number. *)
Lemma scan_int_digit (c : ascii) (t : string) :
  isdigit c = true -> exists v rest, scan_int (String c t) = Some (v, rest).
Proof.
  intros Hd. destruct (isdigit_plain c Hd) as (Hs & Hm & Hp).
  unfold scan_int. cbn [skip_space]. rewrite Hs.
  unfold scan_signed. rewrite Hm, Hp. unfold scan_unsigned. rewrite Hd.
  destruct (scan_digits 0 (String c t)) as [v rest]. eauto.
Qed.

Lemma sscanf_number (arg : string) (chan : Z) (rest : string) :
  scan_int arg = Some (chan, rest) ->
  exists n subchan, sscanf_d_dot_d arg 0 0 = (n, chan, subchan) /\ 0 < n.
Proof.
  intros Hscan. unfold sscanf_d_dot_d. rewrite Hscan.
  destruct rest as [|c rest]; [exists 1, 0; split; [reflexivity | lia] |].
  destruct (Ascii.eqb_spec c ".") as [->|Hc].
  - destruct (scan_int rest) as [[y ?]|];
      [exists 2, y | exists 1, 0]; split; try reflexivity; lia.
  - exists 1, 0. split; [| lia].
    destruct c as [[] [] [] [] [] [] [] []]; try reflexivity.
    now elim Hc.
Qed.

(** C10. dchan takes every argument that begins with a number, whatever
    the number: the channel that [sscanf] reads goes into the DA2P frame
    as it is, with the subchannel, and the frame is sent.  So it is for
    0, for 500.1 and for -3, and for every argument that begins with a
    digit. *)
Theorem dchan_unbounded :
  forall progname arg arg2 port talk ores oerr line chan rest,
    scan_int arg = Some (chan, rest) ->
    ores <> -1 ->
    (exists subchan,
        encode "dchan" arg arg2
        = Frames [("DA2P", fmt_0d 2 chan ++ fmt_0d 2 subchan)]
        /\ wire (final_trace (main progname "dchan" arg arg2 port
                                (initial false talk ores oerr line)))
           = ["DA2P"; fmt_0d 2 chan ++ fmt_0d 2 subchan; cr])
    /\ validates "dchan" arg arg2 = true
    /\ (forall c t, isdigit c = true ->
                    validates "dchan" (String c t) arg2 = true)
    /\ encode "dchan" "0" arg2 = Frames [("DA2P", "0000")]
    /\ encode "dchan" "500.1" arg2 = Frames [("DA2P", "50001")]
    /\ encode "dchan" "-3" arg2 = Frames [("DA2P", "-300")].
Proof.
  intros progname arg arg2 port talk ores oerr line chan rest Hscan Hopen.
  assert (Hv : forall a v r, scan_int a = Some (v, r) ->
            exists subchan,
              encode "dchan" a arg2
              = Frames [("DA2P", fmt_0d 2 v ++ fmt_0d 2 subchan)]).
  { intros a v r Ha.
    destruct (sscanf_number a v r Ha) as (n & subchan & Hs & Hn).
    exists subchan. rewrite encode_dchan, Hs.
    destruct (Z.ltb_spec 0 n); [reflexivity | lia]. }
  split; [| split; [| split; [| repeat split]]].
  - destruct (Hv arg chan rest Hscan) as (subchan & He).
    exists subchan. split; [exact He |].
    now apply (main_wire_single _ _ _ _ _ _ _ _ _
                 ("DA2P", fmt_0d 2 chan ++ fmt_0d 2 subchan)).
  - destruct (Hv arg chan rest Hscan) as (subchan & He).
    unfold validates. now rewrite He.
  - intros c t Hd. destruct (scan_int_digit c t Hd) as (v & r & Hs).
    destruct (Hv _ v r Hs) as (subchan & He).
    unfold validates. now rewrite He.
Qed.

Lemma dchan_unbounded_witness :
  scan_int "500.1" = Some (500, ".1")
  /\ 3 <> -1
  /\ validates "dchan" "500.1" EmptyString = true.
Proof.
  split; [reflexivity |]. split; [discriminate |].
  destruct (dchan_unbounded "aquosctl" "500.1" EmptyString "/dev/ttyS0" false
              3 EmptyString [] 500 ".1" eq_refl ltac:(discriminate))
    as (_ & H & _).
  exact H.
Defined.

(** ** The table, looked up *)

Lemma checkcmd_from_found (tab : list lookuptab) (str : string) :
  checkcmd_from tab str <> CMD_NONE ->
  exists e, In e tab /\ cmd e = str /\ opcode e = checkcmd_from tab str.
Proof.
  induction tab as [|e tab IH]; cbn [checkcmd_from]; [congruence |].
  unfold streq. destruct (String.eqb_spec (cmd e) str) as [Heq|Hne].
  - intros _. exists e. repeat split; auto. now left.
  - intros H. destruct (IH H) as (e' & Hin & Hc & Ho).
    exists e'. repeat split; auto. now right.
Qed.

Lemma command_eq_dec (a b : command) : {a = b} + {a <> b}.
Proof. decide equality. Qed.

Lemma cmdtab_opcodes_distinct : NoDup (map opcode cmdtab).
Proof.
  repeat (constructor;
          [intros H; cbv in H;
           repeat (destruct H as [H|H]; [discriminate H |]); exact H |]).
  constructor.
Qed.

Lemma NoDup_map_inj {A B} (f : A -> B) (l : list A) (x y : A) :
  NoDup (map f l) -> In x l -> In y l -> f x = f y -> x = y.
Proof.
  induction l as [|a l IH]; cbn [map]; intros Hnd Hx Hy Hf; [contradiction |].
  inversion Hnd as [|? ? Hnot Hnd']; subst.
  destruct Hx as [->|Hx], Hy as [->|Hy]; auto.
  - elim Hnot. rewrite Hf. now apply in_map.
  - elim Hnot. rewrite <- Hf. now apply in_map.
Qed.

Lemma checkcmd_entries :
  Forall (fun e => checkcmd (cmd e) = opcode e /\ opcode e <> CMD_NONE) cmdtab.
Proof. repeat constructor; try reflexivity; discriminate. Qed.

(** X1. Every entry of the table is found under its own name, with its own
    opcode, which is not [CMD_NONE]; and two names that [checkcmd] finds
    with the same opcode are the same name. *)
Theorem checkcmd_round_trip :
  Forall (fun e => checkcmd (cmd e) = opcode e /\ opcode e <> CMD_NONE) cmdtab
  /\ forall s s',
      checkcmd s <> CMD_NONE -> checkcmd s = checkcmd s' -> s = s'.
Proof.
  split; [exact checkcmd_entries |].
  intros s s' Hs Heq. unfold checkcmd in *.
  destruct (checkcmd_from_found cmdtab s Hs) as (e & Hin & Hc & Ho).
  destruct (checkcmd_from_found cmdtab s') as (e' & Hin' & Hc' & Ho');
    [congruence |].
  assert (e = e').
  { apply (NoDup_map_inj opcode cmdtab);
      auto using cmdtab_opcodes_distinct. congruence. }
  congruence.
Qed.

Lemma checkcmd_round_trip_witness :
  checkcmd "vol" <> CMD_NONE
  /\ checkcmd "vol" = checkcmd "vol"
  /\ "vol" = "vol".
Proof.
  split; [discriminate |]. split; [reflexivity |].
  destruct checkcmd_round_trip as [_ H].
  apply (H "vol" "vol"); [discriminate | reflexivity].
Defined.

(** X2. [checkcmd] answers [CMD_NONE] exactly for the names that no entry
    of the table has: the match is exact, on the whole name and with its
    case. *)
Theorem checkcmd_none_iff :
  forall s, checkcmd s = CMD_NONE <-> ~ In s (map cmd cmdtab).
Proof.
  intros s. split.
  - intros Hnone Hin. apply in_map_iff in Hin.
    destruct Hin as (e & <- & Hin).
    pose proof checkcmd_entries as Hall.
    rewrite Forall_forall in Hall. destruct (Hall e Hin) as [Hf Hne].
    congruence.
  - apply checkcmd_unknown.
Qed.

(** ** The bytes of the line and the buffer *)

Lemma take_drop (n : nat) (s : string) : take n s ++ drop n s = s.
Proof.
  revert n; induction s as [|c s IH]; intros [|n]; simpl; try reflexivity.
  now rewrite IH.
Qed.

Lemma append_nil_r (a : string) : a ++ EmptyString = a.
Proof. induction a as [|c a IH]; simpl; [reflexivity | now rewrite IH]. Qed.

Lemma append_assoc_s (a b c : string) : (a ++ b) ++ c = a ++ b ++ c.
Proof. induction a as [|x a IH]; simpl; [reflexivity | now rewrite IH]. Qed.

Lemma next_group_flatten (l : list string) :
  match next_group l with
  | Some (g, rest) => flatten l = g ++ flatten rest
  | None => flatten l = EmptyString
  end.
Proof.
  induction l as [|x l IH]; cbn [next_group]; [reflexivity |].
  destruct x; [exact IH | reflexivity].
Qed.

Lemma flatten_left (n : nat) (g : string) (rest : list string) :
  flatten (match drop n g with
           | EmptyString => rest
           | _ => drop n g :: rest
           end)
  = drop n g ++ flatten rest.
Proof. destruct (drop n g); reflexivity. Qed.

(** A [read] takes bytes from the head of the line, as many as it is asked
    for at most, and leaves the others on the line. *)
Lemma read_fd_trace (count : nat) (w : World) :
  exists o es l got,
    read_fd count w = (o, log es (with_incoming l w))
    /\ flatten (incoming w) = got ++ flatten l
    /\ (String.length got <= count)%nat
    /\ match o with
       | Normal g =>
           g = got /\ es = [Read (fd w) count got]
           /\ (got = EmptyString -> count = O)
       | Exit s =>
           s = EXIT_FAILURE /\ got = EmptyString /\ next_group l = None
           /\ es = [Stdout ("No response." ++ nl); Close (fd w)]
       end.
Proof.
  unfold read_fd. destruct count as [|n].
  - exists (Normal EmptyString), [Read (fd w) 0 EmptyString], (incoming w),
      EmptyString.
    step. rewrite <- (log_nil w) at 1. autorewrite with world.
    repeat split; auto.
  - step. pose proof (next_group_flatten (incoming w)) as Hfl.
    destruct (next_group (incoming w)) as [[g rest]|] eqn:Hg.
    + pose proof (next_group_nonempty _ _ _ Hg) as Hne.
      exists (Normal (take (S n) g)), [Read (fd w) (S n) (take (S n) g)],
        (match drop (S n) g with
         | EmptyString => rest
         | _ => drop (S n) g :: rest
         end), (take (S n) g).
      step. split; [reflexivity |].
      split; [now rewrite flatten_left, <- append_assoc_s, take_drop |].
      split; [rewrite length_take; lia |].
      repeat split.
      destruct g; [congruence | simpl; discriminate].
    + exists (Exit EXIT_FAILURE),
        [Stdout ("No response." ++ nl); Close (fd w)], (incoming w),
        EmptyString.
      step. rewrite <- (log_nil w) at 1. autorewrite with world.
      repeat split; auto. simpl. lia.
Qed.

Lemma forallb_app_true {A} (f : A -> bool) (l1 l2 : list A) :
  forallb f l1 = true -> forallb f l2 = true -> forallb f (l1 ++ l2) = true.
Proof. intros H1 H2. now rewrite forallb_app, H1, H2. Qed.

(** The loop reads the bytes of the line in order and stores them after
    those it has; it never has more than the buffer holds, less one. *)
Lemma read_reply_trace (fuel : nat) (acc : string) (w : World) :
  (String.length acc <= buffer_size - 1)%nat ->
  exists o es l got,
    read_reply fuel acc w = (o, log es (with_incoming l w))
    /\ flatten (incoming w) = got ++ flatten l
    /\ (String.length (acc ++ got) <= buffer_size - 1)%nat
    /\ exists rs,
        forallb is_read rs = true
        /\ forallb (exchange_event (fd w)) rs = true
        /\ match o with
           | Normal r =>
               r = acc ++ got /\ es = rs
               /\ (acc = EmptyString -> got <> EmptyString)
           | Exit s =>
               s = EXIT_FAILURE /\ next_group l = None
               /\ es = (rs ++ [Stdout ("No response." ++ nl); Close (fd w)])%list
           end.
Proof.
  revert acc w; induction fuel as [|fuel IH]; intros acc w Hacc;
    cbn [read_reply]; unfold bind at 1;
    destruct (read_fd_trace (buffer_size - String.length acc - 1) w)
      as (o & es & l & got & -> & Hfl & Hlen & Ho);
    assert (Hroom : (String.length (acc ++ got) <= buffer_size - 1)%nat)
      by (rewrite length_append; lia);
    assert (Hev : forall g,
              forallb is_read
                [Read (fd w) (buffer_size - String.length acc - 1) g] = true
              /\ forallb (exchange_event (fd w))
                   [Read (fd w) (buffer_size - String.length acc - 1) g] = true)
      by (intros g; cbn; rewrite Z.eqb_refl; auto);
    (destruct o as [g|s];
     [destruct Ho as (-> & -> & Hz)
     | destruct Ho as (-> & -> & Hn & ->);
       exists (Exit EXIT_FAILURE),
         [Stdout ("No response." ++ nl); Close (fd w)], l, EmptyString;
       rewrite append_nil_r; repeat split; auto;
       exists []; repeat split; auto]).
  - destruct got as [|c got].
    + exists (Normal acc),
        [Read (fd w) (buffer_size - String.length acc - 1) EmptyString],
        l, EmptyString.
      step. rewrite append_nil_r in *. repeat split; auto.
      eexists; repeat split; try apply Hev.
      intros ->. specialize (Hz eq_refl). unfold buffer_size in Hz.
      simpl in Hz. discriminate.
    + exists (Normal (acc ++ String c got)),
        [Read (fd w) (buffer_size - String.length acc - 1) (String c got)],
        l, (String c got).
      destruct (ends_line _); step; repeat split; auto;
        eexists; repeat split; try apply Hev; discriminate.
  - destruct got as [|c got].
    + exists (Normal acc),
        [Read (fd w) (buffer_size - String.length acc - 1) EmptyString],
        l, EmptyString.
      step. rewrite append_nil_r in *. repeat split; auto.
      eexists; repeat split; try apply Hev.
      intros ->. specialize (Hz eq_refl). unfold buffer_size in Hz.
      simpl in Hz. discriminate.
    + destruct (ends_line (acc ++ String c got)).
      * exists (Normal (acc ++ String c got)),
          [Read (fd w) (buffer_size - String.length acc - 1) (String c got)],
          l, (String c got).
        step; repeat split; auto;
          eexists; repeat split; try apply Hev; discriminate.
      * destruct (IH (acc ++ String c got)
                    (log [Read (fd w) (buffer_size - String.length acc - 1)
                               (String c got)] (with_incoming l w)) Hroom)
          as (o' & es' & l' & got' & -> & Hfl' & Hlen' & rs & Hr1 & Hr2 & Ho').
        autorewrite with world in *.
        exists o',
          (Read (fd w) (buffer_size - String.length acc - 1) (String c got)
           :: es'), l', (String c got ++ got').
        split; [reflexivity |].
        split; [now rewrite Hfl, Hfl', append_assoc_s |].
        split; [now rewrite <- append_assoc_s |].
        exists (Read (fd w) (buffer_size - String.length acc - 1)
                     (String c got) :: rs).
        split; [exact Hr1 |].
        split; [cbn; now rewrite Z.eqb_refl |].
        destruct o' as [r|s].
        -- destruct Ho' as (-> & -> & _).
           rewrite append_assoc_s. repeat split; auto. discriminate.
        -- destruct Ho' as (-> & Hn & ->). repeat split; auto.
Qed.

(** An exchange in full: the frame is announced and written, the alarm is
    set, the reply is read from the descriptor, and then comes the report
    of the reply, or the end of the process through [leave]. *)
Lemma sendcommand_trace (c p : string) (w : World) :
  nosend w = false ->
  exists o l got rs tail,
    sendcommand c p w
    = (o, log (announce (verbose w) (c, p) ++ transmit (fd w) (c, p)
               ++ rs ++ tail) (with_incoming l w))
    /\ flatten (incoming w) = got ++ flatten l
    /\ (1 <= String.length got <= buffer_size - 1 \/ got = EmptyString)%nat
    /\ forallb is_read rs = true
    /\ forallb (exchange_event (fd w)) rs = true
    /\ match o with
       | Normal s =>
           got <> EmptyString
           /\ s = status_of (classify (chop got))
           /\ tail = report (verbose w) (c, p) (classify (chop got))
       | Exit s =>
           s = EXIT_FAILURE /\ next_group l = None
           /\ tail = [Stdout ("No response." ++ nl); Close (fd w)]
       end.
Proof.
  intros Hsend. rewrite sendcommand_send by assumption.
  destruct (read_reply_trace (buffer_size - 1) EmptyString
              (log (announce (verbose w) (c, p) ++ transmit (fd w) (c, p)) w))
    as (o & es & l & got & -> & Hfl & Hlen & rs & Hr1 & Hr2 & Ho);
    [simpl; lia |].
  autorewrite with world in *. cbn [append] in *.
  assert (Hgot : (1 <= String.length got <= buffer_size - 1
                  \/ got = EmptyString)%nat).
  { destruct got; [now right | left; simpl in *; lia]. }
  destruct o as [r|s].
  - destruct Ho as (-> & -> & Hne).
    exists (Normal (status_of (classify (chop got)))), l, got, rs,
      (report (verbose w) (c, p) (classify (chop got))).
    autorewrite with world. rewrite <- !app_assoc. repeat split; auto.
  - destruct Ho as (-> & Hn & ->).
    exists (Exit EXIT_FAILURE), l, got, rs,
      [Stdout ("No response." ++ nl); Close (fd w)].
    autorewrite with world. rewrite <- !app_assoc. repeat split; auto.
Qed.

(** X3. The reading loop of [sendcommand] keeps within [buffer]: when it
    ends it has stored one byte at least and one less than the size of
    the buffer at most, so that [buffptr[-1]] is a byte of the buffer and
    there is room for the NUL; and the bytes it has stored are the first
    bytes of the line, in order, the others being left on the line. *)
Theorem reader_keeps_within_buffer :
  forall w received w',
    read_reply (buffer_size - 1) EmptyString w = (Normal received, w') ->
    (1 <= String.length received <= buffer_size - 1)%nat
    /\ flatten (incoming w) = received ++ flatten (incoming w').
Proof.
  intros w received w' Hrun.
  destruct (read_reply_trace (buffer_size - 1) EmptyString w)
    as (o & es & l & got & Heq & Hfl & Hlen & rs & _ & _ & Ho);
    [simpl; lia |].
  rewrite Hrun in Heq. inversion Heq; subst o w'. clear Heq Hrun.
  destruct Ho as (-> & _ & Hne). cbn [append] in *.
  autorewrite with world. split; [| exact Hfl].
  specialize (Hne eq_refl).
  destruct got; [congruence | cbn [String.length] in *; lia].
Qed.

Lemma reader_keeps_within_buffer_witness :
  exists w',
    read_reply (buffer_size - 1) EmptyString
      (initial false false 3 EmptyString ["OK" ++ cr; "ERR" ++ cr])
    = (Normal ("OK" ++ cr), w')
    /\ (1 <= String.length ("OK" ++ cr) <= buffer_size - 1)%nat.
Proof.
  eexists. split; [reflexivity |].
  eapply (reader_keeps_within_buffer
            (initial false false 3 EmptyString ["OK" ++ cr; "ERR" ++ cr])).
  reflexivity.
Defined.

(** X4. An exchange takes its reply from the head of the line and leaves
    the bytes that follow for the next exchange: what was on the line is
    what [sendcommand] has read followed by what is on the line after it,
    whether it returns or the alarm ends the process; a dry run reads
    nothing. *)
Theorem sendcommand_consumes_prefix :
  forall c p w,
    exists got,
      flatten (incoming w)
      = got ++ flatten (incoming (snd (sendcommand c p w)))
      /\ (String.length got <= buffer_size - 1)%nat
      /\ (nosend w = true -> got = EmptyString).
Proof.
  intros c p w. destruct (nosend w) eqn:Hmode.
  - exists EmptyString. rewrite sendcommand_dry by assumption.
    cbn [snd append]. autorewrite with world.
    repeat split; auto. simpl. lia.
  - destruct (sendcommand_trace c p w Hmode)
      as (o & l & got & rs & tail & -> & Hfl & Hlen & _).
    exists got. cbn [snd]. autorewrite with world.
    repeat split; auto; [| discriminate].
    destruct Hlen as [Hlen| ->]; [lia | simpl; lia].
Qed.

(** X5. [sendcommand] returns [EXIT_SUCCESS] or [EXIT_FAILURE], and
    [EXIT_FAILURE] exactly when it has printed an error on stderr during
    the exchange. *)
Theorem sendcommand_status_and_report :
  forall c p w status w',
    sendcommand c p w = (Normal status, w') ->
    exists es,
      trace w' = (trace w ++ es)%list
      /\ (status = EXIT_SUCCESS \/ status = EXIT_FAILURE)
      /\ (status = EXIT_FAILURE <-> existsb is_stderr es = true).
Proof.
  intros c p w status w' Hrun. destruct (nosend w) eqn:Hmode.
  - rewrite sendcommand_dry in Hrun by assumption.
    inversion Hrun; subst. eexists. autorewrite with world.
    split; [reflexivity |]. split; [now left |].
    split; [discriminate | cbn; discriminate].
  - destruct (sendcommand_trace c p w Hmode)
      as (o & l & got & rs & tail & Heq & _ & _ & Hr1 & _ & Ho).
    rewrite Hrun in Heq. inversion Heq; subst o w'. clear Heq.
    destruct Ho as (_ & -> & ->).
    eexists. autorewrite with world. split; [reflexivity |].
    assert (Hrs : existsb is_stderr rs = false).
    { clear - Hr1. induction rs as [|e rs IH]; [reflexivity |].
      cbn in *. apply andb_true_iff in Hr1. destruct Hr1 as [He Hr].
      destruct e; try discriminate He. now apply IH. }
    clear Hrun. unfold announce, report.
    destruct (classify (chop got)), (verbose w);
      cbn [app existsb is_stderr orb status_of];
      rewrite existsb_app, Hrs; cbn [existsb is_stderr orb];
      (split; [auto | split; [auto; discriminate | auto; discriminate]]).
Qed.

Lemma sendcommand_status_and_report_witness :
  exists w',
    sendcommand "POWR" "1   "
      (initial false false 3 EmptyString ["ERR" ++ cr])
    = (Normal EXIT_FAILURE, w')
    /\ exists es, trace w' = ([] ++ es)%list
                  /\ (EXIT_FAILURE = EXIT_SUCCESS \/ EXIT_FAILURE = EXIT_FAILURE)
                  /\ (EXIT_FAILURE = EXIT_FAILURE
                      <-> existsb is_stderr es = true).
Proof.
  exists (snd (sendcommand "POWR" "1   "
                 (initial false false 3 EmptyString ["ERR" ++ cr]))).
  split; [reflexivity |].
  eapply (sendcommand_status_and_report "POWR" "1   "
            (initial false false 3 EmptyString ["ERR" ++ cr])).
  reflexivity.
Defined.

(** ** Replies in pieces, replies without end, replies too long *)

Lemma last_char_append (a b : string) :
  b <> EmptyString -> last_char (a ++ b) = last_char b.
Proof.
  intros Hb. induction a as [|c a IH]; [reflexivity |].
  cbn [append last_char]. rewrite IH.
  destruct (a ++ b) eqn:Hab; [| reflexivity].
  destruct a; [simpl in Hab; congruence | discriminate].
Qed.

Lemma ends_line_append (a b : string) :
  b <> EmptyString -> ends_line (a ++ b) = ends_line b.
Proof. intros Hb. unfold ends_line. now rewrite last_char_append. Qed.

Lemma flatten_app (l1 l2 : list string) :
  flatten (l1 ++ l2) = flatten l1 ++ flatten l2.
Proof.
  induction l1 as [|x l1 IH]; [reflexivity |].
  cbn [app flatten fold_right]. fold (flatten (l1 ++ l2)). fold (flatten l1).
  now rewrite IH, append_assoc_s.
Qed.

Lemma flatten_cons (x : string) (l : list string) :
  flatten (x :: l) = x ++ flatten l.
Proof. reflexivity. Qed.

Lemma read_fd_take (n : nat) (w : World) (g : string) (rest : list string) :
  incoming w = g :: rest ->
  g <> EmptyString ->
  read_fd (S n) w
  = (Normal (take (S n) g),
     log [Read (fd w) (S n) (take (S n) g)]
         (with_incoming (match drop (S n) g with
                         | EmptyString => rest
                         | _ => drop (S n) g :: rest
                         end) w)).
Proof.
  intros Hin Hne. unfold read_fd. step. rewrite Hin.
  destruct g; [congruence |]. cbn [next_group]. step. reflexivity.
Qed.

(** The loop on a line whose first groups do not end a line and whose next
    group does, all of them with room in the buffer. *)
Lemma read_reply_groups (gs : list string) :
  forall fuel acc w g rest,
    incoming w = (gs ++ g :: rest)%list ->
    Forall (fun x => x <> EmptyString /\ ends_line x = false) gs ->
    g <> EmptyString ->
    ends_line g = true ->
    (String.length acc + String.length (flatten (gs ++ [g]))
     <= buffer_size - 1)%nat ->
    (buffer_size - 1 <= fuel + String.length acc)%nat ->
    read_reply fuel acc w
    = (Normal (acc ++ flatten (gs ++ [g])),
       log (reads (fd w) (String.length acc) (gs ++ [g]))
           (with_incoming rest w)).
Proof.
  induction gs as [|x gs IH]; intros fuel acc w g rest Hin Hgs Hg Hend Hroom
    Hfuel.
  - cbn [app flatten fold_right reads] in *. rewrite append_nil_r in *.
    assert (Hcount : exists n,
               (buffer_size - String.length acc - 1 = S n)%nat
               /\ (String.length g <= S n)%nat).
    { destruct g; [congruence |]. cbn [String.length] in *.
      exists (buffer_size - String.length acc - 2)%nat.
      unfold buffer_size in *. lia. }
    destruct Hcount as (n & Hn & Hle).
    assert (Hread : read_fd (buffer_size - String.length acc - 1) w
                    = (Normal g,
                       log [Read (fd w) (buffer_size - String.length acc - 1) g]
                           (with_incoming rest w))).
    { rewrite Hn. apply read_fd_group; [| exact Hle].
      rewrite Hin. destruct g; [congruence | reflexivity]. }
    destruct fuel; cbn [read_reply]; unfold bind at 1; rewrite Hread;
      (destruct g; [congruence |]);
      rewrite ends_line_append, Hend by discriminate; reflexivity.
  - inversion Hgs as [|? ? [Hx Hxe] Hgs']; subst.
    cbn [app] in Hin, Hroom. rewrite flatten_cons in Hroom.
    rewrite length_append in Hroom.
    assert (Hpos : (1 <= String.length (flatten (gs ++ [g])))%nat).
    { rewrite flatten_app, length_append. cbn [flatten fold_right].
      rewrite append_nil_r. destruct g; [congruence | simpl; lia]. }
    assert (Hcount : exists n,
               (buffer_size - String.length acc - 1 = S n)%nat
               /\ (String.length x <= S n)%nat).
    { exists (buffer_size - String.length acc - 2)%nat.
      unfold buffer_size in *. lia. }
    destruct Hcount as (n & Hn & Hle).
    assert (Hread : read_fd (buffer_size - String.length acc - 1) w
                    = (Normal x,
                       log [Read (fd w) (buffer_size - String.length acc - 1) x]
                           (with_incoming (gs ++ g :: rest) w))).
    { rewrite Hn. apply read_fd_group; [| exact Hle].
      rewrite Hin. destruct x; [congruence | reflexivity]. }
    destruct fuel as [|fuel]; [unfold buffer_size in *; lia |].
    cbn [read_reply]. unfold bind at 1. rewrite Hread.
    destruct x as [|c x]; [congruence |].
    rewrite ends_line_append, Hxe by discriminate.
    rewrite (IH fuel (acc ++ String c x) _ g rest);
      autorewrite with world; auto.
    + cbn [app reads]. rewrite flatten_cons, append_assoc_s, length_append.
      reflexivity.
    + rewrite length_append. lia.
    + rewrite length_append. cbn [String.length] in *. lia.
Qed.

Lemma with_incoming_same (w : World) : with_incoming (incoming w) w = w.
Proof. destruct w; reflexivity. Qed.

(** The loop on a line that holds fewer bytes than the buffer and no group
    that ends a line. *)
Lemma read_reply_starved (gs : list string) :
  forall fuel acc w,
    incoming w = gs ->
    Forall (fun x => x <> EmptyString /\ ends_line x = false) gs ->
    (String.length acc + String.length (flatten gs) < buffer_size - 1)%nat ->
    (buffer_size - 1 <= fuel + String.length acc)%nat ->
    read_reply fuel acc w
    = (Exit EXIT_FAILURE,
       log (reads (fd w) (String.length acc) gs
            ++ [Stdout ("No response." ++ nl); Close (fd w)])
           (with_incoming [] w)).
Proof.
  induction gs as [|x gs IH]; intros fuel acc w Hin Hgs Hroom Hfuel.
  - cbn [flatten fold_right reads app String.length] in *.
    assert (Hcount : exists n,
               (buffer_size - String.length acc - 1 = S n)%nat).
    { exists (buffer_size - String.length acc - 2)%nat.
      unfold buffer_size in *. lia. }
    destruct Hcount as (n & Hn).
    destruct fuel; cbn [read_reply]; unfold bind at 1; rewrite Hn;
      rewrite read_fd_silent by (now rewrite Hin);
      replace (with_incoming [] w) with w
        by (rewrite <- Hin; symmetry; apply with_incoming_same);
      reflexivity.
  - inversion Hgs as [|? ? [Hx Hxe] Hgs']; subst.
    rewrite flatten_cons, length_append in Hroom.
    assert (Hcount : exists n,
               (buffer_size - String.length acc - 1 = S n)%nat
               /\ (String.length x <= S n)%nat).
    { exists (buffer_size - String.length acc - 2)%nat.
      unfold buffer_size in *. lia. }
    destruct Hcount as (n & Hn & Hle).
    assert (Hread : read_fd (buffer_size - String.length acc - 1) w
                    = (Normal x,
                       log [Read (fd w) (buffer_size - String.length acc - 1) x]
                           (with_incoming gs w))).
    { rewrite Hn. apply read_fd_group; [| exact Hle].
      rewrite Hin. destruct x; [congruence | reflexivity]. }
    assert (Hxl : (1 <= String.length x)%nat)
      by (destruct x; [congruence | simpl; lia]).
    destruct fuel as [|fuel]; [unfold buffer_size in *; lia |].
    cbn [read_reply]. unfold bind at 1. rewrite Hread.
    destruct x as [|c x]; [congruence |].
    rewrite ends_line_append, Hxe by discriminate.
    rewrite (IH fuel (acc ++ String c x)); autorewrite with world; auto.
    + cbn [app reads]. rewrite length_append. reflexivity.
    + rewrite length_append. lia.
    + rewrite length_append. lia.
Qed.

(** X6. A reply that arrives in several pieces is put together: when the
    pieces before the last do not end with a carriage return or a newline,
    the last one does and they all fit in the buffer, [sendcommand] reads
    each piece with one [read] and returns the status, with the report, of
    the whole reply. *)
Theorem reply_in_pieces :
  forall c p w gs g rest,
    nosend w = false ->
    incoming w = (gs ++ g :: rest)%list ->
    Forall (fun x => x <> EmptyString /\ ends_line x = false) gs ->
    g <> EmptyString ->
    ends_line g = true ->
    (String.length (flatten (gs ++ [g])) <= buffer_size - 1)%nat ->
    let reply := flatten (gs ++ [g]) in
    sendcommand c p w
    = (Normal (status_of (classify (chop reply))),
       log (announce (verbose w) (c, p) ++ transmit (fd w) (c, p)
            ++ reads (fd w) 0 (gs ++ [g])
            ++ report (verbose w) (c, p) (classify (chop reply)))
           (with_incoming rest w)).
Proof.
  intros c p w gs g rest Hsend Hin Hgs Hg Hend Hlen reply.
  rewrite sendcommand_send by assumption.
  rewrite (read_reply_groups gs _ EmptyString _ g rest);
    autorewrite with world; auto; try (cbn [String.length]; lia).
  cbn [append String.length]. fold reply. rewrite <- !app_assoc. reflexivity.
Qed.

Lemma reply_in_pieces_witness :
  sendcommand "POWR" "1   "
    (initial false false 3 EmptyString ["O"; String "K" cr; "rest"])
  = (Normal EXIT_SUCCESS,
     mkWorld 0 false false 3 EmptyString ["rest"]
       [Write 0 "POWR"; Write 0 "1   "; Write 0 cr; Alarm 1;
        Read 0 254 "O"; Read 0 253 (String "K" cr)]).
Proof.
  apply (reply_in_pieces "POWR" "1   "
           (initial false false 3 EmptyString ["O"; String "K" cr; "rest"])
           ["O"] (String "K" cr) ["rest"]).
  - reflexivity.
  - reflexivity.
  - constructor; [split; [discriminate | reflexivity] | constructor].
  - discriminate.
  - reflexivity.
  - vm_compute. lia.
Defined.

(** X7. Bytes that never end a [read] with a carriage return or a newline
    are no reply: when no group on the line ends with one and the line
    holds fewer bytes than the buffer, whatever the bytes are, with a
    terminator inside a group or not, [sendcommand] reads them all, the
    alarm goes off and the process ends with failure status after No
    response. *)
Theorem reply_without_end :
  forall c p w,
    nosend w = false ->
    Forall (fun x => x <> EmptyString /\ ends_line x = false) (incoming w) ->
    (String.length (flatten (incoming w)) < buffer_size - 1)%nat ->
    sendcommand c p w
    = (Exit EXIT_FAILURE,
       log (announce (verbose w) (c, p) ++ transmit (fd w) (c, p)
            ++ reads (fd w) 0 (incoming w)
            ++ [Stdout ("No response." ++ nl); Close (fd w)])
           (with_incoming [] w)).
Proof.
  intros c p w Hsend Hgs Hlen.
  rewrite sendcommand_send by assumption.
  rewrite (read_reply_starved (incoming w));
    autorewrite with world; auto; try (cbn [String.length]; lia).
  cbn [String.length]. rewrite <- !app_assoc. reflexivity.
Qed.

Lemma reply_without_end_witness :
  sendcommand "POWR" "1   "
    (initial false false 3 EmptyString [String "O" (String "K" cr) ++ "x"])
  = (Exit EXIT_FAILURE,
     mkWorld 0 false false 3 EmptyString []
       [Write 0 "POWR"; Write 0 "1   "; Write 0 cr; Alarm 1;
        Read 0 254 (String "O" (String "K" cr) ++ "x");
        Stdout ("No response." ++ nl); Close 0]).
Proof.
  apply (reply_without_end "POWR" "1   "
           (initial false false 3 EmptyString
                    [String "O" (String "K" cr) ++ "x"])).
  - reflexivity.
  - constructor; [split; [discriminate | reflexivity] | constructor].
  - vm_compute. lia.
Defined.

Lemma chop_take (n : nat) (g : string) :
  (S n <= String.length g)%nat -> chop (take (S n) g) = take n g.
Proof.
  revert g; induction n as [|n IH]; intros g Hlen.
  - destruct g; [simpl in Hlen; lia | reflexivity].
  - destruct g as [|c g]; [simpl in Hlen; lia |].
    cbn [String.length] in Hlen.
    change (take (S (S n)) (String c g)) with (String c (take (S n) g)).
    change (take (S n) (String c g)) with (String c (take n g)).
    rewrite <- IH by lia.
    destruct g as [|d g]; [simpl in Hlen; lia | reflexivity].
Qed.

(** The loop on a group that fills the buffer. *)
Lemma read_reply_full (w : World) (g : string) (rest : list string) :
  incoming w = g :: rest ->
  (buffer_size - 1 <= String.length g)%nat ->
  read_reply (buffer_size - 1) EmptyString w
  = (Normal (take (buffer_size - 1) g),
     log (Read (fd w) (buffer_size - 1) (take (buffer_size - 1) g)
          :: if ends_line (take (buffer_size - 1) g) then []
             else [Read (fd w) 0 EmptyString])
         (with_incoming (match drop (buffer_size - 1) g with
                         | EmptyString => rest
                         | _ => drop (buffer_size - 1) g :: rest
                         end) w)).
Proof.
  intros Hin Hlen.
  assert (Hm : exists n, (buffer_size - 1 = S n)%nat)
    by (exists 253%nat; reflexivity).
  destruct Hm as [n Hn].
  assert (Hne : g <> EmptyString).
  { intros ->. rewrite Hn in Hlen. simpl in Hlen. lia. }
  assert (Hfull : String.length (take (buffer_size - 1) g)
                  = (buffer_size - 1)%nat)
    by (rewrite length_take; lia).
  replace (read_reply (buffer_size - 1) EmptyString w)
    with (read_reply (S n) EmptyString w) by (now rewrite Hn).
  cbn [read_reply]. unfold bind at 1.
  replace (buffer_size - String.length EmptyString - 1)%nat with (S n)
    by (rewrite <- Hn; reflexivity).
  rewrite (read_fd_take n w g rest Hin Hne). rewrite <- Hn.
  destruct (take (buffer_size - 1) g) as [|c t] eqn:Htake;
    [rewrite Hn in Hfull; discriminate |].
  cbn [append]. destruct (ends_line (String c t)); [reflexivity |].
  destruct n as [|n']; cbn [read_reply]; unfold bind at 1;
    (replace (buffer_size - String.length (String c t) - 1)%nat with O
       by (rewrite Hfull; unfold buffer_size; lia));
    unfold read_fd; step; reflexivity.
Qed.

(** X8. A reply that fills the buffer is cut: of a group of 254 bytes or
    more [sendcommand] takes the first 254, drops the last of them as if it
    were the terminator and classifies the first 253; the bytes after the
    254th stay on the line. *)
Theorem reply_too_long :
  forall c p w g rest,
    nosend w = false ->
    incoming w = g :: rest ->
    (buffer_size - 1 <= String.length g)%nat ->
    let kept := take (buffer_size - 2) g in
    chop (take (buffer_size - 1) g) = kept
    /\ sendcommand c p w
       = (Normal (status_of (classify kept)),
          log (announce (verbose w) (c, p) ++ transmit (fd w) (c, p)
               ++ (Read (fd w) (buffer_size - 1) (take (buffer_size - 1) g)
                   :: if ends_line (take (buffer_size - 1) g) then []
                      else [Read (fd w) 0 EmptyString])
               ++ report (verbose w) (c, p) (classify kept))
              (with_incoming (match drop (buffer_size - 1) g with
                              | EmptyString => rest
                              | _ => drop (buffer_size - 1) g :: rest
                              end) w)).
Proof.
  intros c p w g rest Hsend Hin Hlen kept.
  assert (Hchop : chop (take (buffer_size - 1) g) = kept)
    by (apply (chop_take 253); exact Hlen).
  split; [exact Hchop |].
  rewrite sendcommand_send by assumption.
  rewrite (read_reply_full _ g rest) by (autorewrite with world; auto).
  rewrite Hchop. autorewrite with world. rewrite <- !app_assoc. reflexivity.
Qed.

Lemma reply_too_long_witness :
  let g := "OK" ++ repeat_char "." 254 in
  fst (sendcommand "POWR" "1   " (initial false false 3 EmptyString [g]))
  = Normal EXIT_SUCCESS
  /\ incoming (snd (sendcommand "POWR" "1   "
                      (initial false false 3 EmptyString [g])))
     = [repeat_char "." 2].
Proof.
  intros g.
  destruct (reply_too_long "POWR" "1   "
              (initial false false 3 EmptyString [g]) g []
              eq_refl eq_refl) as [_ H].
  - unfold g. rewrite length_append, length_repeat_char. vm_compute. lia.
  - rewrite H. split; reflexivity.
Defined.

(** ** The port, from [open] to [close] *)

Lemma exchange_event_frame (talk : bool) (d : Z) (f : string * string) :
  forallb (exchange_event d) (announce talk f ++ transmit d f) = true.
Proof.
  unfold announce, transmit. destruct talk; cbn; rewrite Z.eqb_refl;
    reflexivity.
Qed.

Lemma exchange_event_report (talk : bool) (d : Z) (f : string * string)
    (o : ResponseOutcome) :
  forallb (exchange_event d) (report talk f o) = true.
Proof. destruct o, talk; reflexivity. Qed.

(** The frames of a command are exchanged on the descriptor in [fd], and
    nothing else happens to it, until [leave] closes it if the alarm goes
    off. *)
Lemma send_frames_events (fs : list (string * string)) (w : World) :
  nosend w = false ->
  exists o es l,
    send_frames fs w = (o, log es (with_incoming l w))
    /\ match o with
       | Normal r => r = None /\ forallb (exchange_event (fd w)) es = true
       | Exit s =>
           s = EXIT_FAILURE
           /\ exists body,
               es = (body ++ [Close (fd w)])%list
               /\ forallb (exchange_event (fd w)) body = true
       end.
Proof.
  revert w; induction fs as [|[c p] fs IH]; intros w Hsend; cbn [send_frames].
  - exists (Normal None), [], (incoming w). unfold break. step.
    rewrite log_nil. auto.
  - unfold bind.
    destruct (sendcommand_trace c p w Hsend)
      as (o & l & got & rs & tail & -> & _ & _ & _ & Hrs & Ho).
    pose proof (exchange_event_frame (verbose w) (fd w) (c, p)) as Hframe.
    destruct o as [st|s].
    + destruct Ho as (_ & _ & ->).
      match goal with |- context [send_frames fs ?w1] =>
        destruct (IH w1) as (o' & es' & l' & -> & Ho')
      end; [autorewrite with world; auto |].
      autorewrite with world in *.
      assert (Hhead : forallb (exchange_event (fd w))
                        (announce (verbose w) (c, p) ++ transmit (fd w) (c, p)
                         ++ rs ++ report (verbose w) (c, p)
                                    (classify (chop got))) = true).
      { rewrite app_assoc. apply forallb_app_true; [exact Hframe |].
        apply forallb_app_true; [exact Hrs | apply exchange_event_report]. }
      eexists o', _, l'. split; [reflexivity |].
      destruct o' as [r|s'].
      * destruct Ho' as (-> & Hes). split; [reflexivity |].
        now apply forallb_app_true.
      * destruct Ho' as (-> & body & -> & Hbody). split; [reflexivity |].
        exists ((announce (verbose w) (c, p) ++ transmit (fd w) (c, p)
                 ++ rs ++ report (verbose w) (c, p) (classify (chop got)))
                ++ body)%list.
        split; [now rewrite <- !app_assoc |].
        now apply forallb_app_true.
    + destruct Ho as (-> & _ & ->).
      eexists (Exit EXIT_FAILURE), _, l. split; [reflexivity |].
      split; [reflexivity |].
      exists (announce (verbose w) (c, p) ++ transmit (fd w) (c, p) ++ rs
              ++ [Stdout ("No response." ++ nl)])%list.
      split; [now rewrite <- !app_assoc |].
      rewrite app_assoc. apply forallb_app_true; [exact Hframe |].
      apply forallb_app_true; [exact Hrs | reflexivity].
Qed.

(** X9. In a run that sends, the port is opened and set up once, at the
    start; after that the trace holds exchanges only, all of them on the
    descriptor that [open] has returned; and the descriptor is closed, as
    the last thing, exactly when the command has passed validation, by
    [main] after the [switch] or by [leave] when the alarm goes off.  A
    command that fails validation leaves the port open. *)
Theorem port_lifecycle :
  forall progname oparg arg arg2 port talk ores oerr line,
    ores <> -1 ->
    let r := main progname oparg arg arg2 port
               (initial false talk ores oerr line) in
    exists body,
      final_trace r
      = (hello talk port ++ [Open port ores; Configure ores] ++ body
         ++ if validates oparg arg arg2 then [Close ores] else [])%list
      /\ forallb (exchange_event ores) body = true.
Proof.
  intros progname oparg arg arg2 port talk ores oerr line Hopen r. subst r.
  rewrite main_port_ok by (try reflexivity; exact Hopen).
  cbn [initial verbose open_result]. unfold validates.
  destruct (encode oparg arg arg2) as [| | |fs] eqn:He;
    try (rewrite perform_complaint by discriminate;
         eexists [Stderr _]; unfold finish, final_trace; cbn [snd];
         autorewrite with world; cbn [initial trace app];
         rewrite <- !app_assoc; split; reflexivity).
  cbn [perform].
  match goal with |- context [send_frames fs ?w] =>
    destruct (send_frames_events fs w) as (o & es & l & -> & Ho)
  end; [reflexivity |].
  autorewrite with world in Ho. unfold final_trace.
  destruct o as [st|s]; cbn [finish snd].
  - destruct Ho as (-> & Hes). exists es.
    autorewrite with world. cbn [initial trace app].
    rewrite <- !app_assoc. split; [reflexivity | exact Hes].
  - destruct Ho as (-> & body & -> & Hbody). exists body.
    autorewrite with world. cbn [initial trace app].
    rewrite <- !app_assoc. split; [reflexivity | exact Hbody].
Qed.

Lemma port_lifecycle_witness :
  3 <> -1
  /\ exists body,
      final_trace (main "aquosctl" "vol" "61" EmptyString "/dev/ttyS0"
                     (initial false false 3 EmptyString []))
      = ([] ++ [Open "/dev/ttyS0" 3; Configure 3] ++ body ++ [])%list
      /\ forallb (exchange_event 3) body = true.
Proof.
  split; [discriminate |].
  apply (port_lifecycle "aquosctl" "vol" "61" EmptyString "/dev/ttyS0" false
           3 EmptyString []).
  discriminate.
Defined.

(** ** No reply at all *)

Lemma encode_nonempty (oparg arg arg2 : string) :
  encode oparg arg arg2 <> Frames [].
Proof.
  unfold encode, tokens, ranged.
  destruct (checkcmd oparg); cbn [token_param];
    repeat match goal with
           | |- context [sscanf_d_dot_d ?a ?b ?c] =>
               destruct (sscanf_d_dot_d a b c) as [[? ?] ?]
           | |- context [streq ?a ?b] => destruct (streq a b)
           | |- context [atoi_within ?a ?b ?c] => destruct (atoi_within a b c)
           | |- context [(?a <? ?b)%Z] => destruct (a <? b)%Z
           | |- context [(?a <=? ?b)%Z] => destruct (a <=? b)%Z
           | _ => progress cbn [andb negb]
           end;
    discriminate.
Qed.

(** X10. When the television sends nothing, the run of a command that has
    passed validation writes the first frame of the command, whole, and
    nothing more: the alarm goes off, [leave] prints No response, closes
    the port and ends the process with failure status. *)
Theorem silent_line_times_out :
  forall progname oparg arg arg2 port talk ores oerr line,
    validates oparg arg arg2 = true ->
    ores <> -1 ->
    next_group line = None ->
    exists f fs,
      encode oparg arg arg2 = Frames (f :: fs)
      /\ main progname oparg arg arg2 port
              (initial false talk ores oerr line)
         = (Exit EXIT_FAILURE,
            mkWorld ores false talk ores oerr line
              (hello talk port ++ [Open port ores; Configure ores]
               ++ announce talk f ++ transmit ores f
               ++ [Stdout ("No response." ++ nl); Close ores])).
Proof.
  intros progname oparg arg arg2 port talk ores oerr line Hv Hopen Hsilent.
  destruct (validates_true _ _ _ Hv) as (fs & He).
  destruct fs as [|[c p] fs]; [now elim (encode_nonempty oparg arg arg2) |].
  exists (c, p), fs. split; [exact He |].
  rewrite (main_sends _ _ _ _ _ _ _ He) by (try reflexivity; assumption).
  cbn [initial verbose open_result send_frames]. unfold bind at 1.
  rewrite sendcommand_silent by (try reflexivity; exact Hsilent).
  cbn [finish]. autorewrite with world.
  unfold log, with_fd. cbn. rewrite <- !app_assoc. reflexivity.
Qed.

Lemma silent_line_times_out_witness :
  validates "chup" EmptyString EmptyString = true
  /\ 3 <> -1
  /\ next_group [] = None
  /\ exit_status (main "aquosctl" "chup" EmptyString EmptyString "/dev/ttyS0"
                    (initial false false 3 EmptyString []))
     = EXIT_FAILURE.
Proof.
  split; [reflexivity |]. split; [discriminate |]. split; [reflexivity |].
  destruct (silent_line_times_out "aquosctl" "chup" EmptyString EmptyString
              "/dev/ttyS0" false 3 EmptyString [] eq_refl
              ltac:(discriminate) eq_refl) as (f & fs & _ & H).
  rewrite H. reflexivity.
Defined.

(** ** What the option -v changes *)

Lemma read_fd_rel (count : nat) (w1 w2 : World) :
  fd w1 = fd w2 ->
  incoming w1 = incoming w2 ->
  exists o es l,
    read_fd count w1 = (o, log es (with_incoming l w1))
    /\ read_fd count w2 = (o, log es (with_incoming l w2)).
Proof.
  intros Hfd Hin. unfold read_fd. step. rewrite Hin, Hfd.
  destruct count as [|n].
  - exists (Normal EmptyString), [Read (fd w2) 0 EmptyString], (incoming w2).
    step. rewrite with_incoming_same. rewrite <- Hin, with_incoming_same.
    split; reflexivity.
  - destruct (next_group (incoming w2)) as [[g rest]|].
    + eexists _, _, _. step. split; reflexivity.
    + exists (Exit EXIT_FAILURE),
        [Stdout ("No response." ++ nl); Close (fd w2)], (incoming w2).
      step. rewrite ?Hfd, with_incoming_same.
      rewrite <- Hin, with_incoming_same. split; reflexivity.
Qed.

Lemma read_reply_rel (fuel : nat) :
  forall acc w1 w2,
    fd w1 = fd w2 ->
    incoming w1 = incoming w2 ->
    exists o es l,
      read_reply fuel acc w1 = (o, log es (with_incoming l w1))
      /\ read_reply fuel acc w2 = (o, log es (with_incoming l w2)).
Proof.
  induction fuel as [|fuel IH]; intros acc w1 w2 Hfd Hin;
    cbn [read_reply]; unfold bind;
    destruct (read_fd_rel (buffer_size - String.length acc - 1) w1 w2 Hfd Hin)
      as (o & es & l & -> & ->);
    (destruct o as [got|s]; [| exists (Exit s), es, l; split; reflexivity]);
    (destruct got as [|c got];
     [exists (Normal acc), es, l; split; reflexivity |]);
    (destruct (ends_line (acc ++ String c got));
     [exists (Normal (acc ++ String c got)), es, l; split; reflexivity |]).
  - exists (Normal (acc ++ String c got)), es, l; split; reflexivity.
  - destruct (IH (acc ++ String c got) (log es (with_incoming l w1))
                (log es (with_incoming l w2)))
      as (o' & es' & l' & -> & ->); [now autorewrite with world; auto .. |].
    exists o', (es ++ es')%list, l'. autorewrite with world.
    split; reflexivity.
Qed.

Lemma quiet_app (tr1 tr2 : list event) :
  quiet (tr1 ++ tr2) = (quiet tr1 ++ quiet tr2)%list.
Proof. apply filter_app. Qed.

Lemma quiet_announce (talk : bool) (f : string * string) :
  quiet (announce talk f) = [].
Proof. destruct talk; reflexivity. Qed.

Lemma quiet_hello (talk : bool) (port : string) : quiet (hello talk port) = [].
Proof. destruct talk; reflexivity. Qed.

Lemma quiet_report (talk : bool) (f : string * string) (o : ResponseOutcome) :
  quiet (report talk f o) = report false f o.
Proof. destruct o, talk; reflexivity. Qed.

(** Two exchanges that differ in [verbose] only. *)
Lemma sendcommand_rel (c p : string) (w1 w2 : World) :
  nosend w1 = nosend w2 ->
  fd w1 = fd w2 ->
  incoming w1 = incoming w2 ->
  exists o l es1 es2,
    sendcommand c p w1 = (o, log es1 (with_incoming l w1))
    /\ sendcommand c p w2 = (o, log es2 (with_incoming l w2))
    /\ quiet es1 = quiet es2.
Proof.
  intros Hmode Hfd Hin. destruct (nosend w2) eqn:Hm2.
  - exists (Normal EXIT_SUCCESS), (incoming w2),
      [Stdout (frame_line (c, p))], [Stdout (frame_line (c, p))].
    rewrite !sendcommand_dry by assumption.
    rewrite with_incoming_same, <- Hin, with_incoming_same. auto.
  - rewrite !sendcommand_send by assumption.
    match goal with
    | |- context [read_reply ?f ?a ?x1] =>
        match goal with
        | |- context [read_reply f a (log ?e2 w2)] =>
            destruct (read_reply_rel f a x1 (log e2 w2))
              as (o & es & l & -> & ->)
        end
    end; [now autorewrite with world | now autorewrite with world |].
    rewrite Hfd. destruct o as [r|s].
    + eexists _, l, _, _. autorewrite with world.
      split; [reflexivity |]. split; [reflexivity |].
      rewrite !quiet_app, !quiet_announce, !quiet_report. reflexivity.
    + eexists _, l, _, _. autorewrite with world.
      split; [reflexivity |]. split; [reflexivity |].
      rewrite !quiet_app, !quiet_announce. reflexivity.
Qed.

Lemma send_frames_rel (fs : list (string * string)) :
  forall w1 w2,
    nosend w1 = nosend w2 ->
    fd w1 = fd w2 ->
    incoming w1 = incoming w2 ->
    exists o l es1 es2,
      send_frames fs w1 = (o, log es1 (with_incoming l w1))
      /\ send_frames fs w2 = (o, log es2 (with_incoming l w2))
      /\ quiet es1 = quiet es2.
Proof.
  induction fs as [|[c p] fs IH]; intros w1 w2 Hmode Hfd Hin;
    cbn [send_frames].
  - exists (Normal None), (incoming w2), [], []. unfold break, ret.
    rewrite log_nil, <- Hin, log_nil. auto.
  - unfold bind.
    destruct (sendcommand_rel c p w1 w2 Hmode Hfd Hin)
      as (o & l & es1 & es2 & -> & -> & Hq).
    destruct o as [st|s].
    + destruct (IH (log es1 (with_incoming l w1)) (log es2 (with_incoming l w2)))
        as (o' & l' & es1' & es2' & -> & -> & Hq');
        [now autorewrite with world .. |].
      exists o', l', (es1 ++ es1')%list, (es2 ++ es2')%list.
      autorewrite with world. rewrite !quiet_app, Hq, Hq'. auto.
    + exists (Exit s), l, es1, es2. auto.
Qed.

(** X11. The option -v changes what is printed on stdout and nothing
    else: with [verbose] set or not, a run of [main] ends the same way,
    with the same status, leaves the same bytes on the line and, messages
    on stdout apart, has the same trace, with the same frames written and
    the same errors reported. *)
Theorem verbose_only_prints :
  forall progname oparg arg arg2 port dry ores oerr line,
    let run := fun talk =>
      main progname oparg arg arg2 port (initial dry talk ores oerr line) in
    fst (run true) = fst (run false)
    /\ incoming (snd (run true)) = incoming (snd (run false))
    /\ quiet (final_trace (run true)) = quiet (final_trace (run false)).
Proof.
  intros progname oparg arg arg2 port dry ores oerr line run. subst run.
  cbv beta. unfold final_trace.
  assert (Hperform : forall w1 w2,
            nosend w1 = nosend w2 -> fd w1 = fd w2 ->
            incoming w1 = incoming w2 ->
            exists o l es1 es2,
              perform progname oparg arg (encode oparg arg arg2) w1
              = (o, log es1 (with_incoming l w1))
              /\ perform progname oparg arg (encode oparg arg arg2) w2
                 = (o, log es2 (with_incoming l w2))
              /\ quiet es1 = quiet es2).
  { intros w1 w2 Hmode Hfd Hin.
    destruct (encode oparg arg arg2) as [| | |fs] eqn:He;
      try (rewrite !perform_complaint by discriminate;
           eexists _, (incoming w2), _, _;
           rewrite with_incoming_same, <- Hin, with_incoming_same; auto).
    cbn [perform]. now apply send_frames_rel. }
  destruct dry.
  - rewrite !main_dry by reflexivity.
    match goal with
    | |- context [perform _ _ _ _ ?x1] =>
        match goal with
        | |- context [perform _ _ _ _ (log (hello (verbose (initial true false ?a ?b ?c)) ?q) ?x2)] =>
            destruct (Hperform x1 (log (hello (verbose (initial true false a b c)) q) x2))
              as (o & l & es1 & es2 & -> & -> & Hq)
        end
    end; try reflexivity.
    destruct o as [[st|]|s]; cbn [finish fst snd]; autorewrite with world;
      cbn [initial trace incoming verbose fd app];
      rewrite ?quiet_app, ?quiet_hello, Hq; auto.
  - destruct (Z.eqb_spec ores (-1)) as [->|Hopen].
    + rewrite !main_port_fails by reflexivity. cbn [fst snd].
      autorewrite with world. cbn [initial trace incoming verbose open_error app].
      rewrite !quiet_app, !quiet_hello. auto.
    + rewrite !main_port_ok by (try reflexivity; exact Hopen).
      cbn [initial verbose open_result].
      match goal with
      | |- context [perform _ _ _ _ (log ?e1 (with_fd ores (initial false true ?a ?b ?c)))] =>
          match goal with
          | |- context [perform _ _ _ _ (log ?e2 (with_fd ores (initial false false a b c)))] =>
              destruct (Hperform (log e1 (with_fd ores (initial false true a b c)))
                                 (log e2 (with_fd ores (initial false false a b c))))
                as (o & l & es1 & es2 & -> & -> & Hq)
          end
      end; try reflexivity.
      destruct o as [[st|]|s]; cbn [finish fst snd]; autorewrite with world;
        cbn [initial trace incoming verbose fd app];
        rewrite ?quiet_app, ?quiet_hello, Hq; auto.
Qed.

(** ** Strings of digits *)

Lemma scan_digits_all (s : string) :
  all_digits s = true ->
  forall a, scan_digits a s
            = (a * 10 ^ Z.of_nat (String.length s) + digits_value s,
               EmptyString).
Proof.
  unfold digits_value.
  induction s as [|c s IH]; intros Hs a.
  - cbn. f_equal. lia.
  - cbn [all_digits] in Hs. apply andb_true_iff in Hs. destruct Hs as [Hc Hs].
    cbn [scan_digits String.length]. rewrite Hc.
    rewrite (IH Hs (a * 10 + digit_val c)), (IH Hs (0 * 10 + digit_val c)).
    cbn [fst]. f_equal. rewrite Nat2Z.inj_succ, Z.pow_succ_r by lia. lia.
Qed.

Lemma scan_digits_app (s rest : string) :
  all_digits s = true ->
  no_digit_head rest = true ->
  forall a, scan_digits a (s ++ rest)
            = (a * 10 ^ Z.of_nat (String.length s) + digits_value s, rest).
Proof.
  intros Hs Hrest. induction s as [|c s IH]; intros a.
  - cbn [append String.length]. unfold digits_value. cbn [scan_digits fst].
    replace (a * 10 ^ Z.of_nat 0 + 0) with a by (cbn; lia).
    destruct rest as [|d rest]; [reflexivity |].
    cbn [scan_digits]. cbn in Hrest.
    destruct (isdigit d); [discriminate | reflexivity].
  - cbn [all_digits] in Hs. apply andb_true_iff in Hs. destruct Hs as [Hc Hs].
    cbn [append scan_digits String.length]. rewrite Hc, (IH Hs).
    unfold digits_value. cbn [scan_digits]. rewrite Hc.
    rewrite (scan_digits_all s Hs (0 * 10 + digit_val c)). cbn [fst].
    f_equal. rewrite Nat2Z.inj_succ, Z.pow_succ_r by lia.
    unfold digits_value. lia.
Qed.

Lemma all_digits_app (a b : string) :
  all_digits (a ++ b) = (all_digits a && all_digits b)%bool.
Proof.
  induction a as [|c a IH]; [reflexivity |].
  cbn [append all_digits]. now rewrite IH, andb_assoc.
Qed.

Lemma all_digits_zeros (n : nat) : all_digits (repeat_char "0" n) = true.
Proof. induction n as [|n IH]; [reflexivity | exact IH]. Qed.

Lemma digits_value_zeros (n : nat) (s : string) :
  digits_value (repeat_char "0" n ++ s) = digits_value s.
Proof.
  unfold digits_value. induction n as [|n IH]; [reflexivity | exact IH].
Qed.

Lemma all_digits_digits_of (fuel : nat) :
  forall n acc, 0 <= n ->
    all_digits (digits_of fuel n acc) = all_digits acc.
Proof.
  induction fuel as [|fuel IH]; intros n acc Hn; cbn [digits_of].
  - cbn [all_digits]. destruct (digit_char_spec (n mod 10)) as (-> & _);
      [pose proof (Z.mod_pos_bound n 10); lia | reflexivity].
  - destruct (n / 10 =? 0).
    + cbn [all_digits]. destruct (digit_char_spec (n mod 10)) as (-> & _);
        [pose proof (Z.mod_pos_bound n 10); lia | reflexivity].
    + rewrite IH by (apply Z.div_pos; lia).
      cbn [all_digits]. destruct (digit_char_spec (n mod 10)) as (-> & _);
        [pose proof (Z.mod_pos_bound n 10); lia | reflexivity].
Qed.

Lemma decimal_digits (n : Z) :
  0 <= n -> all_digits (decimal n) = true /\ digits_value (decimal n) = n.
Proof.
  intros Hn. unfold decimal.
  split; [now rewrite all_digits_digits_of |].
  destruct (scan_digits_of (Z.to_nat (Z.log2 n)) n EmptyString)
    as (k & Hk & Hscan); [split; [lia | apply decimal_fuel; lia] |].
  unfold digits_value. rewrite Hscan. cbn. lia.
Qed.

Lemma decimal_nonempty (n : Z) : 0 <= n -> decimal n <> EmptyString.
Proof.
  intros Hn. unfold decimal.
  destruct (digits_of_head (Z.to_nat (Z.log2 n)) n EmptyString Hn)
    as (c & rest & -> & _). discriminate.
Qed.

(** [%0Nd] of a natural number writes digits, and the digits write the
    number. *)
Lemma fmt_0d_digits (w : nat) (n : Z) :
  0 <= n ->
  all_digits (fmt_0d w n) = true /\ digits_value (fmt_0d w n) = n
  /\ fmt_0d w n <> EmptyString.
Proof.
  intros Hn. unfold fmt_0d. destruct (Z.ltb_spec n 0); [lia |].
  rewrite Z.abs_eq by lia. destruct (decimal_digits n Hn) as [Ha Hv].
  rewrite all_digits_app, all_digits_zeros, Ha, digits_value_zeros, Hv.
  repeat split.
  pose proof (decimal_nonempty n Hn).
  destruct (repeat_char "0" _); [assumption | discriminate].
Qed.

(** The number at the head of a string that begins with digits. *)
Lemma scan_int_digits (s rest : string) :
  all_digits s = true ->
  s <> EmptyString ->
  no_digit_head rest = true ->
  scan_int (s ++ rest) = Some (to_int (digits_value s), rest).
Proof.
  intros Hs Hne Hrest. destruct s as [|c s]; [congruence |].
  pose proof Hs as Hs'. cbn [all_digits] in Hs'.
  apply andb_true_iff in Hs'. destruct Hs' as [Hc _].
  destruct (isdigit_plain c Hc) as (Hsp & Hm & Hp).
  unfold scan_int. cbn [append skip_space]. rewrite Hsp.
  unfold scan_signed. rewrite Hm, Hp. unfold scan_unsigned. rewrite Hc.
  change (String c (s ++ rest)) with (String c s ++ rest).
  rewrite (scan_digits_app _ _ Hs Hrest). do 3 f_equal.
Qed.

Lemma atoi_digits (s rest : string) :
  all_digits s = true ->
  s <> EmptyString ->
  no_digit_head rest = true ->
  atoi (s ++ rest) = to_int (digits_value s).
Proof.
  intros Hs Hne Hrest. unfold atoi.
  now rewrite (scan_int_digits s rest Hs Hne Hrest).
Qed.

Lemma length_fmt_0d (w : nat) (n : Z) :
  0 <= n < 10 ^ Z.of_nat w -> (1 <= w)%nat ->
  String.length (fmt_0d w n) = w.
Proof.
  intros Hn Hw. unfold fmt_0d. destruct (Z.ltb_spec n 0); [lia |].
  rewrite Z.abs_eq by lia. rewrite length_append, length_repeat_char.
  destruct w as [|w]; [lia |].
  pose proof (length_decimal n w Hn). lia.
Qed.

(** ** Frames of the families of commands *)

Section Families.

Variables progname arg2 port oerr : string.
Variables talk : bool.
Variable ores : Z.
Variable line : list string.
Hypothesis Hopen : ores <> -1.

Let run (oparg arg : string) : outcome Z * World :=
  main progname oparg arg arg2 port (initial false talk ores oerr line).

Lemma run_single (oparg arg : string) (f : string * string) :
  encode oparg arg arg2 = Frames [f] ->
  wire (final_trace (run oparg arg)) = [fst f; snd f; cr].
Proof. intros He. now apply main_wire_single. Qed.

Lemma run_rejected (oparg arg : string) :
  validates oparg arg arg2 = false ->
  wire (final_trace (run oparg arg)) = []
  /\ exit_status (run oparg arg) = EXIT_FAILURE.
Proof. apply main_rejects_wire. Qed.

Lemma run_tokens (oparg op : string) (tab : list (string * string))
    (arg : string) :
  encode oparg arg arg2 = tokens op tab arg ->
  match token_param tab arg with
  | Some digit => wire (final_trace (run oparg arg)) = [op; fmt_left 4 digit; cr]
  | None => wire (final_trace (run oparg arg)) = []
            /\ exit_status (run oparg arg) = EXIT_FAILURE
  end.
Proof.
  unfold tokens. intros He.
  destruct (token_param tab arg) as [digit|].
  - now apply (run_single _ _ (op, fmt_left 4 digit)).
  - apply run_rejected. unfold validates. now rewrite He.
Qed.

End Families.

(** X12. The frame of a toggle.  audiosel, chup, chdn and cc send their
    opcode with the parameter 0, padded to four bytes, whatever operands
    follow the command; input, avmode, viewmode, mute and surround send
    the opcode of their toggle with the same parameter when the argument
    is empty. *)
Theorem toggle_frames :
  forall progname arg arg2 port talk ores oerr line,
    ores <> -1 ->
    let run := fun oparg a =>
      main progname oparg a arg2 port (initial false talk ores oerr line) in
    Forall (fun entry : string * string =>
              wire (final_trace (run (fst entry) arg))
              = [snd entry; "0   "; cr])
           fixed_commands
    /\ Forall (fun entry : string * string =>
                 wire (final_trace (run (fst entry) EmptyString))
                 = [snd entry; "0   "; cr])
              toggle_commands.
Proof.
  intros progname arg arg2 port talk ores oerr line Hopen run.
  split; repeat constructor; cbn [fst snd]; subst run; cbv beta;
    match goal with
    | |- wire (final_trace (main _ ?c ?a _ _ _)) = [?op; ?p; cr] =>
        apply (main_wire_single _ c a _ _ _ _ _ _ (op, p));
          [reflexivity | exact Hopen]
    end.
Qed.

Lemma toggle_frames_witness :
  3 <> -1
  /\ wire (final_trace (main "aquosctl" "mute" EmptyString EmptyString
                          "/dev/ttyS0"
                          (initial false false 3 EmptyString [])))
     = ["MUTE"; "0   "; cr].
Proof.
  split; [discriminate |].
  destruct (toggle_frames "aquosctl" EmptyString EmptyString "/dev/ttyS0"
              false 3 EmptyString [] ltac:(discriminate)) as [_ H].
  rewrite Forall_forall in H.
  apply (H ("mute", "MUTE")). cbn. auto 10.
Defined.

(** X13. The commands that take a word, poenable, power, avmode, viewmode,
    mute, surround and sleep, take the words of their list, letter for
    letter, and nothing else: for a word of the list the run writes one
    frame, the opcode of the command with the digit of the word padded to
    four bytes; for any other argument it writes nothing and ends with
    failure status. *)
Theorem word_commands :
  forall progname arg arg2 port talk ores oerr line,
    ores <> -1 ->
    let run := fun oparg =>
      main progname oparg arg arg2 port (initial false talk ores oerr line) in
    Forall (fun entry : string * string * list (string * string) =>
              match token_param (snd entry) arg with
              | Some digit =>
                  wire (final_trace (run (fst (fst entry))))
                  = [snd (fst entry); fmt_left 4 digit; cr]
                  /\ String.length (fmt_left 4 digit) = 4%nat
              | None =>
                  wire (final_trace (run (fst (fst entry)))) = []
                  /\ exit_status (run (fst (fst entry))) = EXIT_FAILURE
              end)
           token_commands.
Proof.
  intros progname arg arg2 port talk ores oerr line Hopen run.
  assert (Hone : forall oparg op tab,
            encode oparg arg arg2 = tokens op tab arg ->
            Forall (fun tv : string * string =>
                      String.length (snd tv) = 1%nat) tab ->
            match token_param tab arg with
            | Some digit =>
                wire (final_trace (run oparg)) = [op; fmt_left 4 digit; cr]
                /\ String.length (fmt_left 4 digit) = 4%nat
            | None =>
                wire (final_trace (run oparg)) = []
                /\ exit_status (run oparg) = EXIT_FAILURE
            end).
  { intros oparg op tab He Hlen.
    pose proof (run_tokens progname arg2 port oerr talk ores line Hopen
                  oparg op tab arg He) as Hrun.
    destruct (token_param tab arg) as [digit|] eqn:Htok; [| exact Hrun].
    split; [exact Hrun |].
    rewrite length_fmt_left.
    assert (Hd : String.length digit = 1%nat).
    { clear - Htok Hlen. induction tab as [|[t v] tab IH];
        [discriminate |].
      cbn [token_param] in Htok. inversion Hlen; subst.
      destruct (streq arg t); [inversion Htok; subst; assumption | auto]. }
    rewrite Hd. reflexivity. }
  repeat constructor; cbn [fst snd]; apply Hone; try reflexivity;
    repeat constructor.
Qed.

Lemma word_commands_witness :
  3 <> -1
  /\ wire (final_trace (main "aquosctl" "power" "On" EmptyString "/dev/ttyS0"
                          (initial false false 3 EmptyString [])))
     = [].
Proof.
  split; [discriminate |].
  pose proof (word_commands "aquosctl" "On" EmptyString "/dev/ttyS0"
                false 3 EmptyString [] ltac:(discriminate)) as H.
  rewrite Forall_forall in H.
  apply (H ("power", "POWR", [("off", "0"); ("on", "1")])).
  cbn. auto.
Defined.

Lemma In_firstn {A} (n : nat) (l : list A) (x : A) :
  In x (firstn n l) -> In x l.
Proof.
  revert l; induction n as [|n IH]; intros [|a l]; cbn; try tauto.
  intros [H|H]; auto.
Qed.

(** X14. What a run writes is made of whole frames, one at least when the
    command has passed validation, and no frame is short: each has its
    opcode, its parameter and one carriage return, nine bytes or more, and
    nine bytes exactly when the opcode and the parameter fit the arrays
    [cmd] and [param]. *)
Theorem frames_on_the_wire :
  forall progname oparg arg arg2 port talk ores oerr line,
    validates oparg arg arg2 = true ->
    ores <> -1 ->
    exists sent,
      sent <> []
      /\ wire (final_trace (main progname oparg arg arg2 port
                              (initial false talk ores oerr line)))
         = flat_map frame_writes sent
      /\ Forall (fun f =>
                   (9 <= String.length (frame_bytes f))%nat
                   /\ ((String.length (fst f) < cmd_size)%nat ->
                       (String.length (snd f) < param_size)%nat ->
                       String.length (frame_bytes f) = 9%nat))
                sent.
Proof.
  intros progname oparg arg arg2 port talk ores oerr line Hv Hopen.
  destruct (validates_true _ _ _ Hv) as (fs & He).
  destruct (main_wire progname oparg arg arg2 port talk ores oerr line fs
              He Hopen) as (n & Hw & Hle & Hge & _).
  assert (Hfs : fs <> []).
  { intros ->. now elim (encode_nonempty oparg arg arg2). }
  specialize (Hge Hfs).
  exists (firstn n fs). split; [| split; [exact Hw |]].
  - destruct n; [lia |]. destruct fs; [congruence | discriminate].
  - apply Forall_forall. intros f Hin. apply In_firstn in Hin.
    destruct (frames_at_least_nine oparg arg arg2 fs f He Hin)
      as (H1 & H2 & H3).
    split; [| exact H3].
    unfold frame_bytes, cr. rewrite !length_append. cbn [String.length]. lia.
Qed.

Lemma frames_on_the_wire_witness :
  validates "vol" "7" EmptyString = true
  /\ 3 <> -1
  /\ exists sent,
      sent <> []
      /\ wire (final_trace (main "aquosctl" "vol" "7" EmptyString "/dev/ttyS0"
                              (initial false false 3 EmptyString [])))
         = flat_map frame_writes sent.
Proof.
  split; [reflexivity |]. split; [discriminate |].
  destruct (frames_on_the_wire "aquosctl" "vol" "7" EmptyString "/dev/ttyS0"
              false 3 EmptyString [] eq_refl ltac:(discriminate))
    as (sent & Hne & Hw & _).
  exists sent. split; assumption.
Defined.

(** ** Channels, written and read back *)

Lemma scan_digits_app_all (a b : string) :
  all_digits a = true ->
  forall x, scan_digits x (a ++ b)
            = scan_digits (x * 10 ^ Z.of_nat (String.length a)
                           + digits_value a) b.
Proof.
  intros Ha. induction a as [|c a IH]; intros x.
  - cbn. f_equal. lia.
  - cbn [all_digits] in Ha. apply andb_true_iff in Ha. destruct Ha as [Hc Ha].
    cbn [append scan_digits String.length]. rewrite Hc, (IH Ha).
    unfold digits_value. cbn [scan_digits]. rewrite Hc.
    rewrite (scan_digits_all a Ha (0 * 10 + digit_val c)). cbn [fst].
    f_equal. rewrite Nat2Z.inj_succ, Z.pow_succ_r by lia.
    unfold digits_value. lia.
Qed.

Lemma digits_value_app (a b : string) :
  all_digits a = true ->
  all_digits b = true ->
  digits_value (a ++ b)
  = digits_value a * 10 ^ Z.of_nat (String.length b) + digits_value b.
Proof.
  intros Ha Hb. unfold digits_value at 1.
  rewrite (scan_digits_app_all a b Ha 0), (scan_digits_all b Hb).
  cbn [fst]. lia.
Qed.

(** [atoi] reads a zero-padded numeral back, with what follows it. *)
Lemma atoi_fmt_0d (w : nat) (n : Z) (rest : string) :
  0 <= n < 2^31 ->
  no_digit_head rest = true ->
  atoi (fmt_0d w n ++ rest) = n.
Proof.
  intros Hn Hrest. destruct (fmt_0d_digits w n) as (Ha & Hv & Hne); [lia |].
  rewrite (atoi_digits _ _ Ha Hne Hrest), Hv. apply to_int_small. lia.
Qed.

(** [sscanf] reads a channel and a subchannel back from their numerals
    with a dot between them, whatever follows that is not a digit. *)
Lemma sscanf_numerals (chan subchan : Z) (rest : string) :
  0 <= chan < 2^31 ->
  0 <= subchan < 2^31 ->
  no_digit_head rest = true ->
  sscanf_d_dot_d (decimal chan ++ "." ++ decimal subchan ++ rest) 0 0
  = (2, chan, subchan).
Proof.
  intros Hc Hs Hrest. unfold sscanf_d_dot_d.
  destruct (decimal_digits chan) as [Hca Hcv]; [lia |].
  destruct (decimal_digits subchan) as [Hsa Hsv]; [lia |].
  rewrite (scan_int_digits (decimal chan) ("." ++ decimal subchan ++ rest)
             Hca (decimal_nonempty _ (proj1 Hc)) eq_refl).
  cbn [append]. cbv beta iota.
  rewrite (scan_int_digits (decimal subchan) _ Hsa
             (decimal_nonempty _ (proj1 Hs)) Hrest).
  rewrite Hcv, Hsv, !to_int_small by lia. reflexivity.
Qed.

(** X15. dcabl2 sends the number it has read, not the text of its
    argument: for an argument that [atoi] reads as a channel from 0 to
    16383 the run writes one frame, with a parameter of four bytes, from
    which the channel is read back, the parameter itself under DC10 and
    the parameter plus 10000 under DC11; and two arguments that [atoi]
    reads alike give the same frame. *)
Theorem dcabl2_round_trip :
  forall progname arg arg2 port talk ores oerr line,
    ores <> -1 ->
    0 <= atoi arg <= 16383 ->
    let run := fun a =>
      main progname "dcabl2" a arg2 port (initial false talk ores oerr line) in
    (exists op param,
        wire (final_trace (run arg)) = [op; param; cr]
        /\ String.length param = 4%nat
        /\ dcabl2_value op param = atoi arg)
    /\ forall arg',
        atoi arg' = atoi arg ->
        wire (final_trace (run arg')) = wire (final_trace (run arg)).
Proof.
  intros progname arg arg2 port talk ores oerr line Hopen Hn run.
  assert (Hframe : forall a,
            atoi a = atoi arg ->
            exists op param,
              wire (final_trace (run a)) = [op; param; cr]
              /\ String.length param = 4%nat
              /\ dcabl2_value op param = atoi arg
              /\ (op, param)
                 = if atoi arg <=? 9999
                   then ("DC10", fmt_0d 4 (atoi arg))
                   else ("DC11", fmt_0d 4 (atoi arg - 10000))).
  { intros a Ha. subst run. cbv beta.
    destruct (Z.leb_spec (atoi arg) 9999) as [Hlow|Hhigh].
    - exists "DC10", (fmt_0d 4 (atoi arg)). repeat split.
      + apply (main_wire_single _ _ _ _ _ _ _ _ _
                 ("DC10", fmt_0d 4 (atoi arg))); [| exact Hopen].
        rewrite encode_dcabl2, Ha.
        destruct (Z.leb_spec 0 (atoi arg)); [| lia].
        destruct (Z.leb_spec (atoi arg) 9999); [reflexivity | lia].
      + apply length_fmt_04d. lia.
      + unfold dcabl2_value. cbn [streq String.eqb Ascii.eqb Bool.eqb].
        rewrite <- (append_nil_r (fmt_0d 4 (atoi arg))).
        apply atoi_fmt_0d; [lia | reflexivity].
    - exists "DC11", (fmt_0d 4 (atoi arg - 10000)). repeat split.
      + apply (main_wire_single _ _ _ _ _ _ _ _ _
                 ("DC11", fmt_0d 4 (atoi arg - 10000))); [| exact Hopen].
        rewrite encode_dcabl2, Ha.
        destruct (Z.leb_spec (atoi arg) 9999); [lia |].
        rewrite andb_false_r.
        destruct (Z.ltb_spec 9999 (atoi arg)); [| lia].
        destruct (Z.leb_spec (atoi arg) 16383); [reflexivity | lia].
      + apply length_fmt_04d. lia.
      + unfold dcabl2_value. cbn [streq String.eqb Ascii.eqb Bool.eqb].
        rewrite <- (append_nil_r (fmt_0d 4 (atoi arg - 10000))).
        rewrite atoi_fmt_0d; [lia | lia | reflexivity]. }
  split.
  - destruct (Hframe arg eq_refl) as (op & param & Hw & Hl & Hv & _). eauto.
  - intros arg' Ha.
    destruct (Hframe arg eq_refl) as (op & param & Hw & _ & _ & He).
    destruct (Hframe arg' Ha) as (op' & param' & Hw' & _ & _ & He').
    rewrite Hw, Hw'. congruence.
Qed.

Lemma dcabl2_round_trip_witness :
  3 <> -1
  /\ 0 <= atoi "  +12345xyz" <= 16383
  /\ wire (final_trace (main "aquosctl" "dcabl2" "12345" EmptyString
                          "/dev/ttyS0" (initial false false 3 EmptyString [])))
     = wire (final_trace (main "aquosctl" "dcabl2" "  +12345xyz" EmptyString
                            "/dev/ttyS0"
                            (initial false false 3 EmptyString []))).
Proof.
  split; [discriminate |]. split; [vm_compute; split; discriminate |].
  destruct (dcabl2_round_trip "aquosctl" "  +12345xyz" EmptyString
              "/dev/ttyS0" false 3 EmptyString [] ltac:(discriminate))
    as [_ H]; [vm_compute; split; discriminate |].
  apply (H "12345"). reflexivity.
Defined.

(** X16. dchan on its documented channels: for a channel and a subchannel
    from 0 to 99, written as two numerals with a dot between them and
    followed by anything that does not go on with a digit (which is not
    looked at), the run writes one DA2P frame whose parameter has four
    bytes and reads back as the channel times 100 plus the subchannel. *)
Theorem dchan_round_trip :
  forall progname arg2 port talk ores oerr line chan subchan rest,
    ores <> -1 ->
    0 <= chan <= 99 ->
    0 <= subchan <= 99 ->
    no_digit_head rest = true ->
    exists param,
      wire (final_trace
              (main progname "dchan"
                    (decimal chan ++ "." ++ decimal subchan ++ rest)
                    arg2 port (initial false talk ores oerr line)))
      = ["DA2P"; param; cr]
      /\ param = fmt_0d 2 chan ++ fmt_0d 2 subchan
      /\ String.length param = 4%nat
      /\ atoi param = 100 * chan + subchan.
Proof.
  intros progname arg2 port talk ores oerr line chan subchan rest Hopen Hc Hs
    Hrest.
  exists (fmt_0d 2 chan ++ fmt_0d 2 subchan).
  destruct (fmt_0d_digits 2 chan) as (Hca & Hcv & Hcn); [lia |].
  destruct (fmt_0d_digits 2 subchan) as (Hsa & Hsv & Hsn); [lia |].
  assert (Hl1 : String.length (fmt_0d 2 chan) = 2%nat)
    by (apply length_fmt_0d; [change (10 ^ Z.of_nat 2) with 100 |]; lia).
  assert (Hl2 : String.length (fmt_0d 2 subchan) = 2%nat)
    by (apply length_fmt_0d; [change (10 ^ Z.of_nat 2) with 100 |]; lia).
  split; [| split; [reflexivity | split]].
  - apply (main_wire_single _ _ _ _ _ _ _ _ _
             ("DA2P", fmt_0d 2 chan ++ fmt_0d 2 subchan)); [| exact Hopen].
    rewrite encode_dchan, sscanf_numerals by (auto; lia). reflexivity.
  - rewrite length_append, Hl1, Hl2. reflexivity.
  - rewrite <- (append_nil_r (fmt_0d 2 chan ++ fmt_0d 2 subchan)).
    rewrite atoi_digits; [| now rewrite all_digits_app, Hca, Hsa | | reflexivity].
    + rewrite digits_value_app, Hcv, Hsv, Hl2 by assumption.
      change (10 ^ Z.of_nat 2) with 100. rewrite to_int_small; lia.
    + destruct (fmt_0d 2 chan); [congruence | discriminate].
Qed.

Lemma dchan_round_trip_witness :
  3 <> -1 /\ 0 <= 5 <= 99 /\ 0 <= 12 <= 99 /\ no_digit_head ".3" = true
  /\ wire (final_trace (main "aquosctl" "dchan" "5.12.3" EmptyString
                          "/dev/ttyS0" (initial false false 3 EmptyString [])))
     = ["DA2P"; "0512"; cr].
Proof.
  split; [discriminate |]. split; [lia |]. split; [lia |].
  split; [reflexivity |].
  destruct (dchan_round_trip "aquosctl" EmptyString "/dev/ttyS0" false 3
              EmptyString [] 5 12 ".3" ltac:(discriminate) ltac:(lia)
              ltac:(lia) eq_refl) as (param & Hw & -> & _).
  exact Hw.
Defined.

Lemma encode_dcabl1_eq (arg arg2 : string) :
  encode "dcabl1" arg arg2
  = let '(n, chan, subchan) := sscanf_d_dot_d arg 0 0 in
    if ((0 <? n) && ((chan <=? 999) && (subchan <=? 999)))%bool
    then Frames [("DC2U", fmt_0d 3 chan ++ " ");
                 ("DC2L", fmt_0d 3 subchan ++ " ")]
    else InvalidParameter.
Proof. reflexivity. Qed.

(** X17. dcabl1 on its documented channels: for a channel and a
    subchannel from 0 to 999, written as two numerals with a dot between
    them, and a whole reply to each frame, the run writes the DC2U frame
    and the DC2L frame, each with a parameter of four bytes, three digits
    and a space, from which [atoi] reads the channel and the subchannel
    back. *)
Theorem dcabl1_round_trip :
  forall progname arg2 port talk ores oerr line chan subchan rest r1 r2,
    ores <> -1 ->
    whole_reply r1 ->
    whole_reply r2 ->
    0 <= chan <= 999 ->
    0 <= subchan <= 999 ->
    no_digit_head rest = true ->
    exists p1 p2,
      wire (final_trace
              (main progname "dcabl1"
                    (decimal chan ++ "." ++ decimal subchan ++ rest)
                    arg2 port (initial false talk ores oerr (r1 :: r2 :: line))))
      = ["DC2U"; p1; cr; "DC2L"; p2; cr]
      /\ String.length p1 = 4%nat /\ String.length p2 = 4%nat
      /\ atoi p1 = chan /\ atoi p2 = subchan.
Proof.
  intros progname arg2 port talk ores oerr line chan subchan rest r1 r2 Hopen
    Hr1 Hr2 Hc Hs Hrest.
  exists (fmt_0d 3 chan ++ " "), (fmt_0d 3 subchan ++ " ").
  assert (Hlen : forall n, 0 <= n <= 999 ->
            String.length (fmt_0d 3 n ++ " ") = 4%nat).
  { intros n Hn. rewrite length_append, length_fmt_0d;
      [reflexivity | change (10 ^ Z.of_nat 3) with 1000; lia | lia]. }
  split; [| repeat split; auto; apply atoi_fmt_0d; auto; lia].
  change (r1 :: r2 :: line) with ([r1; r2] ++ line)%list.
  rewrite (main_replies progname "dcabl1" _ arg2 port talk ores oerr
             [("DC2U", fmt_0d 3 chan ++ " ");
              ("DC2L", fmt_0d 3 subchan ++ " ")] [r1; r2] line);
    [| | assumption | reflexivity
     | constructor; [assumption | constructor; [assumption | constructor]]].
  - unfold final_trace. cbn [snd trace exchanges].
    rewrite !wire_app, wire_hello, !wire_exchange. reflexivity.
  - rewrite encode_dcabl1_eq, sscanf_numerals by (auto; lia).
    destruct (Z.leb_spec chan 999); [| lia].
    destruct (Z.leb_spec subchan 999); [reflexivity | lia].
Qed.

Lemma dcabl1_round_trip_witness :
  3 <> -1
  /\ whole_reply ("OK" ++ cr)
  /\ 0 <= 7 <= 999 /\ 0 <= 0 <= 999 /\ no_digit_head EmptyString = true
  /\ exists p1 p2,
      wire (final_trace
              (main "aquosctl" "dcabl1" "7.0" EmptyString "/dev/ttyS0"
                    (initial false false 3 EmptyString
                             ["OK" ++ cr; "OK" ++ cr])))
      = ["DC2U"; p1; cr; "DC2L"; p2; cr]
      /\ atoi p1 = 7 /\ atoi p2 = 0.
Proof.
  assert (H : whole_reply ("OK" ++ cr)).
  { split; [discriminate | split; [vm_compute; lia | reflexivity]]. }
  split; [discriminate |]. split; [exact H |]. split; [lia |].
  split; [lia |]. split; [reflexivity |].
  destruct (dcabl1_round_trip "aquosctl" EmptyString "/dev/ttyS0" false 3
              EmptyString [] 7 0 EmptyString ("OK" ++ cr) ("OK" ++ cr)
              ltac:(discriminate) H H ltac:(lia) ltac:(lia) eq_refl)
    as (p1 & p2 & Hw & _ & _ & H1 & H2).
  exists p1, p2. auto.
Defined.

(** X18. dcabl1 tests the channel and the subchannel from above only: an
    argument fails validation exactly when [sscanf] reads no channel from
    it or reads a channel or a subchannel above 999, and then the run
    writes nothing and ends with failure status; a number below zero
    passes. *)
Theorem dcabl1_upper_bound :
  forall progname arg arg2 port talk ores oerr line n chan subchan,
    sscanf_d_dot_d arg 0 0 = (n, chan, subchan) ->
    let r := main progname "dcabl1" arg arg2 port
               (initial false talk ores oerr line) in
    (validates "dcabl1" arg arg2 = false
     <-> n <= 0 \/ 999 < chan \/ 999 < subchan)
    /\ (n <= 0 \/ 999 < chan \/ 999 < subchan ->
        wire (final_trace r) = [] /\ exit_status r = EXIT_FAILURE).
Proof.
  intros progname arg arg2 port talk ores oerr line n chan subchan Hscan r.
  assert (Hiff : validates "dcabl1" arg arg2 = false
                 <-> n <= 0 \/ 999 < chan \/ 999 < subchan).
  { unfold validates. rewrite encode_dcabl1_eq, Hscan.
    destruct (Z.ltb_spec 0 n), (Z.leb_spec chan 999),
      (Z.leb_spec subchan 999); cbn [andb];
      split; intros H'; try discriminate; try lia; reflexivity. }
  split; [exact Hiff |].
  intros Hbad. apply main_rejects_wire. now apply Hiff.
Qed.

Lemma dcabl1_upper_bound_witness :
  sscanf_d_dot_d "1000" 0 0 = (1, 1000, 0)
  /\ validates "dcabl1" "1000" EmptyString = false
  /\ validates "dcabl1" "-1000" EmptyString = true.
Proof.
  split; [reflexivity |].
  destruct (dcabl1_upper_bound "aquosctl" "1000" EmptyString "/dev/ttyS0"
              false 3 EmptyString [] 1 1000 0 eq_refl) as [H _].
  split; [apply H; right; left; lia | reflexivity].
Defined.

(** ** The start of [main] *)

Lemma usage_entries_run (tab : list lookuptab) (w : World) :
  usage_entries tab w = (Normal tt, log (map (fun e => Stderr (usage_entry e)) tab) w).
Proof.
  revert w; induction tab as [|e tab IH]; intros w; cbn [usage_entries map].
  - unfold ret. now rewrite <- (log_nil w) at 1; autorewrite with world.
  - step. rewrite IH. autorewrite with world. reflexivity.
Qed.

(** The messages of [usage]: two, and one for each entry of the table. *)
Lemma usage_run {A} (progname : string) (w : World) :
  exists msgs,
    @usage A progname w = (Exit EXIT_FAILURE, log (map Stderr msgs) w)
    /\ forall e, In e cmdtab -> In (usage_entry e) msgs.
Proof.
  unfold usage. step. rewrite usage_entries_run. autorewrite with world.
  eexists (_ :: _ :: map usage_entry cmdtab).
  cbn [map app]. rewrite map_map. split; [reflexivity |].
  intros e He. right; right. now apply in_map.
Qed.

Lemma options_help (progname : string) (opts : list (ascii * string)) :
  existsb help_option opts = true ->
  forall port w,
    exists msgs,
      fst (options progname opts port w) = Exit EXIT_FAILURE
      /\ trace (snd (options progname opts port w))
         = (trace w ++ map Stderr msgs)%list
      /\ forall e, In e cmdtab -> In (usage_entry e) msgs.
Proof.
  induction opts as [|[ch optarg] opts IH]; [discriminate |].
  intros Hhelp port w. cbn [existsb help_option] in Hhelp.
  cbn [options].
  destruct (Ascii.eqb ch "n").
  { destruct (IH Hhelp port (with_nosend true w)) as (msgs & H1 & H2 & H3).
    exists msgs. unfold bind, set_nosend.
    destruct (options progname opts port (with_nosend true w)) as [[p|s] w'];
      cbn [fst snd] in *; try discriminate. auto. }
  destruct (Ascii.eqb ch "v").
  { destruct (IH Hhelp port (with_verbose true w)) as (msgs & H1 & H2 & H3).
    exists msgs. unfold bind, set_verbose.
    destruct (options progname opts port (with_verbose true w)) as [[p|s] w'];
      cbn [fst snd] in *; try discriminate. auto. }
  destruct (Ascii.eqb ch "p").
  - destruct (streq optarg EmptyString).
    + destruct (@usage_run unit progname
                  (log [Stderr ("no port specified" ++ nl)] w))
        as (msgs & H1 & H3).
      exists (("no port specified" ++ nl) :: msgs).
      unfold bind, fprintf_stderr, emit.
      rewrite H1. cbn [fst snd].
      split; [reflexivity |]. split.
      * unfold log; cbn [trace map]. now rewrite <- app_assoc.
      * intros e He. right. auto.
    + destruct (IH Hhelp optarg w) as (msgs & H1 & H2 & H3).
      exists msgs. unfold bind, ret.
      destruct (options progname opts optarg w) as [[p|s] w'];
        cbn [fst snd] in *; try discriminate. auto.
  - destruct (@usage_run string progname w) as (msgs & H1 & H3).
    exists msgs. rewrite H1. auto.
Qed.

Lemma options_run (progname : string) (opts : list (ascii * string)) :
  existsb help_option opts = false ->
  forall port w,
    options progname opts port w
    = (Normal (fold_left (fun port o => if Ascii.eqb (fst o) "p"
                                        then snd o else port) opts port),
       with_nosend (nosend w || has_option "n" opts)
         (with_verbose (verbose w || has_option "v" opts) w)).
Proof.
  unfold has_option.
  induction opts as [|[ch optarg] opts IH]; intros Hhelp port w.
  - cbn. destruct w; cbn. now rewrite !orb_false_r.
  - cbn [existsb help_option] in Hhelp. apply orb_false_elim in Hhelp.
    destruct Hhelp as [Hone Hrest].
    cbn [options fold_left existsb fst snd].
    destruct (Ascii.eqb_spec ch "n") as [->|Hn].
    { unfold bind, set_nosend. rewrite (IH Hrest).
      destruct w; cbn. now rewrite !orb_true_r. }
    destruct (Ascii.eqb_spec ch "v") as [->|Hv].
    { unfold bind, set_verbose. rewrite (IH Hrest).
      destruct w; cbn. now rewrite !orb_true_r. }
    destruct (Ascii.eqb ch "p"); [| discriminate].
    rewrite Hone. unfold bind, ret. rewrite (IH Hrest). reflexivity.
Qed.

(** X19. Help ends the run before anything else happens: when the
    program is started without argument, or [getopt] returns among the
    options one that is not -n, -v or -p with a non-empty argument, the
    process exits with failure status; all it has done is to print to
    stderr, the port is not opened and the operands are not looked at, and
    what it printed has the entry of every command of the table. *)
Theorem help_ends_the_run :
  forall argc progname opts operands w,
    ports_fit opts = true ->
    argc = 1%nat \/ existsb help_option opts = true ->
    let r := main_argv argc progname opts operands w in
    fst r = Exit EXIT_FAILURE
    /\ exists msgs,
         trace (snd r) = (trace w ++ map Stderr msgs)%list
         /\ forall e, In e cmdtab -> In (usage_entry e) msgs.
Proof.
  intros argc progname opts operands w _ Hhelp r. subst r.
  unfold main_argv.
  destruct (Nat.eqb_spec argc 1) as [->|Hargc].
  - destruct (@usage_run unit progname w) as (msgs & H1 & H3).
    unfold bind. rewrite H1. cbn [fst snd].
    split; [reflexivity |]. exists msgs. split; [reflexivity | exact H3].
  - destruct Hhelp as [Hargc' | Hhelp]; [contradiction |].
    destruct (options_help progname opts Hhelp DEFAULT_PORT w)
      as (msgs & H1 & H2 & H3).
    unfold bind, ret.
    destruct (options progname opts DEFAULT_PORT w) as [[p|s] w'];
      cbn [fst snd] in *; try discriminate.
    injection H1 as ->. split; [reflexivity |]. exists msgs. auto.
Qed.

Lemma help_ends_the_run_witness :
  ports_fit [("v"%char, EmptyString); ("h"%char, EmptyString)] = true
  /\ fst (main_argv 4 "aquosctl"
            [("v"%char, EmptyString); ("h"%char, EmptyString)]
            ["power"; "on"] (initial false false 3 EmptyString []))
     = Exit EXIT_FAILURE.
Proof.
  split; [reflexivity |].
  apply (help_ends_the_run 4 "aquosctl"
           [("v"%char, EmptyString); ("h"%char, EmptyString)]
           ["power"; "on"] (initial false false 3 EmptyString [])
           eq_refl (or_intror eq_refl)).
Defined.

(** X20. The options compose: when the program has an argument and
    [getopt] returns only -n, -v and -p with a non-empty argument, however
    often and in whatever order, the run is the run of the rest of [main]
    with the first three operands, [nosend] set if -n is among the
    options, [verbose] set if -v is, and the port that the last -p names,
    or the default port. *)
Theorem options_compose :
  forall argc progname opts operands ores oerr line,
    ports_fit opts = true ->
    operands_fit operands = true ->
    argc <> 1%nat ->
    existsb help_option opts = false ->
    main_argv argc progname opts operands
              (initial false false ores oerr line)
    = main progname (nth 0 operands EmptyString) (nth 1 operands EmptyString)
           (nth 2 operands EmptyString) (selected_port opts)
           (initial (has_option "n" opts) (has_option "v" opts)
                    ores oerr line).
Proof.
  intros argc progname opts operands ores oerr line _ _ Hargc Hhelp.
  unfold main_argv. apply Nat.eqb_neq in Hargc. rewrite Hargc.
  unfold bind, ret.
  rewrite (options_run progname opts Hhelp). reflexivity.
Qed.

Lemma options_compose_witness :
  exit_status
    (main_argv 6 "aquosctl"
       [("n"%char, EmptyString); ("p"%char, "/dev/ttyUSB0");
        ("v"%char, EmptyString); ("p"%char, "/dev/ttyS1")]
       ["vol"; "20"] (initial false false 3 EmptyString []))
  = EXIT_SUCCESS
  /\ final_trace
       (main_argv 6 "aquosctl"
          [("n"%char, EmptyString); ("p"%char, "/dev/ttyUSB0");
           ("v"%char, EmptyString); ("p"%char, "/dev/ttyS1")]
          ["vol"; "20"] (initial false false 3 EmptyString []))
     = [Stdout ("port=/dev/ttyS1" ++ nl);
        Stdout ("command='VOLM', parameter='20  '" ++ nl); Close 0].
Proof.
  rewrite (options_compose 6 "aquosctl"
             [("n"%char, EmptyString); ("p"%char, "/dev/ttyUSB0");
              ("v"%char, EmptyString); ("p"%char, "/dev/ttyS1")]
             ["vol"; "20"] 3 EmptyString [] eq_refl eq_refl
             ltac:(discriminate) eq_refl).
  split; reflexivity.
Defined.

(** * The later revision and the first *)

(** The later table has the names of the first, with their opcodes. *)
Lemma later_checkcmd (newer : bool) (s : string) :
  (newer = false \/ checkcmd s <> CMD_NONE) ->
  Rev2.checkcmd newer s = later_opcode (checkcmd s).
Proof.
  unfold Rev2.checkcmd, checkcmd, Rev2.cmdtab, cmdtab.
  cbn [app Rev2.checkcmd_from checkcmd_from Rev2.cmd cmd Rev2.opcode opcode].
  repeat (destruct (streq _ s); [reflexivity |]).
  intros [-> | H]; [reflexivity | contradiction].
Qed.

Lemma streq_eq (a b : string) : streq a b = true -> a = b.
Proof. apply String.eqb_eq. Qed.

(** The tests of a chain against a word that is known. *)
Ltac eval_streq :=
  repeat match goal with
         | |- context [streq ?x ?y] =>
             let v := eval vm_compute in (streq x y) in
             change (streq x y) with v
         end.

(** A chain of the later revision against the tests of the first, word
    by word. *)
Ltac chain_cases :=
  cbv beta iota; cbn [Rev2.select existsb app token_param];
  repeat (match goal with
          | |- context [streq ?a ?b] =>
              let H := fresh "Hword" in
              destruct (streq a b) eqn:H;
              [apply streq_eq in H; subst a; eval_streq | clear H]
          end;
          cbn [orb]; cbv beta iota);
  intros; first [discriminate | reflexivity].

Ltac chains :=
  try match goal with
      | |- context [Rev2.select] => chain_cases
      end.

Ltac same_case :=
  try match goal with
      | |- context [atoi_within _ 1 7] => fail 1
      | |- _ => intros; reflexivity
      end.

(** The cases of the [switch] that the later revision has not changed,
    and those it has changed under NEWER_PROTOCOL only. *)
Lemma later_dispatch_default (progname oparg arg arg2 : string) :
  video_select oparg arg arg2 = false ->
  Rev2.dispatch false progname oparg arg arg2
  = dispatch progname oparg arg arg2.
Proof.
  unfold video_select, Rev2.dispatch, dispatch, Rev2.by_word.
  rewrite later_checkcmd by (now left).
  destruct (checkcmd oparg); cbn [later_opcode]; chains; same_case.
  intros Hvideo.
  destruct (streq arg EmptyString); [reflexivity |].
  destruct (streq arg "tv"); [reflexivity |].
  destruct (atoi_within arg 1 7); [| reflexivity].
  cbn [andb] in *.
  destruct (streq arg2 EmptyString); [reflexivity |].
  destruct (streq arg2 "auto"); [discriminate |].
  destruct (streq arg2 "video"); [discriminate |].
  destruct (streq arg2 "component"); [discriminate |].
  reflexivity.
Qed.

Lemma later_main_eq (newer : bool) (progname oparg arg arg2 port : string) :
  Rev2.dispatch newer progname oparg arg arg2
  = dispatch progname oparg arg arg2 ->
  Rev2.main newer progname oparg arg arg2 port
  = main progname oparg arg arg2 port.
Proof. intros H. unfold Rev2.main, main. now rewrite H. Qed.

(** X21. Built without NEWER_PROTOCOL, the later revision is the first
    one without the video selection: for every command line but
    [input N auto], [input N video] and [input N component] with N from 1
    to 7, a run of its [main] is the run of the first, in every world;
    those three forms, which the first revision sends as a frame INPN, it
    rejects with the message for invalid parameters. *)
Theorem later_revision_default_build :
  forall progname oparg arg arg2 port,
    (video_select oparg arg arg2 = false ->
     Rev2.main false progname oparg arg arg2 port
     = main progname oparg arg arg2 port)
    /\ (video_select oparg arg arg2 = true ->
        (exists digit,
            encode oparg arg arg2 = Frames [("INP" ++ arg, fmt_left 4 digit)])
        /\ Rev2.dispatch false progname oparg arg arg2
           = invalid_parameters progname oparg).
Proof.
  intros progname oparg arg arg2 port. split.
  - intros H. now apply later_main_eq, later_dispatch_default.
  - unfold video_select, encode, Rev2.dispatch.
    rewrite later_checkcmd by (now left).
    destruct (checkcmd oparg); try discriminate. cbn [later_opcode].
    intros H. apply andb_prop in H. destruct H as [Hin Hword].
    destruct (streq arg EmptyString) eqn:He.
    { apply streq_eq in He. subst arg. discriminate. }
    destruct (streq arg "tv") eqn:Htv.
    { apply streq_eq in Htv. subst arg. discriminate. }
    rewrite Hin. cbn [andb token_param].
    destruct (streq arg2 EmptyString) eqn:He2.
    { apply streq_eq in He2. subst arg2. discriminate. }
    split; [| reflexivity].
    destruct (streq arg2 "auto"); [eauto |].
    destruct (streq arg2 "video"); [eauto |].
    destruct (streq arg2 "component"); [eauto | discriminate].
Qed.

Lemma later_revision_default_build_witness :
  Rev2.main false "aquosctl" "vol" "20" EmptyString "/dev/ttyS0"
  = main "aquosctl" "vol" "20" EmptyString "/dev/ttyS0"
  /\ Rev2.dispatch false "aquosctl" "input" "3" "video"
     = invalid_parameters "aquosctl" "input"
  /\ encode "input" "3" "video" = Frames [("INP3", "1   ")].
Proof.
  split.
  - apply (later_revision_default_build
             "aquosctl" "vol" "20" EmptyString "/dev/ttyS0"). reflexivity.
  - split; [| reflexivity].
    apply (later_revision_default_build
             "aquosctl" "input" "3" "video" "/dev/ttyS0"). reflexivity.
Defined.

Lemma atoi_within_wider (arg : string) (lo hi hi' : Z) :
  hi <= hi' -> atoi_within arg lo hi = true -> atoi_within arg lo hi' = true.
Proof.
  unfold atoi_within. intros Hhi H. apply andb_prop in H. destruct H as [H1 H2].
  rewrite H1. cbn [andb]. apply Z.leb_le. apply Z.leb_le in H2. lia.
Qed.

Lemma later_dispatch_newer (progname oparg arg arg2 : string) :
  validates oparg arg arg2 = true ->
  video_select oparg arg arg2 = false ->
  surround_on oparg arg = false ->
  Rev2.dispatch true progname oparg arg arg2
  = dispatch progname oparg arg arg2.
Proof.
  intros Hval. assert (Hne : checkcmd oparg <> CMD_NONE).
  { intros H. unfold validates, encode in Hval. rewrite H in Hval.
    discriminate. }
  revert Hval.
  unfold validates, encode, video_select, surround_on, Rev2.dispatch,
    dispatch, Rev2.by_word, tokens.
  rewrite later_checkcmd by (now right).
  destruct (checkcmd oparg); cbn [later_opcode]; chains; same_case.
  destruct (streq arg EmptyString); [reflexivity |].
  destruct (streq arg "tv"); [reflexivity |].
  destruct (atoi_within arg 1 7) eqn:Hin.
  - rewrite (atoi_within_wider arg 1 7 8) by (lia || assumption).
    cbn [andb token_param].
    destruct (streq arg2 EmptyString); [reflexivity |].
    destruct (streq arg2 "auto"); [discriminate |].
    destruct (streq arg2 "video"); [discriminate |].
    destruct (streq arg2 "component"); discriminate.
  - discriminate.
Qed.

(** X22. NEWER_PROTOCOL keeps the commands of the first revision but
    one: for a command line that passes the validation of the first
    revision and is no video selection, a run of the [main] built with
    NEWER_PROTOCOL is the run of the first revision, in every world,
    unless the command line is [surround on], which that build rejects
    as an invalid parameter. *)
Theorem newer_protocol_keeps_commands :
  forall progname oparg arg arg2 port,
    validates oparg arg arg2 = true ->
    video_select oparg arg arg2 = false ->
    if surround_on oparg arg
    then Rev2.dispatch true progname oparg arg arg2
         = invalid_parameter progname oparg arg
    else Rev2.main true progname oparg arg arg2 port
         = main progname oparg arg arg2 port.
Proof.
  intros progname oparg arg arg2 port Hval Hvideo.
  destruct (surround_on oparg arg) eqn:Hon.
  - unfold surround_on in Hon. unfold Rev2.dispatch, Rev2.by_word.
    assert (Hne : checkcmd oparg <> CMD_NONE)
      by (intros H; rewrite H in Hon; discriminate).
    rewrite later_checkcmd by (now right).
    destruct (checkcmd oparg); try discriminate. cbn [later_opcode].
    apply streq_eq in Hon. subst arg. reflexivity.
  - now apply later_main_eq, later_dispatch_newer.
Qed.

Lemma newer_protocol_keeps_commands_witness :
  Rev2.main true "aquosctl" "surround" "off" EmptyString "/dev/ttyS0"
  = main "aquosctl" "surround" "off" EmptyString "/dev/ttyS0"
  /\ Rev2.dispatch true "aquosctl" "surround" "on" EmptyString
     = invalid_parameter "aquosctl" "surround" "on".
Proof.
  split.
  - apply (newer_protocol_keeps_commands
             "aquosctl" "surround" "off" EmptyString "/dev/ttyS0"
             eq_refl eq_refl).
  - apply (newer_protocol_keeps_commands
             "aquosctl" "surround" "on" EmptyString "/dev/ttyS0"
             eq_refl eq_refl).
Defined.

(** ** The new commands on the wire *)

Lemma later_main_port_ok (newer : bool)
    (progname oparg arg arg2 port : string) (p : plan) (w : World) :
  Rev2.dispatch newer progname oparg arg arg2
  = perform progname oparg arg p ->
  nosend w = false ->
  open_result w <> -1 ->
  Rev2.main newer progname oparg arg arg2 port w
  = finish (perform progname oparg arg p
              (log (hello (verbose w) port
                    ++ [Open port (open_result w);
                        Configure (open_result w)])
                   (with_fd (open_result w) w))).
Proof.
  intros Hd Hsend Hopen. unfold Rev2.main, openport. rewrite Hd. step.
  rewrite Hsend. apply Z.eqb_neq in Hopen.
  unfold hello, finish.
  destruct (verbose w); cbn [negb]; cbv beta iota; autorewrite with world;
    rewrite Hopen; cbv beta iota; autorewrite with world.
  - destruct (perform _ _ _ _ _) as [[[st|]|s] w']; reflexivity.
  - rewrite <- (log_nil w) at 1. autorewrite with world.
    destruct (perform _ _ _ _ _) as [[[st|]|s] w']; reflexivity.
Qed.

(** What a run of the later [main] writes, for a case of the [switch]
    that sends one frame or complains. *)
Lemma later_main_wire (newer : bool) (progname oparg arg arg2 port : string)
    (talk : bool) (ores : Z) (oerr : string) (line : list string)
    (p : plan) :
  Rev2.dispatch newer progname oparg arg arg2
  = perform progname oparg arg p ->
  ores <> -1 ->
  let r := Rev2.main newer progname oparg arg arg2 port
             (initial false talk ores oerr line) in
  match p with
  | Frames [f] => wire (final_trace r) = frame_writes f
  | Frames _ => True
  | _ => wire (final_trace r) = [] /\ exit_status r = EXIT_FAILURE
  end.
Proof.
  intros Hd Hopen r. subst r.
  rewrite (later_main_port_ok newer _ _ _ _ _ p)
    by (try reflexivity; assumption).
  cbn [initial verbose open_result].
  assert (Hbad : (forall fs, p <> Frames fs) ->
            wire (final_trace
                    (finish (perform progname oparg arg p
                       (log (hello talk port
                             ++ [Open port ores; Configure ores])
                            (with_fd ores
                               (mkWorld 0 false talk ores oerr line []))))))
            = []
            /\ exit_status
                 (finish (perform progname oparg arg p
                    (log (hello talk port
                          ++ [Open port ores; Configure ores])
                         (with_fd ores
                            (mkWorld 0 false talk ores oerr line [])))))
               = EXIT_FAILURE).
  { intros Hp. rewrite perform_complaint by assumption.
    unfold finish, final_trace, exit_status. cbn [fst snd].
    autorewrite with world. cbn [trace app]. split; [| reflexivity].
    rewrite !wire_app, wire_hello. reflexivity. }
  destruct p as [| | |fs]; try (apply Hbad; discriminate).
  destruct fs as [|f [|f' fs]]; try exact I. clear Hbad.
  cbn [perform].
  match goal with |- context [send_frames [f] ?w] =>
    destruct (send_frames_effect [f] w) as (o & es & l & -> & Ho)
  end; [reflexivity |].
  unfold final_trace. destruct o as [st|s]; cbn [finish fst snd].
  - destruct Ho as (-> & Hw).
    autorewrite with world. cbn [fst snd]. autorewrite with world.
    cbn [trace app].
    rewrite !wire_app, wire_hello, Hw. cbn [wire app flat_map].
    now rewrite !app_nil_r.
  - destruct Ho as (-> & _ & n & Hlt & Hw).
    autorewrite with world. cbn [fst snd]. autorewrite with world.
    cbn [trace app].
    rewrite !wire_app, wire_hello, Hw. cbn [List.length] in Hlt.
    assert (n = 0%nat) by lia. subst n.
    cbn [wire app flat_map firstn]. now rewrite !app_nil_r.
Qed.

Lemma select_word (arg : string) (chain : list Rev2.branch) :
  Rev2.select arg chain <> None -> In arg (chain_words chain).
Proof.
  unfold chain_words.
  induction chain as [|[words text] chain IH]; cbn [Rev2.select flat_map fst];
    [congruence |].
  intros H. apply in_or_app.
  destruct (existsb (streq arg) words) eqn:Hw; [left | right; auto].
  apply existsb_exists in Hw. destruct Hw as (w & Hin & Heq).
  apply streq_eq in Heq. now subst w.
Qed.

(** What holds of a chain for no word and for each of its words holds of
    it for every argument. *)
Lemma select_cases (P : option string -> Prop) (chain : list Rev2.branch)
    (arg : string) :
  P None ->
  Forall (fun w => P (Rev2.select w chain)) (chain_words chain) ->
  P (Rev2.select arg chain).
Proof.
  intros Hnone Hwords.
  destruct (Rev2.select arg chain) eqn:Hs; [| exact Hnone].
  rewrite <- Hs. rewrite Forall_forall in Hwords. apply Hwords.
  apply select_word. congruence.
Qed.

Lemma by_word_plan (progname oparg arg op : string)
    (chain : list Rev2.branch) :
  Rev2.by_word progname oparg arg op chain
  = perform progname oparg arg
      match Rev2.select arg chain with
      | Some param => Frames [(op, param)]
      | None => InvalidParameter
      end.
Proof. unfold Rev2.by_word. destruct (Rev2.select arg chain); reflexivity. Qed.

Lemma button_plan (progname arg arg2 : string) :
  Rev2.dispatch true progname "button" arg arg2
  = perform progname "button" arg
      match Rev2.select arg Rev2.chain_button with
      | Some param => Frames [("RCKY", param)]
      | None => InvalidParameter
      end.
Proof.
  unfold Rev2.dispatch.
  change (Rev2.checkcmd true "button") with Rev2.CMD_BUTTON.
  cbv beta iota. apply by_word_plan.
Qed.

Lemma button_select (arg : string) :
  match Rev2.select arg Rev2.chain_button with
  | Some param =>
      exists k, In k button_numbers /\ param = fmt_left 4 (decimal k)
  | None => True
  end.
Proof.
  apply select_cases with
    (P := fun o => match o with
                   | Some param =>
                       exists k, In k button_numbers
                                 /\ param = fmt_left 4 (decimal k)
                   | None => True
                   end); [exact I |].
  apply Forall_forall. intros w Hw.
  assert (Hall : forallb
            (fun w => match Rev2.select w Rev2.chain_button with
                      | Some param =>
                          existsb (fun k => streq param (fmt_left 4 (decimal k)))
                                  button_numbers
                      | None => true
                      end) (chain_words Rev2.chain_button) = true)
    by (vm_compute; reflexivity).
  rewrite forallb_forall in Hall. specialize (Hall w Hw).
  destruct (Rev2.select w Rev2.chain_button); [| exact I].
  apply existsb_exists in Hall. destruct Hall as (k & Hk & Heq).
  exists k. split; [exact Hk | now apply streq_eq].
Qed.

Lemma button_words (k : Z) :
  In k button_numbers ->
  exists word,
    Rev2.select word Rev2.chain_button = Some (fmt_left 4 (decimal k)).
Proof.
  intros Hk.
  assert (Hall : forallb
            (fun k => existsb
               (fun w => match Rev2.select w Rev2.chain_button with
                         | Some param => streq param (fmt_left 4 (decimal k))
                         | None => false
                         end) (chain_words Rev2.chain_button))
            button_numbers = true)
    by (vm_compute; reflexivity).
  rewrite forallb_forall in Hall. specialize (Hall k Hk).
  apply existsb_exists in Hall. destruct Hall as (w & _ & Hw).
  exists w. destruct (Rev2.select w Rev2.chain_button); [| discriminate].
  apply streq_eq in Hw. now subst.
Qed.

(** X23. The buttons of the remote control.  Built with NEWER_PROTOCOL,
    a run of [button] with any argument writes nothing and fails, or
    writes one frame RCKY whose parameter is a number from 0 to 59 other
    than 25, 26, 37 and 40, padded to four bytes; each of these numbers
    is sent for some word; and [enter] sends 11, so that the branch that
    formats 40 for [enter], further down the chain, is never taken. *)
Theorem button_numbers_sent :
  forall progname arg arg2 port talk ores oerr line,
    ores <> -1 ->
    let run := fun word =>
      Rev2.main true progname "button" word arg2 port
                (initial false talk ores oerr line) in
    (wire (final_trace (run arg)) = [] /\ exit_status (run arg) = EXIT_FAILURE
     \/ exists k,
          In k button_numbers
          /\ wire (final_trace (run arg))
             = ["RCKY"; fmt_left 4 (decimal k); cr])
    /\ (forall k,
          In k button_numbers ->
          exists word,
            wire (final_trace (run word))
            = ["RCKY"; fmt_left 4 (decimal k); cr])
    /\ wire (final_trace (run "enter")) = ["RCKY"; "11  "; cr]
    /\ In (["enter"], "40") Rev2.chain_button
    /\ ~ In 40 button_numbers.
Proof.
  intros progname arg arg2 port talk ores oerr line Hopen run.
  assert (Hrun : forall word,
            match Rev2.select word Rev2.chain_button with
            | Some param =>
                wire (final_trace (run word)) = ["RCKY"; param; cr]
            | None =>
                wire (final_trace (run word)) = []
                /\ exit_status (run word) = EXIT_FAILURE
            end).
  { intros word.
    pose proof (later_main_wire true progname "button" word arg2 port talk
                  ores oerr line _ (button_plan progname word arg2) Hopen)
      as H.
    fold (run word) in H.
    destruct (Rev2.select word Rev2.chain_button); exact H. }
  split; [| split; [| split; [| split]]].
  - pose proof (Hrun arg) as H. pose proof (button_select arg) as Hs.
    destruct (Rev2.select arg Rev2.chain_button) as [param|]; [right | now left].
    destruct Hs as (k & Hk & ->). eauto.
  - intros k Hk. destruct (button_words k Hk) as (word & Hw).
    exists word. pose proof (Hrun word) as H. now rewrite Hw in H.
  - exact (Hrun "enter").
  - vm_compute. tauto.
  - vm_compute. intuition discriminate.
Qed.

Lemma button_numbers_sent_witness :
  3 <> -1
  /\ wire (final_trace
             (Rev2.main true "aquosctl" "button" "enter" EmptyString
                        "/dev/ttyS0" (initial false false 3 EmptyString [])))
     = ["RCKY"; "11  "; cr].
Proof.
  split; [discriminate |].
  apply (button_numbers_sent "aquosctl" "enter" EmptyString "/dev/ttyS0"
           false 3 EmptyString [] ltac:(discriminate)).
Defined.

(** ** A port that does not open *)

(** X24. When [open] fails in a run that sends, nothing of the command
    line is looked at: whatever the command and its arguments, valid or
    not, the process prints the message of [openport] with the port and
    the error on stderr and exits with failure status, and has neither
    written nor read; the line is as it was and [fd] is -1. *)
Theorem open_failure_ends_run :
  forall progname oparg arg arg2 port talk oerr line,
    main progname oparg arg arg2 port (initial false talk (-1) oerr line)
    = (Exit EXIT_FAILURE,
       mkWorld (-1) false talk (-1) oerr line
         (hello talk port
          ++ [Open port (-1);
              Stderr ("openport(" ++ port ++ "): " ++ oerr ++ nl)])).
Proof.
  intros progname oparg arg arg2 port talk oerr line.
  rewrite main_port_fails by reflexivity. reflexivity.
Qed.

(** ** The chains of the later revision *)

Lemma select_length (arg : string) (chain : list Rev2.branch) (p : string) :
  forallb (fun b => (String.length (snd b) <=? 4)%nat) chain = true ->
  Rev2.select arg chain = Some p ->
  String.length p = 4%nat.
Proof.
  induction chain as [|[words text] chain IH];
    cbn [Rev2.select forallb snd]; [discriminate |].
  intros H. apply andb_prop in H. destruct H as [Hlen Hrest].
  destruct (existsb (streq arg) words); [| now apply IH].
  intros Hp. injection Hp as <-. rewrite length_fmt_left.
  apply Nat.leb_le in Hlen. lia.
Qed.

Ltac later_case :=
  unfold Rev2.dispatch;
  match goal with
  | |- context [Rev2.checkcmd ?b ?s] =>
      let v := eval vm_compute in (Rev2.checkcmd b s) in
      change (Rev2.checkcmd b s) with v
  end;
  cbv beta iota.

(** X25. In both builds of the later revision the chains keep within
    [param] and [cmd]: a run of a command that formats its parameter in a
    chain of [else if] writes nothing, or writes one frame, an opcode of
    four bytes, a parameter of four bytes (the longest text of a chain,
    100 for [avmode auto], has three) and a carriage return. *)
Theorem later_chain_frames :
  forall newer progname oparg arg arg2 port talk ores oerr line,
    ores <> -1 ->
    In oparg chain_commands ->
    let r := Rev2.main newer progname oparg arg arg2 port
               (initial false talk ores oerr line) in
    wire (final_trace r) = []
    \/ exists op param,
         wire (final_trace r) = [op; param; cr]
         /\ String.length op = 4%nat
         /\ String.length param = 4%nat.
Proof.
  intros newer progname oparg arg arg2 port talk ores oerr line Hopen Hin r.
  assert (Hplan : exists p,
            Rev2.dispatch newer progname oparg arg arg2
            = perform progname oparg arg p
            /\ match p with
               | Frames [(op, param)] =>
                   String.length op = 4%nat /\ String.length param = 4%nat
               | Frames _ => False
               | _ => True
               end).
  { unfold chain_commands in Hin. cbn [In] in Hin.
    repeat (destruct Hin as [<- | Hin]); try contradiction;
      destruct newer; later_case;
      try (exists BadCommand; split; [reflexivity | exact I]);
      rewrite by_word_plan; eexists; (split; [reflexivity |]);
      match goal with
      | |- context [Rev2.select arg ?chain] =>
          destruct (Rev2.select arg chain) eqn:Hs; [| exact I];
          split; [reflexivity |];
          apply (select_length arg chain); [reflexivity | exact Hs]
      end. }
  destruct Hplan as (p & Hd & Hp).
  pose proof (later_main_wire newer progname oparg arg arg2 port talk ores
                oerr line p Hd Hopen) as H.
  fold r in H.
  destruct p as [| | |[|[op param] [|f fs]]]; try contradiction;
    try (left; apply H).
  right. exists op, param. destruct Hp. auto.
Qed.

Lemma later_chain_frames_witness :
  3 <> -1
  /\ In "avmode" chain_commands
  /\ wire (final_trace
             (Rev2.main true "aquosctl" "avmode" "auto" EmptyString
                        "/dev/ttyS0" (initial false false 3 EmptyString [])))
     = ["AVMD"; "100 "; cr].
Proof.
  split; [discriminate |]. split; [vm_compute; tauto |].
  destruct (later_chain_frames true "aquosctl" "avmode" "auto" EmptyString
              "/dev/ttyS0" false 3 EmptyString [] ltac:(discriminate)
              ltac:(vm_compute; tauto)) as [H | (op & param & H & _)].
  - vm_compute in H. discriminate H.
  - vm_compute in H. injection H as <- <-. vm_compute. reflexivity.
Defined.

(** ** The table and the [switch] of the later revision *)

Ltac run_chain :=
  later_case; unfold Rev2.by_word; cbv beta iota;
  cbn [Rev2.select existsb app]; eval_streq; cbn [orb]; cbv beta iota.

(** X26. In the later revision the [args] texts of viewmode and surround,
    which [usage] prints, are those of the other build: every word that
    the table of a build has for one of these commands is a word that the
    [switch] of the other build sends a frame for, while the build itself
    rejects a word of its own text, for surround in both builds and for
    viewmode in the build without NEWER_PROTOCOL. *)
Theorem table_text_of_other_build :
  forall newer progname arg2 name,
    In name ["viewmode"; "surround"] ->
    (forall word,
        In word (documented newer name) ->
        exists op param,
          Rev2.dispatch (negb newer) progname name word arg2
          = (sendcommand op param ;; break))
    /\ (name = "surround" \/ newer = false ->
        exists word,
          In word (documented newer name)
          /\ Rev2.dispatch newer progname name word arg2
             = invalid_parameter progname name word).
Proof.
  intros newer progname arg2 name Hname. cbn [In] in Hname.
  destruct Hname as [<- | [<- | []]]; destruct newer; cbn [negb]; split.
  all: try (intros word Hw; vm_compute in Hw;
            repeat (destruct Hw as [<- | Hw]); try contradiction;
            run_chain; do 2 eexists; reflexivity).
  - intros [H | H]; discriminate H.
  - intros _. exists "auto". split; [vm_compute; tauto |].
    run_chain. reflexivity.
  - intros _. exists "on". split; [vm_compute; tauto |].
    run_chain. reflexivity.
  - intros _. exists "normal". split; [vm_compute; tauto |].
    run_chain. reflexivity.
Qed.

Lemma table_text_of_other_build_witness :
  In "surround" ["viewmode"; "surround"]
  /\ In "normal" (documented false "surround")
  /\ Rev2.dispatch false "aquosctl" "surround" "normal" EmptyString
     = invalid_parameter "aquosctl" "surround" "normal"
  /\ exists op param,
       Rev2.dispatch true "aquosctl" "surround" "normal" EmptyString
       = (sendcommand op param ;; break).
Proof.
  assert (Hname : In "surround" ["viewmode"; "surround"])
    by (vm_compute; tauto).
  assert (Hword : In "normal" (documented false "surround"))
    by (vm_compute; tauto).
  split; [exact Hname |]. split; [exact Hword |].
  split; [reflexivity |].
  apply (table_text_of_other_build false "aquosctl" EmptyString "surround"
           Hname). exact Hword.
Defined.

(** ** Arguments sent as they are written *)

(** X27. vol, hpos, vpos, clock, phase and achan send the text of their
    argument, not the number that [atoi] has read from it: when the
    argument passes validation the run writes one frame, the opcode of the
    command and the argument as it was typed, with blanks after it up to
    four bytes; the parameter has four bytes when the argument has four
    at most and as many as the argument otherwise.  phase accepts the
    non-empty arguments that [atoi] reads as 0 to 40. *)
Theorem text_commands_send_text :
  forall progname arg arg2 port talk ores oerr line,
    ores <> -1 ->
    Forall (fun entry : string * string =>
              validates (fst entry) arg arg2 = true ->
              wire (final_trace
                      (main progname (fst entry) arg arg2 port
                            (initial false talk ores oerr line)))
              = [snd entry; fmt_left 4 arg; cr])
           text_commands
    /\ fmt_left 4 arg = arg ++ repeat_char SP (4 - String.length arg)
    /\ String.length (fmt_left 4 arg) = Nat.max 4 (String.length arg)
    /\ validates "phase" arg arg2
       = (negb (streq arg EmptyString) && atoi_within arg 0 40)%bool.
Proof.
  intros progname arg arg2 port talk ores oerr line Hopen.
  split; [| split; [reflexivity | split; [apply length_fmt_left |]]].
  - unfold text_commands.
    repeat (apply Forall_cons;
            [cbn [fst snd]; intros Hv;
             match goal with
             | |- _ = [?op; ?p; _] =>
                 apply (main_wire_single progname _ arg arg2 port talk ores
                          oerr line (op, p))
             end; try assumption;
             revert Hv; unfold validates, encode, ranged;
             match goal with
             | |- context [checkcmd ?s] =>
                 let c := eval vm_compute in (checkcmd s) in
                 change (checkcmd s) with c
             end; cbv beta iota;
             repeat match goal with
                    | |- context [negb ?b] => destruct (negb b)
                    | |- context [atoi_within ?a ?l ?h] =>
                        destruct (atoi_within a l h)
                    end;
             cbn [andb]; intros; (reflexivity || discriminate) |]).
    apply Forall_nil.
  - unfold validates, encode, ranged.
    change (checkcmd "phase") with CMD_PHASE. cbv beta iota.
    destruct (negb (streq arg EmptyString)), (atoi_within arg 0 40);
      reflexivity.
Qed.

Lemma text_commands_send_text_witness :
  3 <> -1
  /\ validates "phase" "0" EmptyString = true
  /\ wire (final_trace
             (main "aquosctl" "phase" "0" EmptyString "/dev/ttyS0"
                   (initial false false 3 EmptyString ["OK" ++ cr])))
     = ["PHSE"; "0   "; cr].
Proof.
  split; [discriminate |]. split; [reflexivity |].
  destruct (text_commands_send_text "aquosctl" "0" EmptyString "/dev/ttyS0"
              false 3 EmptyString ["OK" ++ cr] ltac:(discriminate))
    as [H _].
  rewrite Forall_forall in H.
  apply (H ("phase", "PHSE")); [vm_compute; tauto | reflexivity].
Defined.



